(** * KPI aggregation engine of the public-transport delay analysis

    A shallow embedding of [src/kpi_aggregation.py] and the properties its
    specification states about it.

    Modelling conventions.
    - A float of a statistics column is a [float]: [Some q] for a finite
      value, carried as an exact rational, and [None] for NaN (pandas'
      "undefined").  Arithmetic propagates NaN the way IEEE arithmetic
      does; rounding is not modelled.
    - The argument of [_bucket] is a [pyfloat], which also has the two
      infinities: [int] is the one operation of the module whose outcome
      (an exception) depends on them.
    - A DataFrame is an object of a heap, reached through a reference;
      [copy] allocates, column assignment updates in place.  Exceptions
      and the heap are threaded by the monad [M].
    - pandas and numpy operations ([groupby], [apply], [reset_index],
      [sort_values], [head], [quantile], ...) are modelled after their
      documented behaviour. *)

From Stdlib Require Import QArith Qround Qminmax Lqa Lia ZArith List Ascii String.
From Stdlib Require Import Sorting.Permutation Sorting.Sorted.
From stdpp Require Import gmap strings.
Import ListNotations.

Local Open Scope string_scope.

(** ** Floats of the statistics columns *)

Definition float := option Q.

Definition NaN : float := None.

Definition lift2 (op : Q -> Q -> Q) (x y : float) : float :=
  match x, y with
  | Some a, Some b => Some (op a b)
  | _, _ => None
  end.

Definition fadd : float -> float -> float := lift2 Qplus.
Definition fsub : float -> float -> float := lift2 Qminus.
Definition fmul : float -> float -> float := lift2 Qmult.
Definition fdiv : float -> float -> float := lift2 Qdiv.

(** [numpy.clip]: [minimum (maximum x lower) upper]; NaN stays NaN. *)
Definition clip (lower upper : Q) (x : float) : float :=
  match x with
  | Some a => Some (Qmin (Qmax a lower) upper)
  | None => None
  end.

Definition fillna (v : Q) (x : float) : float :=
  match x with
  | Some a => Some a
  | None => Some v
  end.

(** A Series of floats, and the element-wise operations used on it. *)
Definition Series := list float.

Definition s_clip (lower upper : Q) (s : Series) : Series := map (clip lower upper) s.
Definition s_fillna (v : Q) (s : Series) : Series := map (fillna v) s.
Definition s_div (s : Series) (c : Q) : Series := map (fun x => fdiv x (Some c)) s.
Definition s_rmul (c : Q) (s : Series) : Series := map (fun x => fmul (Some c) x) s.
Definition s_rsub (c : Q) (s : Series) : Series := map (fun x => fsub (Some c) x) s.

Fixpoint s_add (s t : Series) : Series :=
  match s, t with
  | x :: s', y :: t' => fadd x y :: s_add s' t'
  | _, _ => []
  end.

(** ** Sorting *)

Section Isort.
Context {A : Type} (leb : A -> A -> bool).

Fixpoint insert_sorted (x : A) (l : list A) : list A :=
  match l with
  | [] => [x]
  | y :: l' => if leb x y then x :: l else y :: insert_sorted x l'
  end.

Fixpoint isort (l : list A) : list A :=
  match l with
  | [] => []
  | x :: l' => insert_sorted x (isort l')
  end.
End Isort.

(** ** Statistics of one group: [Series.dropna], [mean], [quantile] *)

Fixpoint dropna (s : Series) : list Q :=
  match s with
  | [] => []
  | Some a :: s' => a :: dropna s'
  | None :: s' => dropna s'
  end.

Definition Qsum (l : list Q) : Q := fold_right Qplus 0%Q l.

Definition Qlen (l : list Q) : Q := inject_Z (Z.of_nat (length l)).

Definition mean (l : list Q) : float :=
  match l with
  | [] => None
  | _ => Some (Qsum l / Qlen l)%Q
  end.

(** [Series.quantile (q)] with pandas' default [interpolation = "linear"]:
    the virtual index [q * (n - 1)] is split into its integer part [i] and
    fraction, and the result is [s_i + (s_(i+1) - s_i) * fraction] on the
    sorted values. *)
Definition quantile (q : Q) (l : list Q) : float :=
  match l with
  | [] => None
  | _ =>
    let s := isort Qle_bool l in
    let n := length s in
    let pos := (q * inject_Z (Z.of_nat (n - 1)))%Q in
    let i := Z.to_nat (Qfloor pos) in
    let fraction := (pos - inject_Z (Qfloor pos))%Q in
    let lo := nth i s 0%Q in
    let hi := nth (Nat.min (i + 1) (n - 1)) s 0%Q in
    Some (lo + (hi - lo) * fraction)%Q
  end.

(** The mean of the boolean Series [delay <= threshold]. *)
Definition count_le (t : Q) (l : list Q) : nat :=
  length (List.filter (fun d => Qle_bool d t) l).

Definition mean_le (t : Q) (l : list Q) : float :=
  match l with
  | [] => None
  | _ => Some (inject_Z (Z.of_nat (count_le t l)) / Qlen l)%Q
  end.

(** ** Python floats as seen by control flow, and scalars of key columns *)

Inductive pyfloat :=
| PNaN
| PInf (negative : bool)
| PFin (q : Q).

(** A cell of a key column: a string or a number; null is [Flt PNaN]. *)
Inductive scalar :=
| Str (s : string)
| Flt (x : pyfloat).

Definition of_float (x : float) : pyfloat :=
  match x with
  | Some q => PFin q
  | None => PNaN
  end.

(** Equality of group keys: with [dropna = False] the nulls form one group. *)
Definition pyfloat_eqb (x y : pyfloat) : bool :=
  match x, y with
  | PNaN, PNaN => true
  | PInf a, PInf b => Bool.eqb a b
  | PFin p, PFin q => Qeq_bool p q
  | _, _ => false
  end.

Definition scalar_eqb (a b : scalar) : bool :=
  match a, b with
  | Str s, Str t => String.eqb s t
  | Flt x, Flt y => pyfloat_eqb x y
  | _, _ => false
  end.

(** The order in which [groupby] emits its keys ([sort = True]): numbers
    by value, strings lexicographically, null last. *)
Definition pyfloat_leb (x y : pyfloat) : bool :=
  match x, y with
  | _, PNaN => true
  | PNaN, _ => false
  | PInf true, _ => true
  | _, PInf false => true
  | PFin p, PFin q => Qle_bool p q
  | _, _ => false
  end.

Definition scalar_leb (a b : scalar) : bool :=
  match a, b with
  | _, Flt PNaN => true
  | Flt PNaN, _ => false
  | Flt x, Flt y => pyfloat_leb x y
  | Flt _, Str _ => true
  | Str s, Str t => String.leb s t
  | Str _, Flt _ => false
  end.

Fixpoint key_eqb (k1 k2 : list scalar) : bool :=
  match k1, k2 with
  | [], [] => true
  | a :: k1', b :: k2' => scalar_eqb a b && key_eqb k1' k2'
  | _, _ => false
  end.

Fixpoint key_leb (k1 k2 : list scalar) : bool :=
  match k1, k2 with
  | [], _ => true
  | _ :: _, [] => false
  | a :: k1', b :: k2' =>
    if scalar_eqb a b then key_leb k1' k2' else scalar_leb a b
  end.

(** ** Exceptions and results *)

Inductive exn :=
| KeyError (msg : string)
| ValueError (msg : string)
| OverflowError (msg : string)
| TypeError (msg : string).

Inductive res (A : Type) :=
| Ok (a : A)
| Raise (e : exn).

Arguments Ok {A} a.
Arguments Raise {A} e.

Definition res_bind {A B} (r : res A) (k : A -> res B) : res B :=
  match r with
  | Ok a => k a
  | Raise e => Raise e
  end.

(** Apply a fallible function to every element, left to right; the first
    exception ends the traversal. *)
Fixpoint map_res {A B} (f : A -> res B) (l : list A) : res (list B) :=
  match l with
  | [] => Ok []
  | x :: l' =>
    res_bind (f x) (fun y => res_bind (map_res f l') (fun ys => Ok (y :: ys)))
  end.

(** ** Tables *)

(** One event.  Columns the engine never reads (mode, trip_id, ...) are
    carried by name only, in the frame's column list. *)
Record Event := {
  route_id : scalar;
  hour : pyfloat;
  delay_minutes : float;
  time_of_day : string
}.

Record EventFrame := {
  e_columns : list string;
  e_rows : list Event
}.

(** The Series returned by [_group_kpis] for one group. *)
Record GroupKpis := {
  avg_delay_min : float;
  p90_delay_min : float;
  on_time_rate : float;
  n_events : Z
}.

Record KpiRow := {
  key : list scalar;
  stats : GroupKpis;
  reliability_score : float
}.

Record KpiFrame := {
  k_index : list string;
  k_columns : list string;
  k_rows : list KpiRow
}.

Inductive DataFrame :=
| Events (f : EventFrame)
| Kpis (k : KpiFrame).

Definition has_column (c : string) (columns : list string) : bool :=
  existsb (String.eqb c) columns.

(** ** The heap of DataFrame objects and the monad of the engine *)

Abbreviation loc := positive.

Abbreviation heap := (gmap loc DataFrame).

Definition M (A : Type) : Type := heap -> res A * heap.

Definition ret {A} (a : A) : M A := fun h => (Ok a, h).

Definition raise {A} (e : exn) : M A := fun h => (Raise e, h).

Definition bind {A B} (m : M A) (k : A -> M B) : M B :=
  fun h =>
    match m h with
    | (Ok a, h') => k a h'
    | (Raise e, h') => (Raise e, h')
    end.

Definition lift {A} (r : res A) : M A := fun h => (r, h).

Declare Scope engine_scope.
Delimit Scope engine_scope with engine.
Notation "'do' x <- m ; k" := (bind m (fun x => k))
  (at level 10, x name, m at level 100, k at level 200) : engine_scope.
Notation "'do_' m ; k" := (bind m (fun _ => k))
  (at level 10, m at level 100, k at level 200) : engine_scope.
Local Open Scope engine_scope.

Definition alloc (o : DataFrame) : M loc :=
  fun h => let l := fresh (dom h) in (Ok l, <[l := o]> h).

Definition load (l : loc) : M DataFrame :=
  fun h =>
    match h !! l with
    | Some o => (Ok o, h)
    | None => (Raise (TypeError "not a DataFrame"), h)
    end.

Definition store (l : loc) (o : DataFrame) : M unit :=
  fun h => (Ok tt, <[l := o]> h).

Definition load_events (l : loc) : M EventFrame :=
  do o <- load l;
  match o with
  | Events f => ret f
  | Kpis _ => raise (TypeError "not an event table")
  end.

Definition load_kpis (l : loc) : M KpiFrame :=
  do o <- load l;
  match o with
  | Kpis k => ret k
  | Events _ => raise (TypeError "not a KPI table")
  end.

(** [DataFrame.copy]: a new object with the same content. *)
Definition copy (l : loc) : M loc :=
  do o <- load l;
  alloc o.

(** [name in df]. *)
Definition columns (l : loc) : M (list string) :=
  do o <- load l;
  match o with
  | Events f => ret (e_columns f)
  | Kpis k => ret (k_columns k)
  end.

(** ** [_group_kpis] *)

Definition _group_kpis (group : EventFrame) (on_time_threshold_min : Q) : res GroupKpis :=
  if negb (has_column "delay_minutes" (e_columns group)) then
    Raise (KeyError "delay_minutes")
  else
    let delay := dropna (map delay_minutes (e_rows group)) in
    match delay with
    | [] =>
      Ok {| avg_delay_min := NaN; p90_delay_min := NaN;
            on_time_rate := NaN; n_events := 0 |}
    | _ =>
      let avg := mean delay in
      let p90 := quantile 0.9 delay in
      let on_time := mean_le on_time_threshold_min delay in
      Ok {| avg_delay_min := avg; p90_delay_min := p90;
            on_time_rate := on_time; n_events := Z.of_nat (length delay) |}
    end.

(** ** [_add_reliability_score] *)

Definition kpi_cell (name : string) (r : KpiRow) : float :=
  if String.eqb name "avg_delay_min" then avg_delay_min (stats r)
  else if String.eqb name "p90_delay_min" then p90_delay_min (stats r)
  else if String.eqb name "on_time_rate" then on_time_rate (stats r)
  else if String.eqb name "n_events" then Some (inject_Z (n_events (stats r)))
  else if String.eqb name "reliability_score" then reliability_score r
  else NaN.

(** [kpis [name]]. *)
Definition kpi_column (k : KpiFrame) (name : string) : res Series :=
  if has_column name (k_columns k) then Ok (map (kpi_cell name) (k_rows k))
  else Raise (KeyError name).

Definition with_score (r : KpiRow) (s : float) : KpiRow :=
  {| key := key r; stats := stats r; reliability_score := s |}.

Fixpoint assign_scores (rows : list KpiRow) (score : Series) : list KpiRow :=
  match rows, score with
  | r :: rows', s :: score' => with_score r s :: assign_scores rows' score'
  | _, _ => []
  end.

(** [kpis ["reliability_score"] = score], in place. *)
Definition set_reliability_score (l : loc) (score : Series) : M unit :=
  do k <- load_kpis l;
  store l (Kpis {| k_index := k_index k;
                   k_columns := if has_column "reliability_score" (k_columns k)
                                then k_columns k
                                else k_columns k ++ ["reliability_score"];
                   k_rows := assign_scores (k_rows k) score |}).

Definition _add_reliability_score (kpis : loc) : M loc :=
  do kpis <- copy kpis;
  do k <- load_kpis kpis;
  do avg <- lift (kpi_column k "avg_delay_min");
  let delay_penalty := s_div (s_clip 0 10 avg) 10 in
  do rate <- lift (kpi_column k "on_time_rate");
  let on_time := s_fillna 0 rate in
  let score :=
    s_rmul 100 (s_add (s_rmul 0.6 on_time)
                      (s_rmul 0.4 (s_rsub 1 (s_fillna 1 delay_penalty)))) in
  do_ set_reliability_score kpis score;
  ret kpis.

(** ** [_add_time_of_day_bucket] *)

Definition isna (h : pyfloat) : bool :=
  match h with
  | PNaN => true
  | _ => false
  end.

(** Truncation toward zero, as [int] does it. *)
Definition Qtrunc (q : Q) : Z := Z.quot (Qnum q) (Z.pos (Qden q)).

(** [int (h)] on a float: truncation toward zero; it raises on NaN and on
    the infinities. *)
Definition py_int (h : pyfloat) : res Z :=
  match h with
  | PNaN => Raise (ValueError "cannot convert float NaN to integer")
  | PInf _ => Raise (OverflowError "cannot convert float infinity to integer")
  | PFin q => Ok (Qtrunc q)
  end.

Definition _bucket (h : pyfloat) : res string :=
  if isna h then Ok "Unknown"
  else
    res_bind (py_int h) (fun h_i =>
      if ((7 <=? h_i) && (h_i <? 10))%Z then Ok "Morning peak"
      else if ((10 <=? h_i) && (h_i <? 16))%Z then Ok "Midday"
      else if ((16 <=? h_i) && (h_i <? 19))%Z then Ok "Evening peak"
      else Ok "Night / off-peak").

Definition with_time_of_day (r : Event) (label : string) : Event :=
  {| route_id := route_id r; hour := hour r;
     delay_minutes := delay_minutes r; time_of_day := label |}.

Fixpoint assign_labels (rows : list Event) (labels : list string) : list Event :=
  match rows, labels with
  | r :: rows', s :: labels' => with_time_of_day r s :: assign_labels rows' labels'
  | _, _ => []
  end.

(** [df ["time_of_day"] = labels], in place. *)
Definition set_time_of_day (l : loc) (labels : list string) : M unit :=
  do f <- load_events l;
  store l (Events {| e_columns := if has_column "time_of_day" (e_columns f)
                                  then e_columns f
                                  else e_columns f ++ ["time_of_day"];
                     e_rows := assign_labels (e_rows f) labels |}).

Definition _add_time_of_day_bucket (df : loc) : M loc :=
  do cols <- columns df;
  if negb (has_column "hour" cols) then
    raise (KeyError "Dataframe must contain 'hour' (see src.data_ingestion.clean_delays)")
  else
    do df <- copy df;
    do f <- load_events df;
    do labels <- lift (map_res _bucket (map hour (e_rows f)));
    do_ set_time_of_day df labels;
    ret df.

(** ** [groupby], [apply], [reset_index] *)

Record GroupBy := {
  gb_obj : loc;
  gb_keys : list string
}.

(** The cell of a key column in one event. *)
Definition key_cell (r : Event) (name : string) : scalar :=
  if String.eqb name "route_id" then route_id r
  else if String.eqb name "hour" then Flt (hour r)
  else if String.eqb name "time_of_day" then Str (time_of_day r)
  else if String.eqb name "delay_minutes" then Flt (of_float (delay_minutes r))
  else Flt PNaN.

Definition key_of (keys : list string) (r : Event) : list scalar :=
  map (key_cell r) keys.

(** [df.groupby (keys, dropna = False)]: a missing key column is a
    [KeyError]. *)
Definition groupby (df : loc) (keys : list string) : M GroupBy :=
  do f <- load_events df;
  match find (fun k => negb (has_column k (e_columns f))) keys with
  | Some k => raise (KeyError k)
  | None => ret {| gb_obj := df; gb_keys := keys |}
  end.

Fixpoint dedup (ks : list (list scalar)) : list (list scalar) :=
  match ks with
  | [] => []
  | k :: ks' => k :: List.filter (fun k' => negb (key_eqb k' k)) (dedup ks')
  end.

(** The distinct keys, in key order. *)
Definition group_keys (keys : list string) (rows : list Event) : list (list scalar) :=
  isort key_leb (dedup (map (key_of keys) rows)).

(** The sub-frame of one key: its rows, in input order. *)
Definition get_group (keys : list string) (f : EventFrame) (k : list scalar) : EventFrame :=
  {| e_columns := e_columns f;
     e_rows := List.filter (fun r => key_eqb (key_of keys r) k) (e_rows f) |}.

Definition kpi_names : list string :=
  ["avg_delay_min"; "p90_delay_min"; "on_time_rate"; "n_events"].

(** [grouped.apply (func)]: [func] is called on the sub-frame of every
    key, and the Series it returns become the rows of a new frame indexed
    by the keys.  With no group at all pandas gives the new frame the
    columns of the grouped frame. *)
Definition apply (grouped : GroupBy) (func : EventFrame -> res GroupKpis) : M loc :=
  do data <- load_events (gb_obj grouped);
  let ks := group_keys (gb_keys grouped) (e_rows data) in
  do values <- lift (map_res
                 (fun k => res_bind (func (get_group (gb_keys grouped) data k))
                    (fun s => Ok {| key := k; stats := s; reliability_score := NaN |}))
                 ks);
  match values with
  | [] => alloc (Kpis {| k_index := gb_keys grouped;
                         k_columns := e_columns data;
                         k_rows := [] |})
  | _ => alloc (Kpis {| k_index := gb_keys grouped;
                        k_columns := kpi_names;
                        k_rows := values |})
  end.

(** [kpis.reset_index ()]: the index levels become columns of a new frame;
    a level whose name is a column already is a [ValueError]. *)
Definition reset_index (kpis : loc) : M loc :=
  do k <- load_kpis kpis;
  match find (fun n => has_column n (k_columns k)) (rev (k_index k)) with
  | Some n => raise (ValueError ("cannot insert " ++ n ++ ", already exists"))
  | None => alloc (Kpis {| k_index := [];
                           k_columns := k_index k ++ k_columns k;
                           k_rows := k_rows k |})
  end.

(** ** The three KPI tables *)

Definition compute_route_kpis (df : loc) (on_time_threshold_min : Q) : M loc :=
  do cols <- columns df;
  if negb (has_column "route_id" cols) || negb (has_column "delay_minutes" cols) then
    raise (KeyError "Dataframe must contain 'route_id' and 'delay_minutes'")
  else
    do grouped <- groupby df ["route_id"];
    do kpis <- apply grouped (fun g => _group_kpis g on_time_threshold_min);
    do kpis <- reset_index kpis;
    do kpis <- _add_reliability_score kpis;
    ret kpis.

Definition compute_route_hour_kpis (df : loc) (on_time_threshold_min : Q) : M loc :=
  do cols <- columns df;
  if negb (has_column "hour" cols) then
    raise (KeyError "Dataframe must contain 'hour' (see src.data_ingestion.clean_delays)")
  else
    do grouped <- groupby df ["route_id"; "hour"];
    do kpis <- apply grouped (fun g => _group_kpis g on_time_threshold_min);
    do kpis <- reset_index kpis;
    do kpis <- _add_reliability_score kpis;
    ret kpis.

Definition compute_route_period_kpis (df : loc) (on_time_threshold_min : Q) : M loc :=
  do df_bucketed <- _add_time_of_day_bucket df;
  do grouped <- groupby df_bucketed ["route_id"; "time_of_day"];
  do kpis <- apply grouped (fun g => _group_kpis g on_time_threshold_min);
  do kpis <- reset_index kpis;
  do kpis <- _add_reliability_score kpis;
  ret kpis.

(** ** [sort_values], [head] and [summarize_worst_routes] *)

(** [rows.iloc [indexer]]: the rows at the given positions, in that order. *)
Definition iloc {A} (rows : list A) (indexer : list nat) : list A :=
  flat_map (fun i => match nth_error rows i with
                     | Some r => [r]
                     | None => []
                     end) indexer.

(** [l [:n]]: a negative [n] counts from the end. *)
Definition slice_to {A} (n : Z) (l : list A) : list A :=
  if (0 <=? n)%Z then firstn (Z.to_nat n) l
  else firstn (length l - Z.to_nat (- n)) l.

Definition notna (x : float) : bool :=
  match x with
  | Some _ => true
  | None => false
  end.

(** The positions of the items that satisfy [p]. *)
Definition positions (p : float -> bool) (items : Series) : list nat :=
  List.filter (fun i => p (nth i items NaN)) (seq 0 (length items)).

Section SortValues.
(** numpy's [argsort] with the default [kind = "quicksort"]: positions
    that put the values in ascending order.  The kind is documented as
    not stable, so the kernel is left open; what is known of it is
    [argsort_spec] below. *)
Variable argsort : list Q -> list nat.

(** pandas' [nargsort (items, ascending = False, na_position = "last")]:
    the non-null items are reversed, sorted ascending and reversed
    again; the positions of the nulls follow. *)
Definition nargsort_desc (items : Series) : list nat :=
  let nan_idx := positions (fun x => negb (notna x)) items in
  let non_nans := rev (dropna items) in
  let non_nan_idx := rev (positions notna items) in
  let indexer := map (fun j => nth j non_nan_idx 0%nat) (argsort non_nans) in
  rev indexer ++ nan_idx.

(** [df.sort_values (by, ascending = False)]: a new frame. *)
Definition sort_values_desc (df : loc) (by_ : string) : M loc :=
  do o <- load df;
  match o with
  | Events _ => raise (KeyError by_)
  | Kpis k =>
    do items <- lift (kpi_column k by_);
    alloc (Kpis {| k_index := k_index k;
                   k_columns := k_columns k;
                   k_rows := iloc (k_rows k) (nargsort_desc items) |})
  end.

(** [df.head (n)], which is [df.iloc [:n]]: a new frame. *)
Definition head (df : loc) (n : Z) : M loc :=
  do o <- load df;
  match o with
  | Events f => alloc (Events {| e_columns := e_columns f;
                                 e_rows := slice_to n (e_rows f) |})
  | Kpis k => alloc (Kpis {| k_index := k_index k;
                             k_columns := k_columns k;
                             k_rows := slice_to n (k_rows k) |})
  end.

Definition summarize_worst_routes (route_kpis : loc) (top_n : Z) : M loc :=
  do sorted <- sort_values_desc route_kpis "avg_delay_min";
  head sorted top_n.
End SortValues.

(** What a sorting kernel guarantees: a permutation of the positions that
    reads the values in ascending order. *)
Definition argsort_spec (argsort : list Q -> list nat) : Prop :=
  forall l : list Q,
    Permutation (argsort l) (seq 0 (length l)) /\
    Sorted Qle (map (fun i => nth i l 0%Q) (argsort l)).

(** Two kernels that meet it.  Both are insertion sorts on the values
    paired with their positions; the first keeps equal values in input
    order, the second reverses them. *)
Definition argsort_by (leb : Q -> Q -> bool) (l : list Q) : list nat :=
  map fst (isort (fun a b => leb (snd a) (snd b)) (combine (seq 0 (length l)) l)).

Definition stable_argsort : list Q -> list nat := argsort_by Qle_bool.

Definition reversing_argsort : list Q -> list nat :=
  argsort_by (fun a b => negb (Qle_bool b a)).

(** * Definitions that follow the specification's words *)

(** The boundary table of the specification, on integer hours. *)
Definition bucket_of_hour (z : Z) : string :=
  if ((7 <=? z) && (z <? 10))%Z then "Morning peak"
  else if ((10 <=? z) && (z <? 16))%Z then "Midday"
  else if ((16 <=? z) && (z <? 19))%Z then "Evening peak"
  else "Night / off-peak".

(** The extreme values of a partition. *)
Definition minimum (l : list Q) : Q :=
  match l with
  | [] => 0%Q
  | x :: l' => fold_right Qmin x l'
  end.

Definition maximum (l : list Q) : Q :=
  match l with
  | [] => 0%Q
  | x :: l' => fold_right Qmax x l'
  end.

(** The number of delays that are at most the threshold, the threshold
    included, and their share of the partition. *)
Fixpoint count_at_most (t : Q) (l : list Q) : nat :=
  match l with
  | [] => 0
  | d :: l' => (if Qlt_le_dec t d then 0 else 1) + count_at_most t l'
  end.

Definition fraction_at_most (t : Q) (l : list Q) : Q :=
  (inject_Z (Z.of_nat (count_at_most t l)) / inject_Z (Z.of_nat (length l)))%Q.

(** The score formula of the specification. *)
Definition clamp (x lo hi : Q) : Q :=
  if Qlt_le_dec x lo then lo
  else if Qlt_le_dec hi x then hi
  else x.

Definition spec_delay_penalty (avg : float) : Q :=
  match avg with
  | Some a => (clamp a 0 10 / 10)%Q
  | None => 1%Q
  end.

Definition spec_on_time (rate : float) : Q :=
  match rate with
  | Some r => r
  | None => 0%Q
  end.

Definition spec_reliability_score (avg rate : float) : Q :=
  (100 * (0.6 * spec_on_time rate + 0.4 * (1 - spec_delay_penalty avg)))%Q.

(** * Example tables *)

Definition example_event (r : string) (h : Q) (d : float) : Event :=
  {| route_id := Str r; hour := PFin h; delay_minutes := d; time_of_day := "" |}.

Definition example_columns : list string :=
  ["timestamp"; "route_id"; "trip_id"; "delay_minutes"; "date"; "hour"].

(** Route 1 has two observed delays (scenario A), route 2 none (scenario B). *)
Definition example_events : EventFrame :=
  {| e_columns := example_columns;
     e_rows := [example_event "1" 8 (Some 0.5%Q);
                example_event "1" 22 (Some 2%Q);
                example_event "2" 9.7 None] |}.

Definition example_heap : heap := <[1%positive := Events example_events]> ∅.

(** * Vocabulary of the statements *)

(** [m] run in [h] returns a reference to a new object [o]: no object of
    [h] is changed, and the reference is not one of [h]. *)
Definition allocates (m : M loc) (h : heap) (o : DataFrame) : Prop :=
  exists (l' : loc) (h' : heap),
    m h = (Ok l', h') /\ h ⊆ h' /\ h !! l' = None /\ h' !! l' = Some o.

(** The score of one row, as the column arithmetic of
    [_add_reliability_score] computes it. *)
Definition row_score (avg rate : float) : float :=
  fmul (Some 100%Q)
       (fadd (fmul (Some 0.6%Q) (fillna 0 rate))
             (fmul (Some 0.4%Q)
                   (fsub (Some 1%Q) (fillna 1 (fdiv (clip 0 10 avg) (Some 10%Q)))))).

Definition score_row (r : KpiRow) : KpiRow :=
  with_score r (row_score (avg_delay_min (stats r)) (on_time_rate (stats r))).

Definition scored_frame (k : KpiFrame) : KpiFrame :=
  {| k_index := k_index k;
     k_columns := if has_column "reliability_score" (k_columns k)
                  then k_columns k
                  else k_columns k ++ ["reliability_score"];
     k_rows := map score_row (k_rows k) |}.

(** A scored row carries its source row's key and statistics, and the
    score of the specification's formula; with an average delay of 15 and
    an on-time rate of 1 that score is 60. *)
Definition scored_as_specified (r r' : KpiRow) : Prop :=
  key r' = key r /\ stats r' = stats r /\
  exists s : Q,
    reliability_score r' = Some s /\
    (s == spec_reliability_score (avg_delay_min (stats r)) (on_time_rate (stats r)))%Q /\
    (forall a t : Q,
       avg_delay_min (stats r) = Some a -> (a == 15)%Q ->
       on_time_rate (stats r) = Some t -> (t == 1)%Q -> (s == 60)%Q).

Definition example_kpi_row (r : string) (avg rate : float) (n : Z) : KpiRow :=
  {| key := [Str r];
     stats := {| avg_delay_min := avg; p90_delay_min := avg;
                 on_time_rate := rate; n_events := n |};
     reliability_score := NaN |}.

(** Route D is scenario D; route B has no observed delay; routes A and C
    have the same average delay. *)
Definition example_kpis : KpiFrame :=
  {| k_index := [];
     k_columns := "route_id" :: kpi_names;
     k_rows := [example_kpi_row "A" (Some 5%Q) (Some 0.5%Q) 4;
                example_kpi_row "B" NaN NaN 0;
                example_kpi_row "D" (Some 15%Q) (Some 1%Q) 3;
                example_kpi_row "C" (Some 5%Q) (Some 0.25%Q) 8] |}.

Definition example_kpi_heap : heap := <[1%positive := Kpis example_kpis]> ∅.

(** The output row of the group of key [k]: the statistics of the group's
    sub-frame and their score. *)
Definition group_row (keys : list string) (f : EventFrame) (thr : Q)
    (k : list scalar) (r : KpiRow) : Prop :=
  key r = k /\
  _group_kpis (get_group keys f k) thr = Ok (stats r) /\
  reliability_score r =
    row_score (avg_delay_min (stats r)) (on_time_rate (stats r)).

(** The KPI table of [f] grouped by [keys]: one row per key. *)
Definition kpi_table_of (keys : list string) (f : EventFrame) (thr : Q)
    (o : KpiFrame) : Prop :=
  k_index o = [] /\
  k_columns o = (keys ++ kpi_names ++ ["reliability_score"])%list /\
  Forall2 (group_row keys f thr) (group_keys keys (e_rows f)) (k_rows o).

(** The event table with its time-of-day column set. *)
Definition bucketed (f : EventFrame) (labels : list string) : EventFrame :=
  {| e_columns := if has_column "time_of_day" (e_columns f)
                  then e_columns f
                  else e_columns f ++ ["time_of_day"];
     e_rows := assign_labels (e_rows f) labels |}.

(** An event table the engine accepts: the three columns it reads are
    there, and no hour is infinite. *)
Definition valid_events (f : EventFrame) : Prop :=
  has_column "route_id" (e_columns f) = true /\
  has_column "delay_minutes" (e_columns f) = true /\
  has_column "hour" (e_columns f) = true /\
  Forall (fun r => forall negative, hour r <> PInf negative) (e_rows f).

Definition undefined_stats : GroupKpis :=
  {| avg_delay_min := NaN; p90_delay_min := NaN; on_time_rate := NaN; n_events := 0 |}.

(** A row whose score is defined, lies in [0, 100], and is 0 when the
    group has no observed delay. *)
Definition score_in_range (r : KpiRow) : Prop :=
  exists s : Q,
    reliability_score r = Some s /\ (0 <= s)%Q /\ (s <= 100)%Q /\
    (n_events (stats r) = 0%Z -> (s == 0)%Q).

(** The row of a group without any non-null delay: undefined statistics,
    no event counted. *)
Definition undefined_when_unobserved (keys : list string) (f : EventFrame)
    (k : list scalar) (r : KpiRow) : Prop :=
  key r = k /\
  (dropna (map delay_minutes (e_rows (get_group keys f k))) = [] ->
   stats r = undefined_stats).

(** [m] run in [h] returns a KPI table with at least one row, all of them
    scored in range. *)
Definition returns_scored_table (m : M loc) (h : heap) : Prop :=
  exists (l' : loc) (h' : heap) (o : KpiFrame),
    m h = (Ok l', h') /\ h' !! l' = Some (Kpis o) /\
    k_rows o <> [] /\ Forall score_in_range (k_rows o).

(** [m] run in [h] returns the KPI table of [f] grouped by [keys], in
    which the groups without any non-null delay have undefined statistics. *)
Definition returns_undefined_rows (m : M loc) (h : heap) (keys : list string)
    (f : EventFrame) : Prop :=
  exists (l' : loc) (h' : heap) (o : KpiFrame),
    m h = (Ok l', h') /\ h' !! l' = Some (Kpis o) /\
    Forall2 (undefined_when_unobserved keys f) (group_keys keys (e_rows f)) (k_rows o).

(** No event of [f] with the key [k] has a delay. *)
Definition unobserved (keys : list string) (f : EventFrame) (k : list scalar) : Prop :=
  forall e : Event,
    In e (e_rows f) -> key_eqb (key_of keys e) k = true -> delay_minutes e = NaN.

(** The output row of the group of key [k]: its score is defined and in
    range, and when no event of the group has a delay the row counts no
    event and its score is 0. *)
Definition scored_group (keys : list string) (f : EventFrame)
    (k : list scalar) (r : KpiRow) : Prop :=
  key r = k /\ score_in_range r /\
  (unobserved keys f k ->
   n_events (stats r) = 0%Z /\
   exists s : Q, reliability_score r = Some s /\ (s == 0)%Q).

(** [m] run in [h] returns a KPI table with at least one row: one row per
    group of [f] by [keys], each scored as [scored_group] says. *)
Definition returns_scored_groups (m : M loc) (h : heap) (keys : list string)
    (f : EventFrame) : Prop :=
  exists (l' : loc) (h' : heap) (o : KpiFrame),
    m h = (Ok l', h') /\ h' !! l' = Some (Kpis o) /\
    k_rows o <> [] /\
    Forall2 (scored_group keys f) (group_keys keys (e_rows f)) (k_rows o).

(** Scenario B of the specification: one event of route 2, without delay. *)
Definition scenario_B_heap : heap :=
  <[1%positive := Events {| e_columns := example_columns;
                            e_rows := [example_event "2" 8 NaN] |}]> ∅.

(** [m] run in [h] ends in an exception that satisfies [P]; no reference
    to a table is returned. *)
Definition fails_with (m : M loc) (h : heap) (P : exn -> Prop) : Prop :=
  exists (e : exn) (h' : heap), m h = (Raise e, h') /\ P e.

Definition is_KeyError (e : exn) : Prop := exists msg, e = KeyError msg.

Definition is_ValueError (e : exn) : Prop := exists msg, e = ValueError msg.

(** An event table without the delay column, and one without the hour
    column. *)
Definition events_without_delay : EventFrame :=
  {| e_columns := ["timestamp"; "route_id"; "hour"];
     e_rows := [example_event "1" 8 (Some 0.5%Q)] |}.

Definition events_without_hour : EventFrame :=
  {| e_columns := ["timestamp"; "route_id"; "delay_minutes"];
     e_rows := [example_event "1" 8 (Some 0.5%Q)] |}.

(** An event table without any row that has the route and hour columns
    and lacks the delay column. *)
Definition rowless_without_delay : EventFrame :=
  {| e_columns := ["timestamp"; "route_id"; "hour"]; e_rows := [] |}.

Definition heap_rowless_without_delay : heap :=
  <[1%positive := Events rowless_without_delay]> ∅.

Definition heap_without_delay : heap := <[1%positive := Events events_without_delay]> ∅.

Definition heap_without_hour : heap := <[1%positive := Events events_without_hour]> ∅.

(** [m] keeps the objects of [h0]: run in any heap that extends [h0] it
    leaves every object of [h0] as it is, whatever the outcome, and a
    value it returns satisfies [Q]. *)
Definition keeps {A} (h0 : heap) (m : M A) (Q : A -> Prop) : Prop :=
  forall h : heap,
    h0 ⊆ h -> h0 ⊆ snd (m h) /\ forall a, fst (m h) = Ok a -> Q a.

(** A reference that [h0] does not have. *)
Definition new_in (h0 : heap) (l : loc) : Prop := h0 !! l = None.

(** Running [m] in [h] changes no object of [h], the caller's table [f] at
    [df] included, and a reference it returns is new: it is not a
    reference of [h], so it is not [df]. *)
Definition leaves_input_unchanged (m : M loc) (h : heap) (df : loc)
    (f : EventFrame) : Prop :=
  snd (m h) !! df = Some (Events f) /\
  (forall l o, h !! l = Some o -> snd (m h) !! l = Some o) /\
  (forall l', fst (m h) = Ok l' -> h !! l' = None /\ l' <> df).

(** Order on floats that are both defined. *)
Definition float_le (x y : float) : Prop :=
  match x, y with
  | Some a, Some b => (a <= b)%Q
  | _, _ => False
  end.

Definition avg_of (r : KpiRow) : float := avg_delay_min (stats r).

(** The rows from the worst average delay down, the rows without an
    average after them in their input order.  Nothing is said on the
    order of rows with equal averages. *)
Definition worst_first (rows sorted : list KpiRow) : Prop :=
  Permutation sorted rows /\
  exists defined : list KpiRow,
    sorted = (defined ++ List.filter (fun r => negb (notna (avg_of r))) rows)%list /\
    Forall (fun r => notna (avg_of r) = true) defined /\
    Sorted (fun x y => float_le y x) (map avg_of defined).

(** What [summarize_worst_routes] returns with the kernel [argsort]: a new
    table with the rows [rows]. *)
Definition worst_routes_result (argsort : list Q -> list nat)
    (h : heap) (l : loc) (top_n : Z) (rows : list KpiRow) : Prop :=
  exists (l' : loc) (h' : heap) (o : KpiFrame),
    summarize_worst_routes argsort l top_n h = (Ok l', h') /\
    h !! l' = None /\ h' !! l' = Some (Kpis o) /\ k_rows o = rows.

(** The order the specification words: by average delay, largest first,
    rows with equal averages in their input order (and the rows without
    an average, which it does not mention, last). *)
Definition avg_geb (r1 r2 : KpiRow) : bool :=
  match avg_of r1, avg_of r2 with
  | Some a, Some b => Qle_bool b a
  | Some _, None => true
  | None, Some _ => false
  | None, None => true
  end.

Definition ordered_worst_first (rows : list KpiRow) : list KpiRow :=
  isort avg_geb rows.

(** "The topN rows" of that order. *)
Definition claimed_top_rows (top_n : Z) (rows : list KpiRow) : list KpiRow :=
  firstn (Z.to_nat top_n) (ordered_worst_first rows).

(** * [src/gtfs_to_delays.py]: the pure helpers *)

(** [str.split (sep)] for a one-character separator. *)
Fixpoint split (sep : Ascii.ascii) (s : string) : list string :=
  match s with
  | EmptyString => [EmptyString]
  | String c s' =>
    if Ascii.eqb c sep then EmptyString :: split sep s'
    else match split sep s' with
         | [] => [String c EmptyString]
         | p :: ps => String c p :: ps
         end
  end.

(** [sep.join (parts)]. *)
Fixpoint join (sep : Ascii.ascii) (parts : list string) : string :=
  match parts with
  | [] => EmptyString
  | [p] => p
  | p :: ps => p ++ String sep (join sep ps)
  end.

Fixpoint has_char (c : Ascii.ascii) (s : string) : bool :=
  match s with
  | EmptyString => false
  | String d s' => Ascii.eqb d c || has_char c s'
  end.

(** What [_safe_time_to_timedelta] returns: [pd.NaT], or a Timedelta,
    which pandas holds as a signed 64-bit count of nanoseconds. *)
Inductive timedelta :=
| NaT
| Timedelta (value : Z).

(** The nanoseconds of [hours], [minutes] and [seconds]. *)
Definition Timedelta_value (hours minutes seconds : Z) : Z :=
  ((hours * 3600 + minutes * 60 + seconds) * 1000000000)%Z.

Section SafeTime.
(** Python's [int] on a [str]: [None] when it raises [ValueError]. *)
Variable int_of_str : string -> option Z.

(** [pd.Timedelta (hours = h, minutes = m, seconds = s)], the constructor
    of pandas.  It raises when the duration does not fit the 64-bit count;
    what is known of it is [Timedelta_spec] below. *)
Variable pd_Timedelta : Z -> Z -> Z -> res timedelta.

(** The three [int] calls are inside the [try], whose [except ValueError]
    returns [pd.NaT]; the constructor is called after it, so what it
    raises reaches the caller. *)
Definition _safe_time_to_timedelta (time_str : scalar) : res timedelta :=
  match time_str with
  | Flt _ => Ok NaT
  | Str text =>
    match split ":"%char text with
    | [h; m; s] =>
      match int_of_str h, int_of_str m, int_of_str s with
      | Some h_i, Some m_i, Some s_i => pd_Timedelta (h_i mod 24) m_i s_i
      | _, _, _ => Ok NaT
      end
    | _ => Ok NaT
    end
  end.
End SafeTime.

(** What the constructor guarantees.  On arguments that are not negative
    and whose nanoseconds are below 2^63 it returns the Timedelta of these
    nanoseconds; when the nanoseconds are 2^63 or more, or -2^63 or less,
    it raises (OutOfBoundsTimedelta, or OverflowError on larger values). *)
Definition Timedelta_spec (pd_Timedelta : Z -> Z -> Z -> res timedelta) : Prop :=
  forall hours minutes seconds : Z,
    let value := Timedelta_value hours minutes seconds in
    ((0 <= hours)%Z -> (0 <= minutes)%Z -> (0 <= seconds)%Z ->
     (value < 9223372036854775808)%Z ->
     pd_Timedelta hours minutes seconds = Ok (Timedelta value)) /\
    ((9223372036854775808 <= value)%Z \/ (value <= - 9223372036854775808)%Z ->
     exists e : exn, pd_Timedelta hours minutes seconds = Raise e).

(** A constructor that meets it.  OutOfBoundsTimedelta is a subclass of
    ValueError. *)
Definition checked_Timedelta (hours minutes seconds : Z) : res timedelta :=
  let value := Timedelta_value hours minutes seconds in
  if ((- 9223372036854775808 <? value) && (value <? 9223372036854775808))%Z
  then Ok (Timedelta value)
  else Raise (ValueError "OutOfBoundsTimedelta").

(** [int] on strings of ASCII decimal digits, where Python's is plain. *)
Definition digit_of (c : Ascii.ascii) : option Z :=
  let n := Z.of_nat (Ascii.nat_of_ascii c) in
  if ((48 <=? n) && (n <=? 57))%Z then Some (n - 48)%Z else None.

Fixpoint digits_value (acc : Z) (s : string) : option Z :=
  match s with
  | EmptyString => Some acc
  | String c s' =>
    match digit_of c with
    | Some d => digits_value (10 * acc + d) s'
    | None => None
    end
  end.

Definition decimal_int (s : string) : option Z :=
  match s with
  | EmptyString => None
  | _ => digits_value 0 s
  end.

(** The dict of [_route_type_to_mode]. *)
Definition mapping : gmap Z string :=
  list_to_map [(0, "tram"); (1, "metro"); (2, "rail"); (3, "bus");
               (4, "ferry"); (5, "cable_car"); (6, "gondola");
               (7, "funicular")]%Z.

Definition _route_type_to_mode (route_type : Z) : string :=
  match mapping !! route_type with
  | Some mode => mode
  | None => "bus"
  end.

(** * [src/data_ingestion.py]: cleaning *)

(** One raw event.  Datetimes are nanoseconds since the epoch, [None] for
    NaT; trip_id, stop_id and mode are carried by name only. *)
Record RawEvent := {
  timestamp : option Z;
  raw_route_id : scalar;
  scheduled_departure : option Z;
  actual_departure : option Z
}.

Record RawFrame := {
  r_columns : list string;
  r_rows : list RawEvent
}.

(** [(actual - scheduled).total_seconds () / 60.0]. *)
Definition delay_of (r : RawEvent) : float :=
  match actual_departure r, scheduled_departure r with
  | Some a, Some s => Some (inject_Z (a - s) / 1000000000 / 60)%Q
  | _, _ => None
  end.

Definition _compute_delay_minutes (df : RawFrame) : res Series :=
  if negb (has_column "actual_departure" (r_columns df))
     || negb (has_column "scheduled_departure" (r_columns df)) then
    Raise (KeyError "Both 'actual_departure' and 'scheduled_departure' must be present")
  else Ok (map delay_of (r_rows df)).

(** [timestamp.dt.hour]; NaN for NaT. *)
Definition hour_of (t : option Z) : pyfloat :=
  match t with
  | Some ns => PFin (inject_Z ((ns / 3600000000000) mod 24))
  | None => PNaN
  end.

Definition required : list string :=
  ["timestamp"; "route_id"; "trip_id"; "scheduled_departure"; "actual_departure"].

(** [repr] of a list of plain names. *)
Fixpoint repr_items (names : list string) : string :=
  match names with
  | [] => ""
  | [n] => "'" ++ n ++ "'"
  | n :: names' => "'" ++ n ++ "', " ++ repr_items names'
  end.

Definition repr_names (names : list string) : string :=
  "[" ++ repr_items names ++ "]".

(** [df.dropna (subset = ["scheduled_departure", "actual_departure"])]. *)
Definition dropna_departures (rows : list RawEvent) : list RawEvent :=
  List.filter (fun r => match scheduled_departure r, actual_departure r with
                        | Some _, Some _ => true
                        | _, _ => false
                        end) rows.

(** [df [name] = ...] on the column list. *)
Definition with_column (name : string) (cols : list string) : list string :=
  if has_column name cols then cols else (cols ++ [name])%list.

Fixpoint cleaned_rows (rows : list RawEvent) (delay : Series) : list Event :=
  match rows, delay with
  | r :: rows', d :: delay' =>
    {| route_id := raw_route_id r; hour := hour_of (timestamp r);
       delay_minutes := d; time_of_day := "" |} :: cleaned_rows rows' delay'
  | _, _ => []
  end.

Definition clean_delays (df : RawFrame) : res EventFrame :=
  let missing := List.filter (fun c => negb (has_column c (r_columns df))) required in
  match missing with
  | _ :: _ =>
    Raise (KeyError ("Missing required columns in raw delays: "
                     ++ repr_names (isort String.leb missing)))
  | [] =>
    let df := {| r_columns := r_columns df;
                 r_rows := dropna_departures (r_rows df) |} in
    res_bind (_compute_delay_minutes df) (fun delay =>
      Ok {| e_columns := with_column "hour"
                           (with_column "date"
                              (with_column "delay_minutes" (r_columns df)));
            e_rows := cleaned_rows (r_rows df) delay |})
  end.

(** * Vocabulary of the further properties *)

Fixpoint count_char (c : Ascii.ascii) (s : string) : nat :=
  match s with
  | EmptyString => 0
  | String d s' => (if Ascii.eqb d c then 1 else 0) + count_char c s'
  end.

(** A raw table with one complete event, an early departure, and one
    event without its actual departure. *)
Definition example_raw : RawFrame :=
  {| r_columns := ["timestamp"; "route_id"; "trip_id"; "stop_id";
                   "scheduled_departure"; "actual_departure"; "mode"];
     r_rows := [{| timestamp := Some 28800000000000%Z; raw_route_id := Str "1";
                   scheduled_departure := Some 28800000000000%Z;
                   actual_departure := Some 28890000000000%Z |};
                {| timestamp := Some 30000000000000%Z; raw_route_id := Str "1";
                   scheduled_departure := Some 30000000000000%Z;
                   actual_departure := Some 29940000000000%Z |};
                {| timestamp := None; raw_route_id := Str "2";
                   scheduled_departure := Some 30000000000000%Z;
                   actual_departure := None |}] |}.

(** The table [clean_delays] makes of the raw example, and a heap that
    holds it. *)
Definition example_cleaned : EventFrame :=
  match clean_delays example_raw with
  | Ok f => f
  | Raise _ => {| e_columns := []; e_rows := [] |}
  end.

Definition heap_of_cleaned : heap := <[1%positive := Events example_cleaned]> ∅.

(** The events counted in a KPI table. *)
Definition total_events (rows : list KpiRow) : Z :=
  fold_right Z.add 0%Z (map (fun r => n_events (stats r)) rows).

(** A KPI row all of whose statistics are defined. *)
Definition fully_defined (r : KpiRow) : Prop :=
  (1 <= n_events (stats r))%Z /\
  notna (avg_delay_min (stats r)) = true /\
  notna (p90_delay_min (stats r)) = true /\
  notna (on_time_rate (stats r)) = true /\
  score_in_range r.

(** [m] run in [h] returns a KPI table with at least one row, all of them
    fully defined. *)
Definition returns_defined_table (m : M loc) (h : heap) : Prop :=
  exists (l' : loc) (h' : heap) (o : KpiFrame),
    m h = (Ok l', h') /\ h' !! l' = Some (Kpis o) /\
    k_rows o <> [] /\ Forall fully_defined (k_rows o).

(** [m] run in [h] returns a KPI table that counts [n] events. *)
Definition returns_counting (m : M loc) (h : heap) (n : nat) : Prop :=
  exists (l' : loc) (h' : heap) (o : KpiFrame),
    m h = (Ok l', h') /\ h' !! l' = Some (Kpis o) /\
    total_events (k_rows o) = Z.of_nat n.

(** [m] run in [h] returns a KPI table in which every key occurs once and
    every event of [f] finds the row of its key. *)
Definition returns_one_row_per_key (m : M loc) (h : heap) (keys : list string)
    (f : EventFrame) : Prop :=
  exists (l' : loc) (h' : heap) (o : KpiFrame),
    m h = (Ok l', h') /\ h' !! l' = Some (Kpis o) /\
    (forall r, In r (k_rows o) ->
       length (List.filter (fun r' => key_eqb (key r') (key r)) (k_rows o)) = 1%nat) /\
    (forall e, In e (e_rows f) ->
       exists r, In r (k_rows o) /\ key_eqb (key_of keys e) (key r) = true).

(** How a cleaned event comes from a raw one: the route and the hour of
    the timestamp are carried over, and the delay is the difference of
    the two departures in minutes, negative for an early departure. *)
Definition cleaned_from (r : RawEvent) (e : Event) : Prop :=
  route_id e = raw_route_id r /\
  hour e = hour_of (timestamp r) /\
  exists (a s : Z) (d : Q),
    scheduled_departure r = Some s /\ actual_departure r = Some a /\
    delay_minutes e = Some d /\
    (d * 60 * 1000000000 == inject_Z (a - s))%Q /\
    ((d < 0)%Q <-> (a < s)%Z) /\ ((0 < d)%Q <-> (s < a)%Z).

(** The hour of a cleaned event: null, or an integer of 0..23. *)
Definition clock_hour (x : pyfloat) : Prop :=
  x = PNaN \/ exists z : Z, (0 <= z <= 23)%Z /\ x = PFin (inject_Z z).

(** How the scores of two rows compare, given their averages [a1], [a2]
    and their on-time rates [t1], [t2]. *)
Definition scores_compare (a1 a2 t1 t2 : Q) (r1' r2' : KpiRow) : Prop :=
  exists s1 s2 : Q,
    reliability_score r1' = Some s1 /\ reliability_score r2' = Some s2 /\
    ((a1 <= a2)%Q -> (t2 <= t1)%Q -> (s2 <= s1)%Q) /\
    ((10 <= a1)%Q -> (10 <= a2)%Q -> (t1 == t2)%Q -> (s1 == s2)%Q) /\
    ((a1 <= 0)%Q -> (a2 <= 0)%Q -> (t1 == t2)%Q -> (s1 == s2)%Q).

Definition is_OverflowError (e : exn) : Prop := exists msg, e = OverflowError msg.

Definition infinite_hour (r : Event) : Prop := exists negative, hour r = PInf negative.

(** An event table with an infinite hour. *)
Definition events_with_infinite_hour : EventFrame :=
  {| e_columns := example_columns;
     e_rows := [example_event "1" 8 (Some 0.5%Q);
                {| route_id := Str "1"; hour := PInf false;
                   delay_minutes := Some 2%Q; time_of_day := "" |}] |}.

Definition heap_with_infinite_hour : heap :=
  <[1%positive := Events events_with_infinite_hour]> ∅.

(** A group with one observed delay. *)
Definition single_observation : EventFrame :=
  {| e_columns := example_columns;
     e_rows := [example_event "1" 8 NaN; example_event "1" 9 (Some 4%Q)] |}.

(** Running [m] in [h] changes no object of [h], the KPI table [k] at [l]
    included, and a reference it returns is new. *)
Definition leaves_kpis_unchanged (m : M loc) (h : heap) (l : loc)
    (k : KpiFrame) : Prop :=
  snd (m h) !! l = Some (Kpis k) /\
  (forall l0 o, h !! l0 = Some o -> snd (m h) !! l0 = Some o) /\
  (forall l', fst (m h) = Ok l' -> h !! l' = None /\ l' <> l).

(** A KPI table without its average-delay column. *)
Definition kpis_without_avg : KpiFrame :=
  {| k_index := [];
     k_columns := ["route_id"; "n_events"];
     k_rows := k_rows example_kpis |}.

Definition heap_without_avg : heap := <[1%positive := Kpis kpis_without_avg]> ∅.

(** The worst routes of the route KPIs of [f]: the first [top_n] rows of
    the KPI table of [f] by route, arranged worst first. *)
Definition worst_routes_of (f : EventFrame) (thr : Q) (top_n : Z)
    (worst : KpiFrame) : Prop :=
  exists (o : KpiFrame) (sorted : list KpiRow),
    kpi_table_of ["route_id"] f thr o /\
    worst_first (k_rows o) sorted /\
    k_rows worst = firstn (Z.to_nat top_n) sorted /\
    length (k_rows worst)
    = Nat.min (Z.to_nat top_n) (length (group_keys ["route_id"] (e_rows f))) /\
    Forall score_in_range (k_rows worst).

(** The event [r'] is the event [r] with its time-of-day label set to the
    bucket of its hour. *)
Definition labelled_from (r r' : Event) : Prop :=
  route_id r' = route_id r /\ hour r' = hour r /\
  delay_minutes r' = delay_minutes r /\
  _bucket (hour r) = Ok (time_of_day r').

(** An event table that already has a time-of-day column, with labels that
    are not those of the bucketer. *)
Definition events_with_labels : EventFrame :=
  {| e_columns := (example_columns ++ ["time_of_day"])%list;
     e_rows := [with_time_of_day (example_event "1" 8 (Some 0.5%Q)) "Midday";
                with_time_of_day (example_event "2" 22 NaN) "rush"] |}.

Definition heap_with_labels : heap := <[1%positive := Events events_with_labels]> ∅.

(** * Properties *)

(** ** Insertion sort *)

Section IsortFacts.
Context {A : Type} (leb : A -> A -> bool) (R : A -> A -> Prop).
Hypothesis leb_true : forall x y, leb x y = true -> R x y.
Hypothesis leb_false : forall x y, leb x y = false -> R y x.

Lemma insert_sorted_perm (x : A) (l : list A) :
  Permutation (insert_sorted leb x l) (x :: l).
Proof.
  induction l as [|y l IH]; simpl.
  - reflexivity.
  - destruct (leb x y).
    + reflexivity.
    + rewrite IH. apply perm_swap.
Qed.

Lemma isort_perm (l : list A) : Permutation (isort leb l) l.
Proof.
  induction l as [|x l IH]; simpl.
  - reflexivity.
  - rewrite insert_sorted_perm. now constructor.
Qed.

Lemma insert_sorted_HdRel (a x : A) (l : list A) :
  R a x -> HdRel R a l -> HdRel R a (insert_sorted leb x l).
Proof.
  intros Hax Hal. destruct l as [|y l]; simpl.
  - now constructor.
  - destruct (leb x y); constructor; auto.
    now inversion Hal.
Qed.

Lemma insert_sorted_Sorted (x : A) (l : list A) :
  Sorted R l -> Sorted R (insert_sorted leb x l).
Proof.
  induction 1 as [|y l Hs IH Hhd]; simpl.
  - repeat constructor.
  - destruct (leb x y) eqn:E.
    + constructor; [now constructor|]. constructor. now apply leb_true.
    + constructor; [exact IH|].
      apply insert_sorted_HdRel; [now apply leb_false | exact Hhd].
Qed.

Lemma isort_Sorted (l : list A) : Sorted R (isort leb l).
Proof.
  induction l as [|x l IH]; simpl.
  - constructor.
  - now apply insert_sorted_Sorted.
Qed.
End IsortFacts.

Lemma Qle_bool_false (x y : Q) : Qle_bool x y = false -> (y <= x)%Q.
Proof.
  intros E. destruct (Qlt_le_dec y x) as [H|H].
  - now apply Qlt_le_weak.
  - apply Qle_bool_iff in H. congruence.
Qed.

Lemma isort_Qle_perm (l : list Q) : Permutation (isort Qle_bool l) l.
Proof. apply isort_perm. Qed.

Lemma isort_Qle_Sorted (l : list Q) : Sorted Qle (isort Qle_bool l).
Proof.
  apply isort_Sorted.
  - intros x y. apply Qle_bool_imp_le.
  - apply Qle_bool_false.
Qed.

(** ** The time-of-day bucketer *)

Lemma _bucket_finite (q : Q) : _bucket (PFin q) = Ok (bucket_of_hour (Qtrunc q)).
Proof.
  unfold _bucket, bucket_of_hour, Qtrunc. simpl.
  destruct ((7 <=? _) && _)%Z; [reflexivity|].
  destruct ((10 <=? _) && _)%Z; [reflexivity|].
  destruct ((16 <=? _) && _)%Z; reflexivity.
Qed.

Lemma Qtrunc_inject_Z (z : Z) : Qtrunc (inject_Z z) = z.
Proof. unfold Qtrunc. simpl. apply Z.quot_1_r. Qed.

Lemma bucket_of_hour_night (z : Z) :
  (z < 7 \/ 19 <= z)%Z -> bucket_of_hour z = "Night / off-peak".
Proof.
  intros H. unfold bucket_of_hour.
  destruct (Z.leb_spec 7 z), (Z.ltb_spec z 10), (Z.leb_spec 10 z),
    (Z.ltb_spec z 16), (Z.leb_spec 16 z), (Z.ltb_spec z 19); simpl;
    try reflexivity; lia.
Qed.

(** C5: on the integer hours 0..23 and on null the bucketer returns one
    label, the one of the boundary table: [7,10) is "Morning peak",
    [10,16) "Midday", [16,19) "Evening peak", 0..6 and 19..23
    "Night / off-peak", null "Unknown"; hour 8 is "Morning peak" and hour
    22 is "Night / off-peak". *)
Theorem bucket_total_on_hours (z : Z) :
  (0 <= z <= 23)%Z ->
  (exists label, _bucket (PFin (inject_Z z)) = Ok label /\
     ((7 <= z < 10)%Z -> label = "Morning peak") /\
     ((10 <= z < 16)%Z -> label = "Midday") /\
     ((16 <= z < 19)%Z -> label = "Evening peak") /\
     ((0 <= z <= 6 \/ 19 <= z <= 23)%Z -> label = "Night / off-peak")) /\
  _bucket PNaN = Ok "Unknown" /\
  _bucket (PFin 8) = Ok "Morning peak" /\
  _bucket (PFin 22) = Ok "Night / off-peak".
Proof.
  intros Hz. split; [|repeat split].
  exists (bucket_of_hour z). rewrite _bucket_finite, Qtrunc_inject_Z.
  split; [reflexivity|]. unfold bucket_of_hour.
  destruct (Z.leb_spec 7 z), (Z.ltb_spec z 10), (Z.leb_spec 10 z),
    (Z.ltb_spec z 16), (Z.leb_spec 16 z), (Z.ltb_spec z 19); simpl;
    repeat split; intros; try reflexivity; lia.
Qed.

Lemma bucket_total_on_hours_witness :
  (exists label, _bucket (PFin (inject_Z 17)) = Ok label /\
     ((7 <= 17 < 10)%Z -> label = "Morning peak") /\
     ((10 <= 17 < 16)%Z -> label = "Midday") /\
     ((16 <= 17 < 19)%Z -> label = "Evening peak") /\
     ((0 <= 17 <= 6 \/ 19 <= 17 <= 23)%Z -> label = "Night / off-peak")) /\
  _bucket PNaN = Ok "Unknown" /\
  _bucket (PFin 8) = Ok "Morning peak" /\
  _bucket (PFin 22) = Ok "Night / off-peak".
Proof. apply (bucket_total_on_hours 17). lia. Defined.

(** C10, as stated, fails: an infinite hour is numeric, is not null, and
    [int] raises on it. *)
Lemma bucket_raises_on_infinity :
  _bucket (PInf false)
  = Raise (OverflowError "cannot convert float infinity to integer") /\
  ~ (exists label, _bucket (PInf false) = Ok label).
Proof.
  split; [reflexivity|]. intros [label Hl]. discriminate Hl.
Qed.

(** C10, amended: on every finite hour the bucketer returns the label of
    the hour truncated toward zero, "Night / off-peak" whenever that
    integer is outside [7,19); so 9.7 is bucketed as 9, and -1, -0.5, 24
    and 1000 are "Night / off-peak".  On the infinities it raises
    OverflowError. *)
Theorem bucket_total_on_finite (q : Q) :
  _bucket (PFin q) = Ok (bucket_of_hour (Qtrunc q)) /\
  ((Qtrunc q < 7 \/ 19 <= Qtrunc q)%Z -> _bucket (PFin q) = Ok "Night / off-peak") /\
  Qtrunc 9.7 = 9%Z /\ _bucket (PFin 9.7) = Ok "Morning peak" /\
  Qtrunc (-0.5) = 0%Z /\ _bucket (PFin (-0.5)) = Ok "Night / off-peak" /\
  _bucket (PFin (-1)) = Ok "Night / off-peak" /\
  _bucket (PFin 24) = Ok "Night / off-peak" /\
  _bucket (PFin 1000) = Ok "Night / off-peak" /\
  (forall negative, exists msg, _bucket (PInf negative) = Raise (OverflowError msg)).
Proof.
  split; [apply _bucket_finite|].
  split; [intros H; rewrite _bucket_finite; now rewrite bucket_of_hour_night|].
  repeat split; try reflexivity.
  intros negative. eexists. reflexivity.
Qed.

Lemma bucket_total_on_finite_witness :
  _bucket (PFin 25.5) = Ok "Night / off-peak".
Proof.
  apply (proj1 (proj2 (bucket_total_on_finite 25.5))).
  right. vm_compute. discriminate.
Defined.

(** ** Statistics of one group *)

Lemma fold_Qmin_le (a : Q) (l : list Q) (x : Q) :
  In x (a :: l) -> (fold_right Qmin a l <= x)%Q.
Proof.
  induction l as [|y l IH]; simpl; intros H.
  - destruct H as [->|[]]. apply Qle_refl.
  - destruct H as [->|[->|H]].
    + eapply Qle_trans; [apply Q.le_min_r|]. apply IH. now left.
    + apply Q.le_min_l.
    + eapply Qle_trans; [apply Q.le_min_r|]. apply IH. now right.
Qed.

Lemma fold_Qmax_ge (a : Q) (l : list Q) (x : Q) :
  In x (a :: l) -> (x <= fold_right Qmax a l)%Q.
Proof.
  induction l as [|y l IH]; simpl; intros H.
  - destruct H as [->|[]]. apply Qle_refl.
  - destruct H as [->|[->|H]].
    + eapply Qle_trans; [|apply Q.le_max_r]. apply IH. now left.
    + apply Q.le_max_l.
    + eapply Qle_trans; [|apply Q.le_max_r]. apply IH. now right.
Qed.

Lemma minimum_le (l : list Q) (x : Q) : In x l -> (minimum l <= x)%Q.
Proof. destruct l; [intros []|]. apply fold_Qmin_le. Qed.

Lemma maximum_ge (l : list Q) (x : Q) : In x l -> (x <= maximum l)%Q.
Proof. destruct l; [intros []|]. apply fold_Qmax_ge. Qed.

(** The linear interpolation of [quantile], spelled out. *)
Lemma quantile_interpolates (q : Q) (l : list Q) :
  l <> [] -> (0 <= q <= 1)%Q ->
  exists (s : list Q) (i : nat) (fraction p : Q),
    quantile q l = Some p /\
    Permutation s l /\ Sorted Qle s /\
    (i <= length l - 1)%nat /\
    (0 <= fraction)%Q /\ (fraction < 1)%Q /\
    (inject_Z (Z.of_nat i) + fraction == q * inject_Z (Z.of_nat (length l - 1)))%Q /\
    (p == nth i s 0 + (nth (Nat.min (i + 1) (length l - 1)) s 0 - nth i s 0) * fraction)%Q /\
    (minimum l <= p)%Q /\ (p <= maximum l)%Q.
Proof.
  intros Hne [Hq0 Hq1].
  pose proof (isort_Qle_perm l) as Hperm.
  pose proof (Permutation_length Hperm) as Hlen.
  assert (Hn : (1 <= length l)%nat) by (destruct l; [congruence | simpl; lia]).
  set (s := isort Qle_bool l) in *.
  set (m := inject_Z (Z.of_nat (length l - 1))).
  assert (Hm : (0 <= m)%Q).
  { unfold m. rewrite <- (Zle_Qle 0). lia. }
  set (pos := (q * m)%Q).
  assert (Hpos0 : (0 <= pos)%Q) by (unfold pos; nra).
  assert (Hposm : (pos <= m)%Q) by (unfold pos; nra).
  assert (Hf0 : (0 <= Qfloor pos)%Z).
  { change 0%Z with (Qfloor (inject_Z 0)) at 1.
    rewrite Qfloor_Z. rewrite <- (Qfloor_Z 0). now apply Qfloor_resp_le. }
  assert (Hfm : (Qfloor pos <= Z.of_nat (length l - 1))%Z).
  { rewrite <- (Qfloor_Z (Z.of_nat (length l - 1))). now apply Qfloor_resp_le. }
  set (i := Z.to_nat (Qfloor pos)).
  assert (Hi : Z.of_nat i = Qfloor pos) by (unfold i; lia).
  set (fraction := (pos - inject_Z (Qfloor pos))%Q).
  assert (Hfr0 : (0 <= fraction)%Q).
  { unfold fraction. pose proof (Qfloor_le pos). lra. }
  assert (Hfr1 : (fraction < 1)%Q).
  { unfold fraction. pose proof (Qlt_floor pos) as H.
    rewrite inject_Z_plus in H. change (inject_Z 1) with 1%Q in H. lra. }
  set (lo := nth i s 0%Q).
  set (hi := nth (Nat.min (i + 1) (length l - 1)) s 0%Q).
  assert (Hlo : In lo l).
  { apply (Permutation_in _ Hperm). apply nth_In. lia. }
  assert (Hhi : In hi l).
  { apply (Permutation_in _ Hperm). apply nth_In. lia. }
  exists s, i, fraction, (lo + (hi - lo) * fraction)%Q.
  split.
  { unfold quantile. destruct l as [|x l']; [congruence|].
    fold s. rewrite Hlen. fold m. fold pos. fold i. reflexivity. }
  split; [exact Hperm|]. split; [apply isort_Qle_Sorted|].
  split; [lia|]. split; [exact Hfr0|]. split; [exact Hfr1|].
  split; [rewrite Hi; unfold fraction, pos; ring|].
  split; [reflexivity|].
  pose proof (minimum_le l lo Hlo). pose proof (minimum_le l hi Hhi).
  pose proof (maximum_ge l lo Hlo). pose proof (maximum_ge l hi Hhi).
  split; nra.
Qed.

Lemma _group_kpis_nonempty (group : EventFrame) (thr : Q) :
  has_column "delay_minutes" (e_columns group) = true ->
  dropna (map delay_minutes (e_rows group)) <> [] ->
  let delay := dropna (map delay_minutes (e_rows group)) in
  _group_kpis group thr =
    Ok {| avg_delay_min := mean delay; p90_delay_min := quantile 0.9 delay;
          on_time_rate := mean_le thr delay;
          n_events := Z.of_nat (length delay) |}.
Proof.
  intros Hc Hne delay. unfold _group_kpis. rewrite Hc. simpl.
  subst delay. destruct (dropna _); [congruence | reflexivity].
Qed.

Lemma _group_kpis_empty (group : EventFrame) (thr : Q) :
  has_column "delay_minutes" (e_columns group) = true ->
  dropna (map delay_minutes (e_rows group)) = [] ->
  _group_kpis group thr =
    Ok {| avg_delay_min := NaN; p90_delay_min := NaN;
          on_time_rate := NaN; n_events := 0 |}.
Proof.
  intros Hc He. unfold _group_kpis. rewrite Hc, He. reflexivity.
Qed.

(** C6: for a group with at least one non-null delay, p90_delay_min is the
    linear interpolation between two neighbouring order statistics of the
    delays at the virtual index 0.9 * (n - 1), it lies between the minimum
    and the maximum delay, and on 1, 2, ..., 10 it is 9.1. *)
Theorem p90_linear_interpolation (group : EventFrame) (thr : Q) :
  has_column "delay_minutes" (e_columns group) = true ->
  dropna (map delay_minutes (e_rows group)) <> [] ->
  let delay := dropna (map delay_minutes (e_rows group)) in
  (exists (st : GroupKpis) (s : list Q) (i : nat) (fraction p : Q),
     _group_kpis group thr = Ok st /\ p90_delay_min st = Some p /\
     Permutation s delay /\ Sorted Qle s /\
     (i <= length delay - 1)%nat /\
     (0 <= fraction)%Q /\ (fraction < 1)%Q /\
     (inject_Z (Z.of_nat i) + fraction
        == 0.9 * inject_Z (Z.of_nat (length delay - 1)))%Q /\
     (p == nth i s 0
           + (nth (Nat.min (i + 1) (length delay - 1)) s 0 - nth i s 0)
             * fraction)%Q /\
     (minimum delay <= p)%Q /\ (p <= maximum delay)%Q) /\
  (exists p, quantile 0.9 [1; 2; 3; 4; 5; 6; 7; 8; 9; 10]%Q = Some p /\
             (p == 9.1)%Q).
Proof.
  intros Hc Hne delay. split.
  - destruct (quantile_interpolates 0.9 delay Hne) as (s & i & fr & p & Hq & H).
    { split; discriminate. }
    eexists; exists s, i, fr, p.
    split; [apply (_group_kpis_nonempty group thr Hc Hne)|].
    split; [exact Hq | exact H].
  - eexists. split; [vm_compute; reflexivity | reflexivity].
Qed.

Lemma p90_linear_interpolation_witness :
  exists (st : GroupKpis) (p : Q),
    _group_kpis example_events 1 = Ok st /\ p90_delay_min st = Some p /\
    (minimum [0.5; 2] <= p)%Q /\ (p <= maximum [0.5; 2])%Q.
Proof.
  destruct (p90_linear_interpolation example_events 1) as [H _].
  - reflexivity.
  - discriminate.
  - destruct H as (st & s & i & fr & p & H1 & H2 & _ & _ & _ & _ & _ & _ & _ & H3 & H4).
    exists st, p. repeat split; assumption.
Defined.

Lemma count_le_at_most (t : Q) (l : list Q) : count_le t l = count_at_most t l.
Proof.
  unfold count_le. induction l as [|d l IH]; simpl; [reflexivity|].
  destruct (Qlt_le_dec t d) as [H|H].
  - destruct (Qle_bool d t) eqn:E.
    + apply Qle_bool_iff in E. lra.
    + exact IH.
  - apply Qle_bool_iff in H. rewrite H. simpl. now rewrite IH.
Qed.

Lemma count_at_most_mono (t1 t2 : Q) (l : list Q) :
  (t1 <= t2)%Q -> (count_at_most t1 l <= count_at_most t2 l)%nat.
Proof.
  intros Ht. induction l as [|d l IH]; simpl; [lia|].
  destruct (Qlt_le_dec t1 d), (Qlt_le_dec t2 d); try lia. lra.
Qed.

Lemma count_at_most_le_length (t : Q) (l : list Q) :
  (count_at_most t l <= length l)%nat.
Proof.
  induction l as [|d l IH]; simpl; [lia|]. destruct (Qlt_le_dec t d); lia.
Qed.

Lemma mean_le_fraction (t : Q) (l : list Q) :
  l <> [] -> mean_le t l = Some (fraction_at_most t l).
Proof.
  intros Hne. unfold mean_le, fraction_at_most, Qlen.
  destruct l; [congruence|]. now rewrite count_le_at_most.
Qed.

Lemma Qlen_pos (l : list Q) : l <> [] -> (0 < inject_Z (Z.of_nat (length l)))%Q.
Proof.
  intros Hne. rewrite <- (Zlt_Qlt 0). destruct l; [congruence | simpl; lia].
Qed.

Lemma Qdiv_le_mono (a b n : Q) : (0 < n)%Q -> (a <= b)%Q -> (a / n <= b / n)%Q.
Proof.
  intros Hn Hab. unfold Qdiv. apply Qmult_le_compat_r; [exact Hab|].
  apply Qinv_le_0_compat. now apply Qlt_le_weak.
Qed.

Lemma fraction_at_most_mono (t1 t2 : Q) (l : list Q) :
  l <> [] -> (t1 <= t2)%Q -> (fraction_at_most t1 l <= fraction_at_most t2 l)%Q.
Proof.
  intros Hne Ht. unfold fraction_at_most.
  apply Qdiv_le_mono; [now apply Qlen_pos|].
  rewrite <- Zle_Qle. apply Nat2Z.inj_le. now apply count_at_most_mono.
Qed.

Lemma fraction_at_most_range (t : Q) (l : list Q) :
  l <> [] -> (0 <= fraction_at_most t l <= 1)%Q.
Proof.
  intros Hne. unfold fraction_at_most.
  pose proof (Qlen_pos l Hne) as Hn.
  pose proof (count_at_most_le_length t l) as Hc.
  assert (H0 : (0 <= inject_Z (Z.of_nat (count_at_most t l)))%Q).
  { rewrite <- (Zle_Qle 0). lia. }
  assert (H1 : (inject_Z (Z.of_nat (count_at_most t l))
                <= inject_Z (Z.of_nat (length l)))%Q).
  { rewrite <- Zle_Qle. lia. }
  split.
  - apply Qle_shift_div_l; [exact Hn|]. lra.
  - apply Qle_shift_div_r; [exact Hn|]. lra.
Qed.

(** C7: for a group with at least one non-null delay, on_time_rate is the
    share of the non-null delays that are at most the threshold, a delay
    equal to the threshold counting as on time, and it does not decrease
    when the threshold grows. *)
Theorem on_time_rate_monotone (group : EventFrame) (t1 t2 : Q) :
  has_column "delay_minutes" (e_columns group) = true ->
  dropna (map delay_minutes (e_rows group)) <> [] ->
  (t1 <= t2)%Q ->
  let delay := dropna (map delay_minutes (e_rows group)) in
  exists (st1 st2 : GroupKpis),
    _group_kpis group t1 = Ok st1 /\ _group_kpis group t2 = Ok st2 /\
    on_time_rate st1 = Some (fraction_at_most t1 delay) /\
    on_time_rate st2 = Some (fraction_at_most t2 delay) /\
    (fraction_at_most t1 delay <= fraction_at_most t2 delay)%Q /\
    (fraction_at_most t1 [t1] == 1)%Q.
Proof.
  intros Hc Hne Ht delay.
  do 2 eexists.
  split; [apply (_group_kpis_nonempty group t1 Hc Hne)|].
  split; [apply (_group_kpis_nonempty group t2 Hc Hne)|].
  simpl. fold delay.
  split; [now apply mean_le_fraction|].
  split; [now apply mean_le_fraction|].
  split; [now apply fraction_at_most_mono|].
  unfold fraction_at_most. simpl.
  destruct (Qlt_le_dec t1 t1) as [H|H]; [lra | reflexivity].
Qed.

Lemma on_time_rate_monotone_witness :
  exists (st1 st2 : GroupKpis),
    _group_kpis example_events 1 = Ok st1 /\
    _group_kpis example_events 2 = Ok st2 /\
    on_time_rate st1 = Some (fraction_at_most 1 [0.5; 2]%Q) /\
    on_time_rate st2 = Some (fraction_at_most 2 [0.5; 2]%Q) /\
    (fraction_at_most 1 [0.5; 2] <= fraction_at_most 2 [0.5; 2])%Q /\
    (fraction_at_most 1 [1] == 1)%Q.
Proof.
  apply (on_time_rate_monotone example_events 1 2).
  - reflexivity.
  - discriminate.
  - discriminate.
Defined.

(** Scenario A of the specification. *)
Example scenario_A :
  exists (st : GroupKpis) (avg rate : Q),
    _group_kpis {| e_columns := example_columns;
                   e_rows := [example_event "1" 8 (Some 0.5%Q);
                              example_event "1" 9 (Some 2%Q)] |} 1 = Ok st /\
    avg_delay_min st = Some avg /\ (avg == 1.25)%Q /\
    on_time_rate st = Some rate /\ (rate == 0.5)%Q /\
    n_events st = 2%Z.
Proof. do 3 eexists. vm_compute. repeat split; reflexivity. Qed.

(** ** The heap and the monad *)

Lemma fresh_None (h : heap) : h !! fresh (dom h) = None.
Proof. apply not_elem_of_dom. apply is_fresh. Qed.

Lemma bind_ok {A B} (m : M A) (k : A -> M B) (h h' : heap) (a : A) :
  m h = (Ok a, h') -> bind m k h = k a h'.
Proof. intros H. unfold bind. now rewrite H. Qed.

Lemma bind_raise {A B} (m : M A) (k : A -> M B) (h h' : heap) (e : exn) :
  m h = (Raise e, h') -> bind m k h = (Raise e, h').
Proof. intros H. unfold bind. now rewrite H. Qed.

Lemma load_ok (h : heap) (l : loc) (o : DataFrame) :
  h !! l = Some o -> load l h = (Ok o, h).
Proof. intros H. unfold load. now rewrite H. Qed.

Lemma load_events_ok (h : heap) (l : loc) (f : EventFrame) :
  h !! l = Some (Events f) -> load_events l h = (Ok f, h).
Proof. intros H. unfold load_events. now rewrite (bind_ok _ _ _ _ _ (load_ok _ _ _ H)). Qed.

Lemma load_kpis_ok (h : heap) (l : loc) (k : KpiFrame) :
  h !! l = Some (Kpis k) -> load_kpis l h = (Ok k, h).
Proof. intros H. unfold load_kpis. now rewrite (bind_ok _ _ _ _ _ (load_ok _ _ _ H)). Qed.

Lemma columns_events (h : heap) (l : loc) (f : EventFrame) :
  h !! l = Some (Events f) -> columns l h = (Ok (e_columns f), h).
Proof. intros H. unfold columns. now rewrite (bind_ok _ _ _ _ _ (load_ok _ _ _ H)). Qed.

Lemma alloc_allocates (h : heap) (o : DataFrame) : allocates (alloc o) h o.
Proof.
  exists (fresh (dom h)), (<[fresh (dom h) := o]> h).
  pose proof (fresh_None h) as Hf.
  split; [reflexivity|]. split; [now apply insert_subseteq|].
  split; [exact Hf | apply lookup_insert_eq].
Qed.

Lemma copy_allocates (h : heap) (l : loc) (o : DataFrame) :
  h !! l = Some o -> allocates (copy l) h o.
Proof.
  intros H. unfold allocates, copy.
  rewrite (bind_ok _ _ _ _ _ (load_ok _ _ _ H)). apply alloc_allocates.
Qed.

(** One step of a computation whose first action is known to return. *)
Ltac step H :=
  lazymatch type of H with
  | ?m ?h = (Ok ?a, ?h') => rewrite (bind_ok m _ h h' a H); cbv beta
  end.

(** Running [k] on the result of a first step that kept the objects of
    [h]. *)
Lemma allocates_after {A} (m : M A) (k : A -> M loc) (h h1 : heap) (a : A)
    (o' : DataFrame) :
  m h = (Ok a, h1) -> h ⊆ h1 -> allocates (k a) h1 o' ->
  allocates (bind m k) h o'.
Proof.
  intros Hm Hsub (l' & h2 & Hk' & Hsub' & Hnone' & Hl').
  exists l', h2. rewrite (bind_ok _ _ _ _ _ Hm).
  split; [exact Hk'|]. split; [now transitivity h1|]. split; [|exact Hl'].
  destruct (h !! l') eqn:E; [|reflexivity].
  pose proof (lookup_weaken _ _ _ _ E Hsub). congruence.
Qed.

(** Running [k] on the reference a first step allocated. *)
Lemma allocates_bind (m : M loc) (k : loc -> M loc) (h : heap) (o o' : DataFrame) :
  allocates m h o ->
  (forall l h1, h1 !! l = Some o -> allocates (k l) h1 o') ->
  allocates (bind m k) h o'.
Proof.
  intros (l & h1 & Hm & Hsub & Hnone & Hl) Hk.
  apply (allocates_after _ _ _ _ _ _ Hm Hsub). now apply Hk.
Qed.

(** A first step that only reads. *)
Lemma allocates_read {A} (m : M A) (k : A -> M loc) (h : heap) (a : A) (o : DataFrame) :
  m h = (Ok a, h) -> allocates (k a) h o -> allocates (bind m k) h o.
Proof.
  intros Hm (l & h' & Hk & Hrest). exists l, h'.
  rewrite (bind_ok _ _ _ _ _ Hm). now split.
Qed.

(** ** The reliability scorer *)

Lemma assign_scores_rows (rows : list KpiRow) :
  assign_scores rows
    (s_rmul 100
       (s_add (s_rmul 0.6 (s_fillna 0 (map (kpi_cell "on_time_rate") rows)))
              (s_rmul 0.4
                 (s_rsub 1
                    (s_fillna 1
                       (s_div (s_clip 0 10 (map (kpi_cell "avg_delay_min") rows))
                              10))))))
  = map score_row rows.
Proof.
  induction rows as [|r rows IH]; [reflexivity|].
  simpl. f_equal. exact IH.
Qed.

Lemma set_reliability_score_ok (h : heap) (l : loc) (k : KpiFrame) (score : Series) :
  h !! l = Some (Kpis k) ->
  set_reliability_score l score h =
    (Ok tt, <[l := Kpis {| k_index := k_index k;
                           k_columns := if has_column "reliability_score" (k_columns k)
                                        then k_columns k
                                        else k_columns k ++ ["reliability_score"];
                           k_rows := assign_scores (k_rows k) score |}]> h).
Proof.
  intros H. unfold set_reliability_score.
  step (load_kpis_ok _ _ _ H). reflexivity.
Qed.

Lemma _add_reliability_score_allocates (h : heap) (l : loc) (k : KpiFrame) :
  h !! l = Some (Kpis k) ->
  has_column "avg_delay_min" (k_columns k) = true ->
  has_column "on_time_rate" (k_columns k) = true ->
  allocates (_add_reliability_score l) h (Kpis (scored_frame k)).
Proof.
  intros Hl Havg Hrate.
  destruct (copy_allocates h l _ Hl) as (l' & h1 & Hc & Hsub & Hnone & Hl').
  exists l', (<[l' := Kpis (scored_frame k)]> h1).
  split.
  - unfold _add_reliability_score.
    step Hc. step (load_kpis_ok _ _ _ Hl').
    unfold kpi_column. rewrite Havg, Hrate.
    unfold lift at 1. unfold bind at 1. unfold lift at 1. unfold bind at 1.
    step (set_reliability_score_ok _ _ _
            (s_rmul 100
               (s_add (s_rmul 0.6 (s_fillna 0 (map (kpi_cell "on_time_rate") (k_rows k))))
                      (s_rmul 0.4
                         (s_rsub 1
                            (s_fillna 1
                               (s_div (s_clip 0 10
                                         (map (kpi_cell "avg_delay_min") (k_rows k)))
                                      10)))))) Hl').
    rewrite assign_scores_rows. reflexivity.
  - split; [|split; [exact Hnone | apply lookup_insert_eq]].
    apply insert_subseteq_r; [exact Hnone | exact Hsub].
Qed.

Lemma clip_clamp (a : Q) : (Qmin (Qmax a 0) 10 == clamp a 0 10)%Q.
Proof.
  unfold clamp. destruct (Qlt_le_dec a 0) as [H|H].
  - rewrite (Q.max_r a 0) by lra. apply Q.min_l. lra.
  - rewrite (Q.max_l a 0) by lra.
    destruct (Qlt_le_dec 10 a) as [H'|H'].
    + apply Q.min_r. lra.
    + apply Q.min_l. lra.
Qed.

Lemma row_score_spec (avg rate : float) :
  exists s : Q, row_score avg rate = Some s /\
                (s == spec_reliability_score avg rate)%Q.
Proof.
  unfold row_score, spec_reliability_score, spec_on_time, spec_delay_penalty.
  destruct avg as [a|], rate as [r|]; simpl; eexists; (split; [reflexivity|]);
    try rewrite clip_clamp; reflexivity.
Qed.

Lemma spec_score_scenario_D (a t : Q) :
  (a == 15)%Q -> (t == 1)%Q ->
  (spec_reliability_score (Some a) (Some t) == 60)%Q.
Proof.
  intros Ha Ht. unfold spec_reliability_score, spec_on_time, spec_delay_penalty, clamp.
  destruct (Qlt_le_dec a 0); [lra|].
  destruct (Qlt_le_dec 10 a); [|lra].
  rewrite Ht. reflexivity.
Qed.

Lemma score_row_as_specified (r : KpiRow) : scored_as_specified r (score_row r).
Proof.
  split; [reflexivity|]. split; [reflexivity|].
  destruct (row_score_spec (avg_delay_min (stats r)) (on_time_rate (stats r)))
    as (s & Hs & Heq).
  exists s. split; [exact Hs|]. split; [exact Heq|].
  intros a t Ha Ha15 Ht Ht1. rewrite Heq, Ha, Ht.
  now apply spec_score_scenario_D.
Qed.

(** C1: the Reliability Scorer returns a new table whose rows are the
    input rows, each with reliability_score
    100 * (0.6 * on_time + 0.4 * (1 - delay_penalty)), where delay_penalty
    is clamp (avg_delay_min, 0, 10) / 10, or 1 when avg_delay_min is
    undefined, and on_time is on_time_rate, or 0 when it is undefined; a
    row with avg_delay_min = 15 and on_time_rate = 1 gets 60. *)
Theorem reliability_score_formula (h : heap) (l : loc) (k : KpiFrame) :
  h !! l = Some (Kpis k) ->
  has_column "avg_delay_min" (k_columns k) = true ->
  has_column "on_time_rate" (k_columns k) = true ->
  exists (l' : loc) (h' : heap) (k' : KpiFrame),
    _add_reliability_score l h = (Ok l', h') /\
    h' !! l' = Some (Kpis k') /\
    Forall2 scored_as_specified (k_rows k) (k_rows k').
Proof.
  intros Hl Havg Hrate.
  destruct (_add_reliability_score_allocates h l k Hl Havg Hrate)
    as (l' & h' & Hrun & _ & _ & Hl').
  exists l', h', (scored_frame k).
  split; [exact Hrun|]. split; [exact Hl'|].
  simpl. induction (k_rows k) as [|r rows IH]; simpl; constructor.
  - apply score_row_as_specified.
  - exact IH.
Qed.

Lemma reliability_score_formula_witness :
  exists (l' : loc) (h' : heap) (k' : KpiFrame),
    _add_reliability_score 1%positive example_kpi_heap = (Ok l', h') /\
    h' !! l' = Some (Kpis k') /\
    Forall2 scored_as_specified (k_rows example_kpis) (k_rows k').
Proof.
  apply (reliability_score_formula example_kpi_heap 1%positive example_kpis);
    reflexivity.
Defined.

(** ** Grouping *)

Lemma map_res_total {A B} (f : A -> res B) (l : list A) :
  (forall x, In x l -> exists y, f x = Ok y) ->
  exists ys, map_res f l = Ok ys /\ Forall2 (fun x y => f x = Ok y) l ys.
Proof.
  induction l as [|x l IH]; intros H.
  - exists []. split; [reflexivity | constructor].
  - destruct (H x (or_introl eq_refl)) as (y & Hy).
    destruct IH as (ys & Hys & Hall); [intros z Hz; apply H; now right|].
    exists (y :: ys). simpl. rewrite Hy. simpl. rewrite Hys. simpl.
    split; [reflexivity | now constructor].
Qed.

Lemma group_keys_nonempty (keys : list string) (rows : list Event) :
  rows <> [] -> group_keys keys rows <> [].
Proof.
  intros Hne Hnil. unfold group_keys in Hnil.
  pose proof (Permutation_length (isort_perm key_leb (dedup (map (key_of keys) rows)))) as Hlen.
  rewrite Hnil in Hlen. destruct rows as [|r rows]; [congruence|]. discriminate Hlen.
Qed.

Lemma has_column_app (c : string) (a b : list string) :
  has_column c (a ++ b) = has_column c a || has_column c b.
Proof. apply existsb_app. Qed.

Lemma groupby_ok (h : heap) (df : loc) (f : EventFrame) (keys : list string) :
  h !! df = Some (Events f) ->
  find (fun k => negb (has_column k (e_columns f))) keys = None ->
  groupby df keys h = (Ok {| gb_obj := df; gb_keys := keys |}, h).
Proof.
  intros Hdf Hfind. unfold groupby.
  step (load_events_ok _ _ _ Hdf). now rewrite Hfind.
Qed.

Lemma get_group_columns (keys : list string) (f : EventFrame) (k : list scalar) :
  e_columns (get_group keys f k) = e_columns f.
Proof. reflexivity. Qed.

Lemma _group_kpis_total (group : EventFrame) (thr : Q) :
  has_column "delay_minutes" (e_columns group) = true ->
  exists st, _group_kpis group thr = Ok st.
Proof.
  intros Hc. unfold _group_kpis. rewrite Hc. simpl.
  destruct (dropna _); eexists; reflexivity.
Qed.

Lemma apply_allocates (h : heap) (df : loc) (f : EventFrame)
    (keys : list string) (thr : Q) :
  h !! df = Some (Events f) ->
  has_column "delay_minutes" (e_columns f) = true ->
  e_rows f <> [] ->
  exists rows : list KpiRow,
    rows <> [] /\
    Forall2 (fun k r => key r = k /\
                        _group_kpis (get_group keys f k) thr = Ok (stats r) /\
                        reliability_score r = NaN)
            (group_keys keys (e_rows f)) rows /\
    allocates (apply {| gb_obj := df; gb_keys := keys |}
                     (fun g => _group_kpis g thr)) h
              (Kpis {| k_index := keys; k_columns := kpi_names; k_rows := rows |}).
Proof.
  intros Hdf Hdelay Hne.
  set (func := fun k =>
         res_bind (_group_kpis (get_group keys f k) thr)
           (fun s => Ok {| key := k; stats := s; reliability_score := NaN |})).
  destruct (map_res_total func (group_keys keys (e_rows f))) as (rows & Hrows & Hall).
  { intros k _. unfold func.
    destruct (_group_kpis_total (get_group keys f k) thr Hdelay) as (st & Hst).
    rewrite Hst. eexists. reflexivity. }
  assert (Hrne : rows <> []).
  { intros ->. inversion Hall as [Hk|]. symmetry in Hk.
    now apply group_keys_nonempty in Hk. }
  exists rows. split; [exact Hrne|]. split.
  - clear Hrows Hrne. induction Hall as [|k r ks rs Hk _ IH]; constructor; [|exact IH].
    unfold func in Hk. destruct (_group_kpis _ thr) as [st|e]; [|discriminate Hk].
    simpl in Hk. injection Hk as <-. repeat split.
  - unfold apply. simpl gb_obj. simpl gb_keys.
    apply (allocates_read _ _ _ _ _ (load_events_ok _ _ _ Hdf)).
    fold func. rewrite Hrows.
    apply (allocates_read (lift (Ok rows)) _ h rows); [reflexivity|].
    destruct rows as [|r rows]; [congruence|]. apply alloc_allocates.
Qed.

Lemma reset_index_allocates (h : heap) (l : loc) (k : KpiFrame) :
  h !! l = Some (Kpis k) ->
  find (fun n => has_column n (k_columns k)) (rev (k_index k)) = None ->
  allocates (reset_index l) h
    (Kpis {| k_index := []; k_columns := k_index k ++ k_columns k;
             k_rows := k_rows k |}).
Proof.
  intros Hl Hfind. unfold allocates, reset_index.
  step (load_kpis_ok _ _ _ Hl). rewrite Hfind. apply alloc_allocates.
Qed.

Lemma bind_ret {A} (m : M A) (h : heap) : bind m (fun a => ret a) h = m h.
Proof. unfold bind, ret. destruct (m h) as [[a|e] h']; reflexivity. Qed.

(** The tail the three operations share: group, apply, reset the index,
    score. *)
Lemma aggregate_allocates (h : heap) (df : loc) (f : EventFrame)
    (keys : list string) (thr : Q) :
  h !! df = Some (Events f) ->
  has_column "delay_minutes" (e_columns f) = true ->
  find (fun k => negb (has_column k (e_columns f))) keys = None ->
  find (fun n => has_column n kpi_names) (rev keys) = None ->
  has_column "reliability_score" keys = false ->
  e_rows f <> [] ->
  exists o : KpiFrame,
    kpi_table_of keys f thr o /\ k_rows o <> [] /\
    allocates
      (do grouped <- groupby df keys;
       do kpis <- apply grouped (fun g => _group_kpis g thr);
       do kpis <- reset_index kpis;
       do kpis <- _add_reliability_score kpis;
       ret kpis) h (Kpis o).
Proof.
  intros Hdf Hdelay Hkeys Hfresh Hscore Hne.
  destruct (apply_allocates h df f keys thr Hdf Hdelay Hne)
    as (rows & Hrne & Hall & Happly).
  exists (scored_frame {| k_index := []; k_columns := keys ++ kpi_names; k_rows := rows |}).
  split; [|split].
  - split; [reflexivity|]. split.
    + simpl. rewrite has_column_app, Hscore. simpl.
      now rewrite <- app_assoc.
    + simpl. clear -Hall.
      induction Hall as [|k r ks rs (Hk & Hst & _) _ IH]; simpl; constructor; [|exact IH].
      repeat split; assumption.
  - simpl. destruct rows; [congruence | discriminate].
  - apply (allocates_read _ _ _ _ _ (groupby_ok _ _ _ _ Hdf Hkeys)).
    eapply allocates_bind; [exact Happly|].
    intros l1 h1 Hl1.
    eapply allocates_bind; [apply (reset_index_allocates _ _ _ Hl1); exact Hfresh|].
    intros l2 h2 Hl2. simpl k_index in Hl2. simpl k_columns in Hl2. simpl k_rows in Hl2.
    destruct (_add_reliability_score_allocates h2 l2 _ Hl2)
      as (l3 & h3 & Hrun & Hrest).
    + simpl. rewrite has_column_app. apply orb_true_r.
    + simpl. rewrite has_column_app. apply orb_true_r.
    + exists l3, h3. rewrite bind_ret. split; [exact Hrun | exact Hrest].
Qed.

(** ** The three operations on an accepted table *)

Lemma compute_route_kpis_allocates (h : heap) (df : loc) (f : EventFrame) (thr : Q) :
  h !! df = Some (Events f) ->
  has_column "route_id" (e_columns f) = true ->
  has_column "delay_minutes" (e_columns f) = true ->
  e_rows f <> [] ->
  exists o : KpiFrame,
    kpi_table_of ["route_id"] f thr o /\ k_rows o <> [] /\
    allocates (compute_route_kpis df thr) h (Kpis o).
Proof.
  intros Hdf Hroute Hdelay Hne.
  destruct (aggregate_allocates h df f ["route_id"] thr Hdf Hdelay)
    as (o & Ho & Hrows & Hrun); try reflexivity; try exact Hne.
  { simpl. now rewrite Hroute. }
  exists o. split; [exact Ho|]. split; [exact Hrows|].
  unfold compute_route_kpis.
  apply (allocates_read _ _ _ _ _ (columns_events _ _ _ Hdf)).
  rewrite Hroute, Hdelay. exact Hrun.
Qed.

Lemma compute_route_hour_kpis_allocates (h : heap) (df : loc) (f : EventFrame) (thr : Q) :
  h !! df = Some (Events f) ->
  has_column "route_id" (e_columns f) = true ->
  has_column "delay_minutes" (e_columns f) = true ->
  has_column "hour" (e_columns f) = true ->
  e_rows f <> [] ->
  exists o : KpiFrame,
    kpi_table_of ["route_id"; "hour"] f thr o /\ k_rows o <> [] /\
    allocates (compute_route_hour_kpis df thr) h (Kpis o).
Proof.
  intros Hdf Hroute Hdelay Hhour Hne.
  destruct (aggregate_allocates h df f ["route_id"; "hour"] thr Hdf Hdelay)
    as (o & Ho & Hrows & Hrun); try reflexivity; try exact Hne.
  { simpl. now rewrite Hroute, Hhour. }
  exists o. split; [exact Ho|]. split; [exact Hrows|].
  unfold compute_route_hour_kpis.
  apply (allocates_read _ _ _ _ _ (columns_events _ _ _ Hdf)).
  rewrite Hhour. exact Hrun.
Qed.

Lemma _bucket_total (h : pyfloat) :
  (forall negative, h <> PInf negative) -> exists label, _bucket h = Ok label.
Proof.
  intros Hfin. destruct h as [|negative|q].
  - eexists. reflexivity.
  - now destruct (Hfin negative).
  - eexists. apply _bucket_finite.
Qed.

Lemma Forall2_length_eq {A B} (P : A -> B -> Prop) (l : list A) (l' : list B) :
  Forall2 P l l' -> length l = length l'.
Proof. induction 1; simpl; congruence. Qed.

Lemma assign_labels_length (rows : list Event) (labels : list string) :
  length labels = length rows -> length (assign_labels rows labels) = length rows.
Proof.
  revert labels. induction rows as [|r rows IH]; intros [|s labels] H; simpl in *;
    try reflexivity; try discriminate. f_equal. apply IH. congruence.
Qed.

Lemma set_time_of_day_ok (h : heap) (l : loc) (f : EventFrame) (labels : list string) :
  h !! l = Some (Events f) ->
  set_time_of_day l labels h = (Ok tt, <[l := Events (bucketed f labels)]> h).
Proof.
  intros H. unfold set_time_of_day.
  step (load_events_ok _ _ _ H). reflexivity.
Qed.

Lemma _add_time_of_day_bucket_allocates (h : heap) (df : loc) (f : EventFrame) :
  h !! df = Some (Events f) ->
  has_column "hour" (e_columns f) = true ->
  Forall (fun r => forall negative, hour r <> PInf negative) (e_rows f) ->
  exists labels : list string,
    map_res _bucket (map hour (e_rows f)) = Ok labels /\
    length labels = length (e_rows f) /\
    allocates (_add_time_of_day_bucket df) h (Events (bucketed f labels)).
Proof.
  intros Hdf Hhour Hfin.
  destruct (map_res_total _bucket (map hour (e_rows f))) as (labels & Hlabels & Hall).
  { intros x Hx. apply in_map_iff in Hx. destruct Hx as (r & <- & Hr).
    apply _bucket_total. rewrite List.Forall_forall in Hfin. now apply Hfin. }
  exists labels. split; [exact Hlabels|]. split.
  { apply Forall2_length_eq in Hall. rewrite length_map in Hall. congruence. }
  destruct (copy_allocates h df _ Hdf) as (l' & h1 & Hc & Hsub & Hnone & Hl').
  exists l', (<[l' := Events (bucketed f labels)]> h1).
  split.
  - unfold _add_time_of_day_bucket.
    step (columns_events _ _ _ Hdf). rewrite Hhour. cbn [negb].
    step Hc. step (load_events_ok _ _ _ Hl').
    rewrite Hlabels. unfold lift at 1. unfold bind at 1.
    step (set_time_of_day_ok _ _ _ labels Hl'). reflexivity.
  - split; [|split; [exact Hnone | apply lookup_insert_eq]].
    apply insert_subseteq_r; [exact Hnone | exact Hsub].
Qed.

Lemma has_column_bucketed (c : string) (f : EventFrame) (labels : list string) :
  has_column c (e_columns f) = true ->
  has_column c (e_columns (bucketed f labels)) = true.
Proof.
  intros H. simpl. destruct (has_column "time_of_day" (e_columns f)); [exact H|].
  rewrite has_column_app, H. reflexivity.
Qed.

Lemma has_time_of_day_bucketed (f : EventFrame) (labels : list string) :
  has_column "time_of_day" (e_columns (bucketed f labels)) = true.
Proof.
  simpl. destruct (has_column "time_of_day" (e_columns f)) eqn:E; [exact E|].
  rewrite has_column_app. apply orb_true_r.
Qed.

Lemma compute_route_period_kpis_allocates (h : heap) (df : loc) (f : EventFrame) (thr : Q) :
  h !! df = Some (Events f) ->
  valid_events f ->
  e_rows f <> [] ->
  exists (labels : list string) (o : KpiFrame),
    map_res _bucket (map hour (e_rows f)) = Ok labels /\
    kpi_table_of ["route_id"; "time_of_day"] (bucketed f labels) thr o /\
    k_rows o <> [] /\
    allocates (compute_route_period_kpis df thr) h (Kpis o).
Proof.
  intros Hdf (Hroute & Hdelay & Hhour & Hfin) Hne.
  destruct (_add_time_of_day_bucket_allocates h df f Hdf Hhour Hfin)
    as (labels & Hlabels & Hlen & Hbucket).
  assert (Hne' : e_rows (bucketed f labels) <> []).
  { intros Hnil. apply (f_equal (@length Event)) in Hnil. simpl in Hnil.
    rewrite assign_labels_length in Hnil by exact Hlen.
    destruct (e_rows f); [congruence | discriminate]. }
  destruct Hbucket as (l1 & h1 & Hrun1 & Hsub1 & Hnone1 & Hl1).
  destruct (aggregate_allocates h1 l1 (bucketed f labels)
              ["route_id"; "time_of_day"] thr Hl1)
    as (o & Ho & Hrows & Hrun); try reflexivity; try exact Hne'.
  { now apply has_column_bucketed. }
  { cbn [find]. rewrite (has_column_bucketed _ f labels Hroute).
    now rewrite has_time_of_day_bucketed. }
  exists labels, o. split; [exact Hlabels|]. split; [exact Ho|]. split; [exact Hrows|].
  unfold compute_route_period_kpis.
  now apply (allocates_after _ _ _ _ _ _ Hrun1 Hsub1).
Qed.

(** ** Scores in range, undefined statistics *)

Lemma _group_kpis_cases (group : EventFrame) (thr : Q) (st : GroupKpis) :
  _group_kpis group thr = Ok st ->
  (dropna (map delay_minutes (e_rows group)) = [] /\ st = undefined_stats) \/
  (dropna (map delay_minutes (e_rows group)) <> [] /\ (0 < n_events st)%Z /\
   exists r : Q, on_time_rate st = Some r /\ (0 <= r)%Q /\ (r <= 1)%Q).
Proof.
  destruct (has_column "delay_minutes" (e_columns group)) eqn:Hc;
    [|unfold _group_kpis; rewrite Hc; discriminate].
  destruct (dropna (map delay_minutes (e_rows group))) as [|d delay] eqn:E.
  - rewrite (_group_kpis_empty _ _ Hc E). intros [= <-]. left. split; reflexivity.
  - pose proof (_group_kpis_nonempty group thr Hc) as H.
    rewrite E in H. cbv zeta in H. rewrite H by discriminate.
    intros [= <-]. right. split; [discriminate|].
    cbn [on_time_rate n_events]. split; [simpl; lia|].
    exists (fraction_at_most thr (d :: delay)).
    split; [apply (mean_le_fraction thr (d :: delay)); discriminate|].
    apply fraction_at_most_range. discriminate.
Qed.

Lemma clip_range (a : Q) : (0 <= Qmin (Qmax a 0) 10 <= 10)%Q.
Proof.
  split; [|apply Q.le_min_r].
  apply Q.min_glb; [apply Q.le_max_r | discriminate].
Qed.

Lemma row_score_range (avg rate : float) :
  (forall r, rate = Some r -> (0 <= r <= 1)%Q) ->
  exists s : Q, row_score avg rate = Some s /\ (0 <= s)%Q /\ (s <= 100)%Q.
Proof.
  intros Hrate. unfold row_score.
  destruct avg as [a|], rate as [r|]; simpl; eexists; (split; [reflexivity|]);
    try (pose proof (clip_range a) as [Ha0 Ha1]);
    try (destruct (Hrate r eq_refl) as [Hr0 Hr1]);
    try (set (c := Qmin (Qmax a 0) 10) in *; clearbody c);
    unfold Qdiv; change (/ 10)%Q with (1 # 10)%Q;
    split; lra.
Qed.

Lemma row_score_undefined : exists s : Q, row_score NaN NaN = Some s /\ (s == 0)%Q.
Proof. eexists. split; reflexivity. Qed.

Lemma group_row_in_range (keys : list string) (f : EventFrame) (thr : Q)
    (k : list scalar) (r : KpiRow) :
  group_row keys f thr k r -> score_in_range r.
Proof.
  intros (_ & Hst & Hscore). unfold score_in_range. rewrite Hscore.
  destruct (_group_kpis_cases _ _ _ Hst) as [(_ & Hu)|(_ & Hn & q & Hq & Hq0 & Hq1)].
  - rewrite Hu. destruct row_score_undefined as (s & Hs & Hs0).
    exists s. simpl. split; [exact Hs|]. rewrite Hs0.
    split; [discriminate|]. split; [discriminate|]. reflexivity.
  - destruct (row_score_range (avg_delay_min (stats r)) (on_time_rate (stats r)))
      as (s & Hs & Hs0 & Hs1).
    { intros t Ht. rewrite Hq in Ht. injection Ht as <-. now split. }
    exists s. split; [exact Hs|]. split; [exact Hs0|]. split; [exact Hs1|]. lia.
Qed.

Lemma kpi_table_in_range (keys : list string) (f : EventFrame) (thr : Q) (o : KpiFrame) :
  kpi_table_of keys f thr o -> Forall score_in_range (k_rows o).
Proof.
  intros (_ & _ & Hall).
  induction Hall as [|k r ks rs Hr _ IH]; constructor; [|exact IH].
  now apply (group_row_in_range keys f thr k).
Qed.

Lemma kpi_table_undefined (keys : list string) (f : EventFrame) (thr : Q) (o : KpiFrame) :
  kpi_table_of keys f thr o ->
  Forall2 (undefined_when_unobserved keys f) (group_keys keys (e_rows f)) (k_rows o).
Proof.
  intros (_ & _ & Hall).
  induction Hall as [|k r ks rs (Hk & Hst & _) _ IH]; constructor; [|exact IH].
  split; [exact Hk|]. intros Hempty.
  destruct (_group_kpis_cases _ _ _ Hst) as [(_ & Hu)|(Hne & _)];
    [exact Hu | contradiction].
Qed.

Lemma assign_labels_from (rows : list Event) (labels : list string) :
  map_res _bucket (map hour rows) = Ok labels ->
  Forall2 labelled_from rows (assign_labels rows labels).
Proof.
  revert labels. induction rows as [|r rows IH]; intros labels Hm.
  - cbn in Hm. injection Hm as <-. constructor.
  - cbn [map map_res] in Hm.
    destruct (_bucket (hour r)) as [label|e] eqn:Hb; [|discriminate].
    cbn [res_bind] in Hm.
    destruct (map_res _bucket (map hour rows)) as [ls|e] eqn:Hrest; [|discriminate].
    cbn [res_bind] in Hm. injection Hm as <-. cbn [assign_labels].
    constructor; [|now apply IH].
    repeat split; try reflexivity. exact Hb.
Qed.

Lemma dropna_all_null (s : Series) : Forall (fun x => x = NaN) s -> dropna s = [].
Proof.
  induction 1 as [|x s Hx _ IH]; [reflexivity|]. rewrite Hx. exact IH.
Qed.

Lemma unobserved_group (keys : list string) (f : EventFrame) (k : list scalar) :
  unobserved keys f k ->
  dropna (map delay_minutes (e_rows (get_group keys f k))) = [].
Proof.
  intros Hun. apply dropna_all_null. apply List.Forall_forall.
  intros x Hx. apply in_map_iff in Hx. destruct Hx as (e & <- & He).
  cbn [get_group e_rows] in He. apply filter_In in He. destruct He as [He Hk].
  now apply Hun.
Qed.

Lemma group_row_scored (keys : list string) (f : EventFrame) (thr : Q)
    (k : list scalar) (r : KpiRow) :
  group_row keys f thr k r -> scored_group keys f k r.
Proof.
  intros Hrow. split; [apply Hrow|].
  split; [now apply (group_row_in_range keys f thr k)|].
  intros Hun. destruct Hrow as (_ & Hst & Hscore).
  destruct (_group_kpis_cases _ _ _ Hst) as [(_ & Hu)|(Hne & _)].
  - rewrite Hscore, Hu. split; [reflexivity|].
    destruct row_score_undefined as (s & Hs & Hs0). now exists s.
  - destruct Hne. now apply unobserved_group.
Qed.

Lemma kpi_table_scored (keys : list string) (f : EventFrame) (thr : Q) (o : KpiFrame) :
  kpi_table_of keys f thr o ->
  Forall2 (scored_group keys f) (group_keys keys (e_rows f)) (k_rows o).
Proof.
  intros (_ & _ & Hall).
  induction Hall as [|k r ks rs Hr _ IH]; constructor; [|exact IH].
  now apply (group_row_scored keys f thr k).
Qed.

(** C2: on an accepted event table with at least one event, each of the
    three operations returns a KPI table with one row per group of the
    table, and every row has a defined reliability_score in [0, 100]; the
    row of a group none of whose events has a delay counts no event and
    has score 0, as has every row with n_events = 0.  For the route+period
    operation the groups are those of the table with each event labelled
    by the bucket of its hour, route and delay as they were. *)
Theorem reliability_score_in_range (h : heap) (df : loc) (f : EventFrame) (thr : Q) :
  h !! df = Some (Events f) ->
  valid_events f ->
  e_rows f <> [] ->
  returns_scored_groups (compute_route_kpis df thr) h ["route_id"] f /\
  returns_scored_groups (compute_route_hour_kpis df thr) h ["route_id"; "hour"] f /\
  (exists labels : list string,
     map_res _bucket (map hour (e_rows f)) = Ok labels /\
     Forall2 labelled_from (e_rows f) (e_rows (bucketed f labels)) /\
     returns_scored_groups (compute_route_period_kpis df thr) h
       ["route_id"; "time_of_day"] (bucketed f labels)).
Proof.
  intros Hdf Hvalid Hne. pose proof Hvalid as (Hroute & Hdelay & Hhour & Hfin).
  split; [|split].
  - destruct (compute_route_kpis_allocates h df f thr Hdf Hroute Hdelay Hne)
      as (o & Ho & Hrows & l' & h' & Hrun & _ & _ & Hl').
    exists l', h', o. repeat split; try assumption.
    now apply (kpi_table_scored _ _ thr).
  - destruct (compute_route_hour_kpis_allocates h df f thr Hdf Hroute Hdelay Hhour Hne)
      as (o & Ho & Hrows & l' & h' & Hrun & _ & _ & Hl').
    exists l', h', o. repeat split; try assumption.
    now apply (kpi_table_scored _ _ thr).
  - destruct (compute_route_period_kpis_allocates h df f thr Hdf Hvalid Hne)
      as (labels & o & Hlabels & Ho & Hrows & l' & h' & Hrun & _ & _ & Hl').
    exists labels. split; [exact Hlabels|].
    split; [now apply assign_labels_from|].
    exists l', h', o. repeat split; try assumption.
    now apply (kpi_table_scored _ _ thr).
Qed.

Lemma example_events_valid : valid_events example_events.
Proof.
  repeat split; try reflexivity.
  repeat constructor; discriminate.
Qed.

Lemma reliability_score_in_range_witness :
  returns_scored_groups (compute_route_kpis 1%positive 1) example_heap
    ["route_id"] example_events /\
  returns_scored_groups (compute_route_hour_kpis 1%positive 1) example_heap
    ["route_id"; "hour"] example_events /\
  (exists labels : list string,
     map_res _bucket (map hour (e_rows example_events)) = Ok labels /\
     Forall2 labelled_from (e_rows example_events)
       (e_rows (bucketed example_events labels)) /\
     returns_scored_groups (compute_route_period_kpis 1%positive 1) example_heap
       ["route_id"; "time_of_day"] (bucketed example_events labels)).
Proof.
  apply (reliability_score_in_range example_heap 1%positive example_events 1).
  - reflexivity.
  - exact example_events_valid.
  - discriminate.
Defined.

(** Scenario B of the specification. *)
Example scenario_B :
  exists (l' : loc) (h' : heap) (r : KpiRow) (s : Q),
    compute_route_kpis 1%positive 1 scenario_B_heap = (Ok l', h') /\
    (exists o, h' !! l' = Some (Kpis o) /\ k_rows o = [r]) /\
    key r = [Str "2"] /\ stats r = undefined_stats /\
    reliability_score r = Some s /\ (s == 0)%Q.
Proof.
  do 4 eexists. split; [vm_compute; reflexivity|].
  split; [eexists; split; [vm_compute; reflexivity | reflexivity]|].
  repeat split.
Qed.

(** C3: a group whose non-null delays are none gets avg_delay_min,
    p90_delay_min and on_time_rate undefined and n_events = 0 from
    [_group_kpis], which returns normally; on an accepted event table with
    at least one event each of the three operations returns its table, and
    the row of every such group carries these values. *)
Theorem empty_group_undefined (h : heap) (df : loc) (f : EventFrame) (thr : Q) :
  h !! df = Some (Events f) ->
  valid_events f ->
  e_rows f <> [] ->
  (forall (group : EventFrame) (t : Q),
     has_column "delay_minutes" (e_columns group) = true ->
     dropna (map delay_minutes (e_rows group)) = [] ->
     _group_kpis group t = Ok undefined_stats) /\
  returns_undefined_rows (compute_route_kpis df thr) h ["route_id"] f /\
  returns_undefined_rows (compute_route_hour_kpis df thr) h ["route_id"; "hour"] f /\
  (exists labels : list string,
     map_res _bucket (map hour (e_rows f)) = Ok labels /\
     returns_undefined_rows (compute_route_period_kpis df thr) h
       ["route_id"; "time_of_day"] (bucketed f labels)).
Proof.
  intros Hdf Hvalid Hne. pose proof Hvalid as (Hroute & Hdelay & Hhour & Hfin).
  split; [|split; [|split]].
  - intros group t. apply _group_kpis_empty.
  - destruct (compute_route_kpis_allocates h df f thr Hdf Hroute Hdelay Hne)
      as (o & Ho & _ & l' & h' & Hrun & _ & _ & Hl').
    exists l', h', o. repeat split; try assumption.
    now apply (kpi_table_undefined _ _ thr).
  - destruct (compute_route_hour_kpis_allocates h df f thr Hdf Hroute Hdelay Hhour Hne)
      as (o & Ho & _ & l' & h' & Hrun & _ & _ & Hl').
    exists l', h', o. repeat split; try assumption.
    now apply (kpi_table_undefined _ _ thr).
  - destruct (compute_route_period_kpis_allocates h df f thr Hdf Hvalid Hne)
      as (labels & o & Hlabels & Ho & _ & l' & h' & Hrun & _ & _ & Hl').
    exists labels. split; [exact Hlabels|].
    exists l', h', o. repeat split; try assumption.
    now apply (kpi_table_undefined _ _ thr).
Qed.

Lemma empty_group_undefined_witness :
  returns_undefined_rows (compute_route_kpis 1%positive 1) example_heap
    ["route_id"] example_events.
Proof.
  apply (empty_group_undefined example_heap 1%positive example_events 1).
  - reflexivity.
  - exact example_events_valid.
  - discriminate.
Defined.

(** ** Missing columns *)

Lemma groupby_missing (h : heap) (df : loc) (f : EventFrame) (keys : list string)
    (k : string) :
  h !! df = Some (Events f) ->
  find (fun k => negb (has_column k (e_columns f))) keys = Some k ->
  groupby df keys h = (Raise (KeyError k), h).
Proof.
  intros Hdf Hfind. unfold groupby.
  step (load_events_ok _ _ _ Hdf). now rewrite Hfind.
Qed.

Lemma apply_missing_delay (h : heap) (df : loc) (f : EventFrame)
    (keys : list string) (thr : Q) :
  h !! df = Some (Events f) ->
  has_column "delay_minutes" (e_columns f) = false ->
  e_rows f <> [] ->
  apply {| gb_obj := df; gb_keys := keys |} (fun g => _group_kpis g thr) h
  = (Raise (KeyError "delay_minutes"), h).
Proof.
  intros Hdf Hdelay Hne. unfold apply. cbn [gb_obj gb_keys].
  step (load_events_ok _ _ _ Hdf).
  pose proof (group_keys_nonempty keys (e_rows f) Hne) as Hks.
  destruct (group_keys keys (e_rows f)) as [|k ks]; [congruence|].
  cbn [map_res]. unfold _group_kpis at 1. cbn [get_group e_columns].
  rewrite Hdelay. reflexivity.
Qed.

Lemma apply_no_rows (h : heap) (df : loc) (f : EventFrame)
    (keys : list string) (func : EventFrame -> res GroupKpis) :
  h !! df = Some (Events f) ->
  e_rows f = [] ->
  apply {| gb_obj := df; gb_keys := keys |} func h
  = alloc (Kpis {| k_index := keys; k_columns := e_columns f; k_rows := [] |}) h.
Proof.
  intros Hdf Hnil. unfold apply. cbn [gb_obj gb_keys].
  step (load_events_ok _ _ _ Hdf). rewrite Hnil. reflexivity.
Qed.

Lemma reset_index_clash (h : heap) (l : loc) (k : KpiFrame) (n : string) :
  h !! l = Some (Kpis k) ->
  find (fun n => has_column n (k_columns k)) (rev (k_index k)) = Some n ->
  reset_index l h = (Raise (ValueError ("cannot insert " ++ n ++ ", already exists")), h).
Proof.
  intros Hl Hfind. unfold reset_index.
  step (load_kpis_ok _ _ _ Hl). now rewrite Hfind.
Qed.

Lemma compute_route_kpis_guard (h : heap) (df : loc) (f : EventFrame) (thr : Q) :
  h !! df = Some (Events f) ->
  has_column "route_id" (e_columns f) = false \/
  has_column "delay_minutes" (e_columns f) = false ->
  fails_with (compute_route_kpis df thr) h is_KeyError.
Proof.
  intros Hdf Hmiss. unfold fails_with, compute_route_kpis.
  step (columns_events _ _ _ Hdf).
  assert (negb (has_column "route_id" (e_columns f))
          || negb (has_column "delay_minutes" (e_columns f)) = true) as ->.
  { destruct Hmiss as [-> | ->]; [reflexivity | apply orb_true_r]. }
  do 2 eexists. split; [reflexivity|]. eexists. reflexivity.
Qed.

Lemma compute_route_hour_kpis_guard (h : heap) (df : loc) (f : EventFrame) (thr : Q) :
  h !! df = Some (Events f) ->
  has_column "hour" (e_columns f) = false ->
  fails_with (compute_route_hour_kpis df thr) h is_KeyError.
Proof.
  intros Hdf Hmiss. unfold fails_with, compute_route_hour_kpis.
  step (columns_events _ _ _ Hdf). rewrite Hmiss. cbn [negb].
  do 2 eexists. split; [reflexivity|]. eexists. reflexivity.
Qed.

Lemma compute_route_period_kpis_guard (h : heap) (df : loc) (f : EventFrame) (thr : Q) :
  h !! df = Some (Events f) ->
  has_column "hour" (e_columns f) = false ->
  fails_with (compute_route_period_kpis df thr) h is_KeyError.
Proof.
  intros Hdf Hmiss. unfold fails_with, compute_route_period_kpis.
  assert (_add_time_of_day_bucket df h
          = (Raise (KeyError "Dataframe must contain 'hour' (see src.data_ingestion.clean_delays)"), h))
    as Hb.
  { unfold _add_time_of_day_bucket.
    step (columns_events _ _ _ Hdf). now rewrite Hmiss. }
  rewrite (bind_raise _ _ _ _ _ Hb).
  do 2 eexists. split; [reflexivity|]. eexists. reflexivity.
Qed.

Lemma compute_route_hour_kpis_no_route (h : heap) (df : loc) (f : EventFrame) (thr : Q) :
  h !! df = Some (Events f) ->
  has_column "route_id" (e_columns f) = false ->
  fails_with (compute_route_hour_kpis df thr) h is_KeyError.
Proof.
  intros Hdf Hmiss.
  destruct (has_column "hour" (e_columns f)) eqn:Hhour;
    [|now apply (compute_route_hour_kpis_guard h df f)].
  unfold fails_with, compute_route_hour_kpis.
  step (columns_events _ _ _ Hdf). rewrite Hhour. cbn [negb].
  rewrite (bind_raise _ _ _ _ _ (groupby_missing h df f ["route_id"; "hour"] "route_id" Hdf ltac:(cbn [find]; now rewrite Hmiss))).
  do 2 eexists. split; [reflexivity|]. eexists. reflexivity.
Qed.

Lemma compute_route_hour_kpis_no_delay (h : heap) (df : loc) (f : EventFrame) (thr : Q) :
  h !! df = Some (Events f) ->
  has_column "delay_minutes" (e_columns f) = false ->
  fails_with (compute_route_hour_kpis df thr) h
    (fun e => is_KeyError e \/ (e_rows f = [] /\ is_ValueError e)).
Proof.
  intros Hdf Hmiss.
  destruct (has_column "hour" (e_columns f)) eqn:Hhour.
  2: { destruct (compute_route_hour_kpis_guard h df f thr Hdf Hhour) as (e & h' & Hrun & He).
       exists e, h'. split; [exact Hrun | now left]. }
  destruct (has_column "route_id" (e_columns f)) eqn:Hroute.
  2: { destruct (compute_route_hour_kpis_no_route h df f thr Hdf Hroute) as (e & h' & Hrun & He).
       exists e, h'. split; [exact Hrun | now left]. }
  unfold fails_with, compute_route_hour_kpis.
  step (columns_events _ _ _ Hdf). rewrite Hhour. cbn [negb].
  step (groupby_ok h df f ["route_id"; "hour"] Hdf ltac:(cbn [find]; now rewrite Hroute, Hhour)).
  destruct (e_rows f) as [|r rows] eqn:Hrows.
  - destruct (alloc_allocates h (Kpis {| k_index := ["route_id"; "hour"];
                                         k_columns := e_columns f; k_rows := [] |}))
      as (l1 & h1 & Halloc & _ & _ & Hl1).
    rewrite <- (apply_no_rows h df f _ (fun g => _group_kpis g thr) Hdf Hrows) in Halloc.
    step Halloc.
    rewrite (bind_raise _ _ _ _ _
               (reset_index_clash h1 l1
                  {| k_index := ["route_id"; "hour"]; k_columns := e_columns f;
                     k_rows := [] |} "hour" Hl1 ltac:(cbn [find rev app k_index k_columns]; now rewrite Hhour))).
    do 2 eexists. split; [reflexivity|]. right. split; [reflexivity|]. eexists. reflexivity.
  - rewrite (bind_raise _ _ _ _ _
               (apply_missing_delay h df f ["route_id"; "hour"] thr Hdf Hmiss ltac:(rewrite Hrows; discriminate))).
    do 2 eexists. split; [reflexivity|]. left. eexists. reflexivity.
Qed.

(** The tail the three operations share, on a table without rows: [apply]
    returns a frame with the columns of the table, and [reset_index]
    cannot insert the key columns a second time. *)
Lemma aggregate_no_rows (h : heap) (df : loc) (f : EventFrame)
    (keys : list string) (thr : Q) (n : string) :
  h !! df = Some (Events f) ->
  find (fun k => negb (has_column k (e_columns f))) keys = None ->
  find (fun n => has_column n (e_columns f)) (rev keys) = Some n ->
  e_rows f = [] ->
  fails_with
    (do grouped <- groupby df keys;
     do kpis <- apply grouped (fun g => _group_kpis g thr);
     do kpis <- reset_index kpis;
     do kpis <- _add_reliability_score kpis;
     ret kpis) h is_ValueError.
Proof.
  intros Hdf Hkeys Hclash Hrows. unfold fails_with.
  step (groupby_ok h df f keys Hdf Hkeys).
  destruct (alloc_allocates h (Kpis {| k_index := keys; k_columns := e_columns f;
                                       k_rows := [] |}))
    as (l1 & h1 & Halloc & _ & _ & Hl1).
  rewrite <- (apply_no_rows h df f keys (fun g => _group_kpis g thr) Hdf Hrows) in Halloc.
  step Halloc.
  rewrite (bind_raise _ _ _ _ _
             (reset_index_clash h1 l1
                {| k_index := keys; k_columns := e_columns f; k_rows := [] |} n Hl1 Hclash)).
  do 2 eexists. split; [reflexivity|]. eexists. reflexivity.
Qed.

(** On an accepted table without any row the three operations end in that
    ValueError. *)
Lemma empty_table_raises (h : heap) (df : loc) (f : EventFrame) (thr : Q) :
  h !! df = Some (Events f) ->
  valid_events f ->
  e_rows f = [] ->
  fails_with (compute_route_kpis df thr) h is_ValueError /\
  fails_with (compute_route_hour_kpis df thr) h is_ValueError /\
  fails_with (compute_route_period_kpis df thr) h is_ValueError.
Proof.
  intros Hdf (Hroute & Hdelay & Hhour & Hfin) Hrows.
  split; [|split].
  - destruct (aggregate_no_rows h df f ["route_id"] thr "route_id" Hdf)
      as (e & h' & Hrun & He); try exact Hrows;
      try (cbn [find rev app]; now rewrite Hroute).
    exists e, h'. split; [|exact He].
    unfold compute_route_kpis. step (columns_events _ _ _ Hdf).
    rewrite Hroute, Hdelay. exact Hrun.
  - destruct (aggregate_no_rows h df f ["route_id"; "hour"] thr "hour" Hdf)
      as (e & h' & Hrun & He); try exact Hrows;
      try (cbn [find rev app]; now rewrite ?Hroute, ?Hhour).
    exists e, h'. split; [|exact He].
    unfold compute_route_hour_kpis. step (columns_events _ _ _ Hdf).
    rewrite Hhour. exact Hrun.
  - destruct (_add_time_of_day_bucket_allocates h df f Hdf Hhour Hfin)
      as (labels & _ & _ & l1 & h1 & Hrun1 & _ & _ & Hl1).
    destruct (aggregate_no_rows h1 l1 (bucketed f labels) ["route_id"; "time_of_day"]
                thr "time_of_day" Hl1)
      as (e & h' & Hrun & He).
    + cbn [find]. rewrite (has_column_bucketed _ f labels Hroute).
      now rewrite has_time_of_day_bucketed.
    + cbn [find rev app]. now rewrite has_time_of_day_bucketed.
    + simpl. now rewrite Hrows.
    + exists e, h'. split; [|exact He].
      unfold compute_route_period_kpis. step Hrun1. exact Hrun.
Qed.

Lemma compute_route_hour_kpis_rowless (h : heap) (df : loc) (f : EventFrame) (thr : Q) :
  h !! df = Some (Events f) ->
  has_column "route_id" (e_columns f) = true ->
  has_column "hour" (e_columns f) = true ->
  e_rows f = [] ->
  fails_with (compute_route_hour_kpis df thr) h is_ValueError.
Proof.
  intros Hdf Hroute Hhour Hrows.
  destruct (aggregate_no_rows h df f ["route_id"; "hour"] thr "hour" Hdf)
    as (e & h' & Hrun & He); try exact Hrows;
    try (cbn [find rev app]; now rewrite ?Hroute, ?Hhour).
  exists e, h'. split; [|exact He].
  unfold compute_route_hour_kpis. step (columns_events _ _ _ Hdf).
  rewrite Hhour. exact Hrun.
Qed.

Lemma fails_with_unique (m : M loc) (h : heap) (P Q : exn -> Prop) :
  fails_with m h P -> fails_with m h Q -> exists e, P e /\ Q e.
Proof.
  intros (e & h1 & Hrun1 & HP) (e' & h2 & Hrun2 & HQ).
  rewrite Hrun1 in Hrun2. injection Hrun2 as <- _. now exists e.
Qed.

(** C4, as stated, fails: the route+hour operation on a table without
    rows that has the route and hour columns and lacks delay_minutes does
    not end in a KeyError.  It never reads the delay column; it ends in the
    ValueError of [reset_index] that every table without rows meets. *)
Lemma missing_delay_not_schema_error :
  has_column "delay_minutes" (e_columns rowless_without_delay) = false /\
  ~ fails_with (compute_route_hour_kpis 1%positive 1) heap_rowless_without_delay
      is_KeyError /\
  fails_with (compute_route_hour_kpis 1%positive 1) heap_rowless_without_delay
    is_ValueError.
Proof.
  assert (Hv : fails_with (compute_route_hour_kpis 1%positive 1)
                 heap_rowless_without_delay is_ValueError).
  { apply (compute_route_hour_kpis_rowless _ _ rowless_without_delay); reflexivity. }
  split; [reflexivity|]. split; [|exact Hv].
  intros Hk. destruct (fails_with_unique _ _ _ _ Hk Hv) as (e & [m1 ->] & [m2 Hm]).
  discriminate.
Qed.

(** C4, amended: on a table that lacks the route_id or the delay_minutes
    column the route-level operation ends in a KeyError; the route+hour
    operation ends in a KeyError on a table that lacks route_id or hour,
    and on a table with at least one row that lacks delay_minutes; the
    route+period operation ends in a KeyError on a table that lacks hour.
    The route+hour operation on a table without rows that has route_id and
    hour and lacks delay_minutes ends in the ValueError every table
    without rows meets at [reset_index].  In each case no table is
    returned. *)
Theorem missing_column_fails (h : heap) (df : loc) (f : EventFrame) (thr : Q) :
  h !! df = Some (Events f) ->
  (has_column "route_id" (e_columns f) = false \/
   has_column "delay_minutes" (e_columns f) = false ->
   fails_with (compute_route_kpis df thr) h is_KeyError) /\
  (has_column "route_id" (e_columns f) = false ->
   fails_with (compute_route_hour_kpis df thr) h is_KeyError) /\
  (has_column "delay_minutes" (e_columns f) = false ->
   (e_rows f <> [] ->
    fails_with (compute_route_hour_kpis df thr) h is_KeyError) /\
   (e_rows f = [] ->
    has_column "route_id" (e_columns f) = true ->
    has_column "hour" (e_columns f) = true ->
    fails_with (compute_route_hour_kpis df thr) h is_ValueError) /\
   fails_with (compute_route_hour_kpis df thr) h
     (fun e => is_KeyError e \/ (e_rows f = [] /\ is_ValueError e))) /\
  (has_column "hour" (e_columns f) = false ->
   fails_with (compute_route_hour_kpis df thr) h is_KeyError /\
   fails_with (compute_route_period_kpis df thr) h is_KeyError).
Proof.
  intros Hdf. split; [|split; [|split]].
  - now apply (compute_route_kpis_guard h df f).
  - now apply (compute_route_hour_kpis_no_route h df f).
  - intros Hmiss.
    pose proof (compute_route_hour_kpis_no_delay h df f thr Hdf Hmiss) as Hfail.
    split; [|split; [|exact Hfail]].
    + intros Hne. destruct Hfail as (e & h' & Hrun & [He|[Hnil _]]).
      * now exists e, h'.
      * contradiction.
    + intros Hnil Hroute Hhour.
      now apply (compute_route_hour_kpis_rowless h df f).
  - intros Hmiss. split.
    + now apply (compute_route_hour_kpis_guard h df f).
    + now apply (compute_route_period_kpis_guard h df f).
Qed.

Lemma missing_column_fails_witness :
  fails_with (compute_route_kpis 1%positive 1) heap_without_delay is_KeyError /\
  fails_with (compute_route_hour_kpis 1%positive 1) heap_without_delay is_KeyError /\
  fails_with (compute_route_hour_kpis 1%positive 1) heap_rowless_without_delay
    is_ValueError /\
  fails_with (compute_route_period_kpis 1%positive 1) heap_without_hour is_KeyError.
Proof.
  assert (Hd : heap_without_delay !! 1%positive = Some (Events events_without_delay))
    by reflexivity.
  assert (Hr : heap_rowless_without_delay !! 1%positive
               = Some (Events rowless_without_delay)) by reflexivity.
  assert (Hh : heap_without_hour !! 1%positive = Some (Events events_without_hour))
    by reflexivity.
  destruct (missing_column_fails heap_without_delay 1%positive events_without_delay 1 Hd)
    as (H1 & _ & H2 & _).
  destruct (missing_column_fails heap_rowless_without_delay 1%positive
              rowless_without_delay 1 Hr) as (_ & _ & H3 & _).
  destruct (missing_column_fails heap_without_hour 1%positive events_without_hour 1 Hh)
    as (_ & _ & _ & H4).
  split; [|split; [|split]].
  - apply H1. right. reflexivity.
  - apply H2; [reflexivity | discriminate].
  - apply H3; reflexivity.
  - apply H4. reflexivity.
Defined.

(** ** The caller's table is left alone *)

Section Keeps.
Variable h0 : heap.

Lemma keeps_ret {A} (a : A) (Q : A -> Prop) : Q a -> keeps h0 (ret a) Q.
Proof. intros HQ h Hh. split; [exact Hh|]. simpl. now intros ? [= <-]. Qed.

Lemma keeps_raise {A} (e : exn) (Q : A -> Prop) : keeps h0 (raise e) Q.
Proof. intros h Hh. split; [exact Hh|]. simpl. discriminate. Qed.

Lemma keeps_lift {A} (r : res A) : keeps h0 (lift r) (fun _ => True).
Proof. intros h Hh. split; [exact Hh | trivial]. Qed.

Lemma keeps_bind {A B} (m : M A) (k : A -> M B) (Q : A -> Prop) (R : B -> Prop) :
  keeps h0 m Q -> (forall a, Q a -> keeps h0 (k a) R) -> keeps h0 (bind m k) R.
Proof.
  intros Hm Hk h Hh. destruct (Hm h Hh) as [Hsub HQ].
  unfold bind. destruct (m h) as [[a|e] h1]; simpl in *.
  - apply (Hk a (HQ a eq_refl) h1 Hsub).
  - split; [exact Hsub | discriminate].
Qed.

Lemma keeps_weaken {A} (m : M A) (Q Q' : A -> Prop) :
  keeps h0 m Q -> (forall a, Q a -> Q' a) -> keeps h0 m Q'.
Proof.
  intros Hm HQ h Hh. destruct (Hm h Hh) as [Hsub Ha].
  split; [exact Hsub|]. intros a E. apply HQ. now apply Ha.
Qed.

Lemma keeps_load (l : loc) : keeps h0 (load l) (fun _ => True).
Proof.
  intros h Hh. unfold load. destruct (h !! l); simpl; split; trivial.
Qed.

Lemma keeps_alloc (o : DataFrame) : keeps h0 (alloc o) (new_in h0).
Proof.
  intros h Hh. unfold alloc. simpl.
  assert (Hnew : h0 !! fresh (dom h) = None).
  { destruct (h0 !! fresh (dom h)) eqn:E; [|reflexivity].
    pose proof (lookup_weaken _ _ _ _ E Hh) as H.
    rewrite fresh_None in H. discriminate H. }
  split; [now apply insert_subseteq_r|]. now intros ? [= <-].
Qed.

Lemma keeps_store (l : loc) (o : DataFrame) :
  new_in h0 l -> keeps h0 (store l o) (fun _ => True).
Proof.
  intros Hnew h Hh. unfold store. simpl.
  split; [now apply insert_subseteq_r | trivial].
Qed.

Lemma keeps_load_events (l : loc) : keeps h0 (load_events l) (fun _ => True).
Proof.
  unfold load_events. eapply keeps_bind; [apply keeps_load|].
  intros [f|k] _; [now apply keeps_ret | apply keeps_raise].
Qed.

Lemma keeps_load_kpis (l : loc) : keeps h0 (load_kpis l) (fun _ => True).
Proof.
  unfold load_kpis. eapply keeps_bind; [apply keeps_load|].
  intros [f|k] _; [apply keeps_raise | now apply keeps_ret].
Qed.

Lemma keeps_columns (l : loc) : keeps h0 (columns l) (fun _ => True).
Proof.
  unfold columns. eapply keeps_bind; [apply keeps_load|].
  intros [f|k] _; now apply keeps_ret.
Qed.

Lemma keeps_copy (l : loc) : keeps h0 (copy l) (new_in h0).
Proof.
  unfold copy. eapply keeps_bind; [apply keeps_load|].
  intros o _. apply keeps_alloc.
Qed.

Lemma keeps_set_reliability_score (l : loc) (score : Series) :
  new_in h0 l -> keeps h0 (set_reliability_score l score) (fun _ => True).
Proof.
  intros Hnew. unfold set_reliability_score.
  eapply keeps_bind; [apply keeps_load_kpis|].
  intros k _. now apply keeps_store.
Qed.

Lemma keeps_set_time_of_day (l : loc) (labels : list string) :
  new_in h0 l -> keeps h0 (set_time_of_day l labels) (fun _ => True).
Proof.
  intros Hnew. unfold set_time_of_day.
  eapply keeps_bind; [apply keeps_load_events|].
  intros f _. now apply keeps_store.
Qed.

Lemma keeps__add_reliability_score (kpis : loc) :
  keeps h0 (_add_reliability_score kpis) (new_in h0).
Proof.
  unfold _add_reliability_score.
  eapply keeps_bind; [apply keeps_copy|]. intros l Hl.
  eapply keeps_bind; [apply keeps_load_kpis|]. intros k _.
  eapply keeps_bind; [apply keeps_lift|]. intros avg _.
  eapply keeps_bind; [apply keeps_lift|]. intros rate _.
  eapply keeps_bind; [now apply keeps_set_reliability_score|]. intros _ _.
  now apply keeps_ret.
Qed.

Lemma keeps__add_time_of_day_bucket (df : loc) :
  keeps h0 (_add_time_of_day_bucket df) (new_in h0).
Proof.
  unfold _add_time_of_day_bucket.
  eapply keeps_bind; [apply keeps_columns|]. intros cols _.
  destruct (negb (has_column "hour" cols)); [apply keeps_raise|].
  eapply keeps_bind; [apply keeps_copy|]. intros l Hl.
  eapply keeps_bind; [apply keeps_load_events|]. intros f _.
  eapply keeps_bind; [apply keeps_lift|]. intros labels _.
  eapply keeps_bind; [now apply keeps_set_time_of_day|]. intros _ _.
  now apply keeps_ret.
Qed.

Lemma keeps_groupby (df : loc) (keys : list string) :
  keeps h0 (groupby df keys) (fun _ => True).
Proof.
  unfold groupby. eapply keeps_bind; [apply keeps_load_events|]. intros f _.
  destruct (find _ keys); [apply keeps_raise | now apply keeps_ret].
Qed.

Lemma keeps_apply (grouped : GroupBy) (func : EventFrame -> res GroupKpis) :
  keeps h0 (apply grouped func) (new_in h0).
Proof.
  unfold apply. eapply keeps_bind; [apply keeps_load_events|]. intros data _.
  eapply keeps_bind; [apply keeps_lift|]. intros values _.
  destruct values; apply keeps_alloc.
Qed.

Lemma keeps_reset_index (kpis : loc) : keeps h0 (reset_index kpis) (new_in h0).
Proof.
  unfold reset_index. eapply keeps_bind; [apply keeps_load_kpis|]. intros k _.
  destruct (find _ _); [apply keeps_raise | apply keeps_alloc].
Qed.

(** The tail the three operations share. *)
Lemma keeps_aggregate (df : loc) (keys : list string) (thr : Q) :
  keeps h0
    (do grouped <- groupby df keys;
     do kpis <- apply grouped (fun g => _group_kpis g thr);
     do kpis <- reset_index kpis;
     do kpis <- _add_reliability_score kpis;
     ret kpis) (new_in h0).
Proof.
  eapply keeps_bind; [apply keeps_groupby|]. intros grouped _.
  eapply keeps_bind; [apply keeps_apply|]. intros l1 _.
  eapply keeps_bind; [apply keeps_reset_index|]. intros l2 _.
  eapply keeps_bind; [apply keeps__add_reliability_score|]. intros l3 Hl3.
  now apply keeps_ret.
Qed.

Lemma keeps_compute_route_kpis (df : loc) (thr : Q) :
  keeps h0 (compute_route_kpis df thr) (new_in h0).
Proof.
  unfold compute_route_kpis.
  eapply keeps_bind; [apply keeps_columns|]. intros cols _.
  destruct (_ || _); [apply keeps_raise | apply keeps_aggregate].
Qed.

Lemma keeps_compute_route_hour_kpis (df : loc) (thr : Q) :
  keeps h0 (compute_route_hour_kpis df thr) (new_in h0).
Proof.
  unfold compute_route_hour_kpis.
  eapply keeps_bind; [apply keeps_columns|]. intros cols _.
  destruct (negb _); [apply keeps_raise | apply keeps_aggregate].
Qed.

Lemma keeps_compute_route_period_kpis (df : loc) (thr : Q) :
  keeps h0 (compute_route_period_kpis df thr) (new_in h0).
Proof.
  unfold compute_route_period_kpis.
  eapply keeps_bind; [apply keeps__add_time_of_day_bucket|]. intros l _.
  apply keeps_aggregate.
Qed.
End Keeps.

Lemma keeps_leaves_input_unchanged (m : M loc) (h : heap) (df : loc) (f : EventFrame) :
  h !! df = Some (Events f) ->
  keeps h m (new_in h) -> leaves_input_unchanged m h df f.
Proof.
  intros Hdf Hm. destruct (Hm h (reflexivity h)) as [Hsub Hnew].
  assert (Hobj : forall l o, h !! l = Some o -> snd (m h) !! l = Some o).
  { intros l o Hl. exact (lookup_weaken _ _ _ _ Hl Hsub). }
  split; [now apply Hobj|]. split; [exact Hobj|].
  intros l' Hl'. pose proof (Hnew l' Hl') as Hnone. split; [exact Hnone|].
  intros ->. unfold new_in in Hnone. congruence.
Qed.

(** C9: whatever the event table and whatever the outcome, each of the
    three operations leaves the caller's table, and every other table
    that existed before the call, exactly as it was, and the table it
    returns is a new object, distinct from the input. *)
Theorem input_table_unchanged (h : heap) (df : loc) (f : EventFrame) (thr : Q) :
  h !! df = Some (Events f) ->
  leaves_input_unchanged (compute_route_kpis df thr) h df f /\
  leaves_input_unchanged (compute_route_hour_kpis df thr) h df f /\
  leaves_input_unchanged (compute_route_period_kpis df thr) h df f.
Proof.
  intros Hdf.
  split; [|split]; apply keeps_leaves_input_unchanged; try exact Hdf.
  - apply keeps_compute_route_kpis.
  - apply keeps_compute_route_hour_kpis.
  - apply keeps_compute_route_period_kpis.
Qed.

Lemma input_table_unchanged_witness :
  leaves_input_unchanged (compute_route_kpis 1%positive 1) example_heap
    1%positive example_events /\
  leaves_input_unchanged (compute_route_hour_kpis 1%positive 1) example_heap
    1%positive example_events /\
  leaves_input_unchanged (compute_route_period_kpis 1%positive 1) example_heap
    1%positive example_events.
Proof.
  apply (input_table_unchanged example_heap 1%positive example_events 1).
  reflexivity.
Defined.

(** ** Sorting kernels *)

Lemma combine_seq_nth (l : list Q) (s i : nat) (v : Q) :
  In (i, v) (combine (seq s (length l)) l) -> nth (i - s) l 0%Q = v.
Proof.
  revert s. induction l as [|x l IH]; intros s H; simpl in H; [destruct H|].
  destruct H as [[= <- <-]|H].
  - now rewrite Nat.sub_diag.
  - assert (S s <= i)%nat.
    { apply in_combine_l in H. apply in_seq in H. lia. }
    specialize (IH (S s) H).
    replace (i - s)%nat with (S (i - S s)) by lia. exact IH.
Qed.

Lemma map_fst_combine_seq (l : list Q) (s : nat) :
  map fst (combine (seq s (length l)) l) = seq s (length l).
Proof.
  revert s. induction l as [|x l IH]; intros s; simpl; [reflexivity|].
  now rewrite IH.
Qed.

Lemma Sorted_map_snd (R : nat * Q -> nat * Q -> Prop) (l : list (nat * Q)) :
  (forall a b, R a b -> (snd a <= snd b)%Q) ->
  Sorted R l -> Sorted Qle (map snd l).
Proof.
  intros HR. induction 1 as [|a l Hs IH Hhd]; simpl; constructor; [exact IH|].
  destruct Hhd; simpl; constructor. now apply HR.
Qed.

Lemma argsort_by_spec (leb : Q -> Q -> bool) :
  (forall x y, leb x y = true -> (x <= y)%Q) ->
  (forall x y, leb x y = false -> (y <= x)%Q) ->
  argsort_spec (argsort_by leb).
Proof.
  intros Htrue Hfalse l. unfold argsort_by.
  set (pairs := combine (seq 0 (length l)) l).
  set (leb' := fun a b : nat * Q => leb (snd a) (snd b)).
  pose proof (isort_perm leb' pairs) as Hperm.
  split.
  - rewrite Hperm. unfold pairs. now rewrite map_fst_combine_seq.
  - rewrite List.map_map.
    erewrite List.map_ext_in.
    + rewrite <- List.map_map with (f := snd) (g := fun v : Q => v).
      rewrite List.map_id.
      apply (Sorted_map_snd (fun a b => (snd a <= snd b)%Q)); [auto|].
      apply isort_Sorted; unfold leb'; intros x y; [apply Htrue | apply Hfalse].
    + intros [i v] Hin. simpl.
      apply (Permutation_in _ Hperm) in Hin. unfold pairs in Hin.
      apply combine_seq_nth in Hin. now rewrite Nat.sub_0_r in Hin.
Qed.

Lemma stable_argsort_spec : argsort_spec stable_argsort.
Proof.
  apply argsort_by_spec.
  - intros x y. apply Qle_bool_imp_le.
  - apply Qle_bool_false.
Qed.

Lemma reversing_argsort_spec : argsort_spec reversing_argsort.
Proof.
  apply argsort_by_spec.
  - intros x y H. apply negb_true_iff in H. apply Qle_bool_false in H. exact H.
  - intros x y H. apply negb_false_iff in H. now apply Qle_bool_imp_le.
Qed.

(** ** Rows by position *)

Lemma positions_cons (p : float -> bool) (x : float) (items : Series) :
  positions p (x :: items)
  = ((if p x then [0%nat] else []) ++ map S (positions p items))%list.
Proof.
  unfold positions. simpl length. rewrite <- cons_seq. simpl List.filter.
  rewrite <- seq_shift, filter_map_swap. simpl nth.
  destruct (p x); reflexivity.
Qed.

Lemma nth_error_positions {A} (g : A -> float) (p : float -> bool) (rows : list A) :
  map (nth_error rows) (positions p (map g rows))
  = map Some (List.filter (fun r => p (g r)) rows).
Proof.
  induction rows as [|r rows IH]; [reflexivity|].
  simpl map at 2. rewrite positions_cons, List.map_app, List.map_map.
  simpl nth_error. change (fun x : nat => nth_error rows x) with (nth_error rows).
  rewrite IH. simpl List.filter.
  destruct (p (g r)); reflexivity.
Qed.

Lemma iloc_Some {A} (rows : list A) (indexer : list nat) (rs : list A) :
  map (nth_error rows) indexer = map Some rs -> iloc rows indexer = rs.
Proof.
  revert rs. induction indexer as [|i indexer IH]; intros [|r rs] H;
    simpl in H; try discriminate; [reflexivity|].
  injection H as Hi H. unfold iloc. simpl. rewrite Hi. simpl.
  f_equal. now apply IH.
Qed.

Lemma iloc_positions {A} (g : A -> float) (p : float -> bool) (rows : list A) :
  iloc rows (positions p (map g rows)) = List.filter (fun r => p (g r)) rows.
Proof. apply iloc_Some, nth_error_positions. Qed.

Lemma iloc_app {A} (rows : list A) (i1 i2 : list nat) :
  iloc rows (i1 ++ i2) = (iloc rows i1 ++ iloc rows i2)%list.
Proof. apply flat_map_app. Qed.

Lemma iloc_rev {A} (rows : list A) (indexer : list nat) :
  iloc rows (rev indexer) = rev (iloc rows indexer).
Proof.
  induction indexer as [|i indexer IH]; [reflexivity|].
  simpl rev. rewrite iloc_app, IH. unfold iloc at 2 3. simpl.
  rewrite rev_app_distr. f_equal. rewrite app_nil_r.
  destruct (nth_error rows i); reflexivity.
Qed.

Lemma iloc_seq {A} (rows : list A) : iloc rows (seq 0 (length rows)) = rows.
Proof.
  apply iloc_Some. induction rows as [|r rows IH]; [reflexivity|].
  simpl length. rewrite <- cons_seq, <- seq_shift. simpl.
  rewrite List.map_map. simpl.
  change (fun x : nat => nth_error rows x) with (nth_error rows). now rewrite IH.
Qed.

Lemma iloc_perm {A} (rows : list A) (indexer : list nat) :
  Permutation indexer (seq 0 (length rows)) -> Permutation (iloc rows indexer) rows.
Proof.
  intros H. rewrite <- (iloc_seq rows) at 2.
  unfold iloc. now apply Permutation_flat_map.
Qed.

(** Reading [rows] through positions of positions. *)
Lemma iloc_compose {A} (rows sub : list A) (idx : list nat) (indexer : list nat) :
  map (nth_error rows) idx = map Some sub ->
  Forall (fun j => (j < length idx)%nat) indexer ->
  iloc rows (map (fun j => nth j idx 0%nat) indexer) = iloc sub indexer.
Proof.
  intros Hsub Hlt. induction Hlt as [|j indexer Hj _ IH]; [reflexivity|].
  unfold iloc in *. simpl. rewrite IH. f_equal.
  pose proof (f_equal (fun l => nth_error l j) Hsub) as E. simpl in E.
  rewrite !List.nth_error_map in E.
  rewrite (nth_error_nth' idx 0%nat Hj) in E. simpl in E.
  destruct (nth_error sub j); simpl in E; [|discriminate E].
  injection E as ->. reflexivity.
Qed.

Lemma iloc_values {A B} (g : A -> B) (rows : list A) (d : B) (indexer : list nat) :
  Forall (fun j => (j < length rows)%nat) indexer ->
  map g (iloc rows indexer) = map (fun j => nth j (map g rows) d) indexer.
Proof.
  intros Hlt. induction Hlt as [|j indexer Hj _ IH]; [reflexivity|].
  unfold iloc in *. simpl. rewrite List.map_app, IH. 
  destruct (nth_error rows j) as [a|] eqn:E.
  - simpl. f_equal. symmetry. apply nth_error_nth.
    now rewrite List.nth_error_map, E.
  - apply nth_error_None in E. lia.
Qed.

Lemma dropna_filter (s : Series) : map Some (dropna s) = List.filter notna s.
Proof.
  induction s as [|[a|] s IH]; simpl; [reflexivity | now rewrite IH | exact IH].
Qed.

Lemma filter_partition_perm {A} (p : A -> bool) (l : list A) :
  Permutation (List.filter p l ++ List.filter (fun x => negb (p x)) l) l.
Proof.
  induction l as [|x l IH]; simpl; [reflexivity|].
  destruct (p x); simpl.
  - now constructor.
  - rewrite <- Permutation_middle. now constructor.
Qed.

Lemma StronglySorted_snoc {A} (R : A -> A -> Prop) (l : list A) (a : A) :
  StronglySorted R l -> Forall (fun x => R x a) l -> StronglySorted R (l ++ [a]).
Proof.
  induction 1 as [|b l Hs IH Hall]; intros Ha; simpl.
  - repeat constructor.
  - inversion Ha as [|? ? Hba Hla]; subst. constructor; [now apply IH|].
    apply List.Forall_app. split; [exact Hall | now repeat constructor].
Qed.

Lemma StronglySorted_rev {A} (R : A -> A -> Prop) (l : list A) :
  StronglySorted R l -> StronglySorted (fun x y => R y x) (rev l).
Proof.
  induction 1 as [|a l Hs IH Hall]; simpl; [constructor|].
  apply StronglySorted_snoc; [exact IH|]. now apply List.Forall_rev.
Qed.

Lemma Sorted_map_Some (l : list Q) : Sorted Qle l -> Sorted float_le (map Some l).
Proof.
  induction 1 as [|a l Hs IH Hhd]; simpl; constructor; [exact IH|].
  destruct Hhd; simpl; constructor. assumption.
Qed.

Lemma float_le_trans (x y z : float) : float_le x y -> float_le y z -> float_le x z.
Proof.
  destruct x, y, z; simpl; try contradiction. apply Qle_trans.
Qed.

Lemma Sorted_float_rev (l : list float) :
  Sorted float_le l -> Sorted (fun x y => float_le y x) (rev l).
Proof.
  intros H. apply StronglySorted_Sorted, StronglySorted_rev.
  apply Sorted_StronglySorted; [|exact H].
  intros x y z. apply float_le_trans.
Qed.

(** The rows [sort_values] arranges are [worst_first], whatever kernel
    sorts the values. *)
Lemma nargsort_desc_worst_first (argsort : list Q -> list nat) (rows : list KpiRow) :
  argsort_spec argsort ->
  worst_first rows (iloc rows (nargsort_desc argsort (map avg_of rows))).
Proof.
  intros Hspec. unfold nargsort_desc.
  set (items := map avg_of rows).
  set (defined := List.filter (fun r => notna (avg_of r)) rows).
  set (values := dropna items).
  assert (Hvalues : map avg_of defined = map Some values).
  { unfold values, items, defined. rewrite dropna_filter. symmetry. apply filter_map_swap. }
  assert (Hidx : map (nth_error rows) (positions notna items) = map Some defined).
  { apply nth_error_positions. }
  assert (Hlen : length (positions notna items) = length defined).
  { apply (f_equal (@length _)) in Hidx. now rewrite !length_map in Hidx. }
  assert (Hlenv : length values = length defined).
  { apply (f_equal (@length _)) in Hvalues. now rewrite !length_map in Hvalues. }
  destruct (Hspec (rev values)) as [Hperm Hsorted].
  set (order := argsort (rev values)) in *.
  assert (Hlt : Forall (fun j => (j < length (rev defined))%nat) order).
  { apply List.Forall_forall. intros j Hj.
    apply (Permutation_in _ Hperm) in Hj. apply in_seq in Hj.
    rewrite length_rev in *. lia. }
  assert (Hcompose :
            iloc rows (map (fun j => nth j (rev (positions notna items)) 0%nat) order)
            = iloc (rev defined) order).
  { apply iloc_compose.
    - rewrite !List.map_rev. now rewrite Hidx.
    - rewrite length_rev, Hlen, <- (length_rev defined). exact Hlt. }
  rewrite iloc_app, iloc_rev, Hcompose.
  unfold items at 1. rewrite (iloc_positions avg_of (fun x => negb (notna x))).
  set (sorted := rev (iloc (rev defined) order)).
  assert (Hsd : Permutation sorted defined).
  { unfold sorted. rewrite <- Permutation_rev.
    rewrite iloc_perm; [now rewrite <- Permutation_rev|].
    now rewrite length_rev, <- Hlenv, <- (length_rev values). }
  split.
  - rewrite Hsd. apply filter_partition_perm.
  - exists sorted. split; [reflexivity|]. split.
    + apply List.Forall_forall. intros r Hr.
      apply (Permutation_in _ Hsd) in Hr. unfold defined in Hr.
      apply filter_In in Hr. tauto.
    + unfold sorted. rewrite List.map_rev. apply Sorted_float_rev.
      rewrite (iloc_values avg_of (rev defined) (Some 0%Q) order Hlt).
      assert (E : map avg_of (rev defined) = map Some (rev values))
        by (now rewrite !List.map_rev, Hvalues).
      rewrite E.
      rewrite (List.map_ext _ (fun j => Some (nth j (rev values) 0%Q)))
        by (intros j; apply (map_nth Some)).
      rewrite <- List.map_map with (f := fun j => nth j (rev values) 0%Q) (g := Some).
      now apply Sorted_map_Some.
Qed.

(** ** The worst routes *)

Lemma sort_values_desc_allocates (argsort : list Q -> list nat) (h : heap) (l : loc)
    (k : KpiFrame) :
  h !! l = Some (Kpis k) ->
  has_column "avg_delay_min" (k_columns k) = true ->
  allocates (sort_values_desc argsort l "avg_delay_min") h
    (Kpis {| k_index := k_index k; k_columns := k_columns k;
             k_rows := iloc (k_rows k)
                            (nargsort_desc argsort (map avg_of (k_rows k))) |}).
Proof.
  intros Hl Havg. unfold sort_values_desc.
  apply (allocates_read _ _ _ _ _ (load_ok _ _ _ Hl)).
  unfold kpi_column. rewrite Havg.
  apply (allocates_read (lift (Ok (map (kpi_cell "avg_delay_min") (k_rows k)))) _ h
           (map avg_of (k_rows k))); [reflexivity|].
  apply alloc_allocates.
Qed.

Lemma head_allocates (h : heap) (l : loc) (k : KpiFrame) (n : Z) :
  h !! l = Some (Kpis k) ->
  allocates (head l n) h
    (Kpis {| k_index := k_index k; k_columns := k_columns k;
             k_rows := slice_to n (k_rows k) |}).
Proof.
  intros Hl. unfold head.
  apply (allocates_read _ _ _ _ _ (load_ok _ _ _ Hl)). apply alloc_allocates.
Qed.

(** C8, as stated, fails: with topN = -1 three of the four example routes
    are returned, where "the top -1 rows" of any order are none.  (The
    kernel here is the stable one, the most favourable to the claim.) *)
Lemma worst_routes_not_top_n :
  ~ worst_routes_result stable_argsort example_kpi_heap 1%positive (-1)
      (claimed_top_rows (-1) (k_rows example_kpis)) /\
  exists rows,
    worst_routes_result stable_argsort example_kpi_heap 1%positive (-1) rows /\
    map key rows = [[Str "D"]; [Str "A"]; [Str "C"]].
Proof.
  split.
  - intros (l' & h' & o & Hrun & _ & Hl' & Hrows).
    vm_compute in Hrun. injection Hrun as <- <-.
    vm_compute in Hl'. injection Hl' as <-.
    vm_compute in Hrows. discriminate Hrows.
  - eexists. split.
    + do 3 eexists. split; [vm_compute; reflexivity|].
      split; [vm_compute; reflexivity|].
      split; [vm_compute; reflexivity | reflexivity].
    + reflexivity.
Qed.

(** C8, amended: whatever kernel sorts the values, [summarize_worst_routes]
    returns a new table with the first min (topN, number of rows) rows,
    for topN >= 0, of the input rows arranged from the largest average
    delay down, the rows without an average last in their input order; a
    negative topN drops the last -topN rows of that arrangement instead.
    The order among rows of equal average is the kernel's. *)
Theorem worst_routes_sorted (argsort : list Q -> list nat) (h : heap) (l : loc)
    (k : KpiFrame) (top_n : Z) :
  argsort_spec argsort ->
  h !! l = Some (Kpis k) ->
  has_column "avg_delay_min" (k_columns k) = true ->
  exists sorted : list KpiRow,
    worst_first (k_rows k) sorted /\
    worst_routes_result argsort h l top_n (slice_to top_n sorted) /\
    ((0 <= top_n)%Z ->
     slice_to top_n sorted = firstn (Z.to_nat top_n) sorted /\
     length (slice_to top_n sorted) = Nat.min (Z.to_nat top_n) (length (k_rows k))) /\
    ((top_n < 0)%Z ->
     slice_to top_n sorted
     = firstn (length (k_rows k) - Z.to_nat (- top_n)) sorted).
Proof.
  intros Hspec Hl Havg.
  set (sorted := iloc (k_rows k) (nargsort_desc argsort (map avg_of (k_rows k)))).
  pose proof (nargsort_desc_worst_first argsort (k_rows k) Hspec) as Hworst.
  fold sorted in Hworst.
  assert (Hlen : length sorted = length (k_rows k)).
  { destruct Hworst as [Hperm _]. now apply Permutation_length. }
  exists sorted. split; [exact Hworst|]. split; [|split].
  - unfold summarize_worst_routes.
    destruct (sort_values_desc_allocates argsort h l k Hl Havg)
      as (l1 & h1 & Hrun1 & Hsub1 & Hnone1 & Hl1).
    fold sorted in Hl1.
    destruct (allocates_after _ (fun s => head s top_n) _ _ _ _ Hrun1 Hsub1
                (head_allocates h1 l1 _ top_n Hl1))
      as (l2 & h2 & Hrun2 & _ & Hnone2 & Hl2).
    exists l2, h2. eexists. unfold summarize_worst_routes.
    split; [exact Hrun2|]. split; [exact Hnone2|]. split; [exact Hl2 | reflexivity].
  - intros Hpos. unfold slice_to.
    destruct (Z.leb_spec 0 top_n); [|lia].
    split; [reflexivity|]. now rewrite length_firstn, Hlen.
  - intros Hneg. unfold slice_to.
    destruct (Z.leb_spec 0 top_n); [lia|]. now rewrite Hlen.
Qed.

Lemma worst_routes_sorted_witness :
  exists sorted : list KpiRow,
    worst_first (k_rows example_kpis) sorted /\
    worst_routes_result stable_argsort example_kpi_heap 1%positive 2
      (slice_to 2 sorted).
Proof.
  destruct (worst_routes_sorted stable_argsort example_kpi_heap 1%positive
              example_kpis 2 stable_argsort_spec)
    as (sorted & Hworst & Hres & _).
  - reflexivity.
  - reflexivity.
  - exists sorted. split; assumption.
Defined.

(** The order of equal averages is the kernel's: routes A and C have the
    same average, and the two kernels return them in different orders. *)
Example worst_routes_ties :
  (exists l' h' o,
     summarize_worst_routes stable_argsort 1%positive 4 example_kpi_heap = (Ok l', h') /\
     h' !! l' = Some (Kpis o) /\
     map key (k_rows o) = [[Str "D"]; [Str "A"]; [Str "C"]; [Str "B"]]) /\
  (exists l' h' o,
     summarize_worst_routes reversing_argsort 1%positive 4 example_kpi_heap = (Ok l', h') /\
     h' !! l' = Some (Kpis o) /\
     map key (k_rows o) = [[Str "D"]; [Str "C"]; [Str "A"]; [Str "B"]]).
Proof.
  split; do 3 eexists;
    (split; [vm_compute; reflexivity|]);
    (split; [vm_compute; reflexivity | reflexivity]).
Qed.

(** * Further properties *)

(** ** GTFS helpers *)

(** X1: a GTFS route type outside 0..7 is given the mode "bus"; the mode
    is "funicular" for route type 7 only, and "bus" for route type 3 and
    for the types outside 0..7 only. *)
Theorem route_type_mode_default (z : Z) :
  ((z < 0 \/ 7 < z)%Z -> _route_type_to_mode z = "bus") /\
  (_route_type_to_mode z = "funicular" <-> z = 7%Z) /\
  (_route_type_to_mode z = "bus" <-> (z = 3 \/ z < 0 \/ 7 < z)%Z).
Proof.
  destruct (Z_lt_le_dec z 0) as [Hneg|Hpos]; [|destruct (Z_lt_le_dec 7 z) as [Hbig|Hsmall]].
  - assert (E : _route_type_to_mode z = "bus").
    { destruct z; try lia. reflexivity. }
    rewrite E. repeat split; intros; try discriminate; try lia; auto.
  - assert (E : _route_type_to_mode z = "bus").
    { unfold _route_type_to_mode.
      replace (mapping !! z) with (@None string); [reflexivity|].
      symmetry. apply not_elem_of_list_to_map_1. simpl.
      rewrite !elem_of_cons, elem_of_nil. lia. }
    rewrite E. repeat split; intros; try discriminate; try lia; auto.
  - assert (Hz : (z = 0 \/ z = 1 \/ z = 2 \/ z = 3 \/ z = 4 \/ z = 5 \/ z = 6 \/ z = 7)%Z)
      by lia.
    destruct Hz as [->|[->|[->|[->|[->|[->|[->| ->]]]]]]];
      repeat split; intros; try discriminate; try lia; try reflexivity; auto.
Qed.

Lemma route_type_mode_default_witness : _route_type_to_mode 12 = "bus".
Proof. apply (route_type_mode_default 12). right. lia. Defined.

Lemma split_no_sep (sep : Ascii.ascii) (s : string) :
  has_char sep s = false -> split sep s = [s].
Proof.
  induction s as [|c s IH]; simpl; [reflexivity|].
  intros H. apply orb_false_iff in H. destruct H as [Hc Hs].
  rewrite Hc, (IH Hs). reflexivity.
Qed.

Lemma split_cons (sep : Ascii.ascii) (p rest : string) :
  has_char sep p = false ->
  split sep (p ++ String sep rest) = p :: split sep rest.
Proof.
  induction p as [|c p IH]; simpl.
  - intros _. now rewrite Ascii.eqb_refl.
  - intros H. apply orb_false_iff in H. destruct H as [Hc Hp].
    rewrite Hc, (IH Hp). reflexivity.
Qed.

Lemma split_length (sep : Ascii.ascii) (s : string) :
  length (split sep s) = S (count_char sep s).
Proof.
  induction s as [|c s IH]; simpl; [reflexivity|].
  destruct (Ascii.eqb c sep); simpl.
  - now rewrite IH.
  - destruct (split sep s); simpl in *; [discriminate | exact IH].
Qed.

Lemma split_three (h m s : string) :
  has_char ":" h = false -> has_char ":" m = false -> has_char ":" s = false ->
  split ":" (h ++ ":" ++ m ++ ":" ++ s) = [h; m; s].
Proof.
  intros Hh Hm Hs.
  change (h ++ ":" ++ m ++ ":" ++ s) with (h ++ String ":" (m ++ String ":" s)).
  rewrite (split_cons _ _ _ Hh), (split_cons _ _ _ Hm), (split_no_sep _ _ Hs).
  reflexivity.
Qed.

Lemma checked_Timedelta_spec : Timedelta_spec checked_Timedelta.
Proof.
  intros hours minutes seconds value. unfold checked_Timedelta. fold value. split.
  - intros Hh Hm Hs Hv.
    assert (H0 : (0 <= value)%Z) by (unfold value, Timedelta_value; lia).
    destruct (Z.ltb_spec (- 9223372036854775808) value); [|lia].
    destruct (Z.ltb_spec value 9223372036854775808); [reflexivity | lia].
  - intros Hout.
    destruct (Z.ltb_spec (- 9223372036854775808) value);
      destruct (Z.ltb_spec value 9223372036854775808);
      cbn [andb]; try (eexists; reflexivity); lia.
Qed.

(** X2: on a text of three colon-separated fields that [int] accepts,
    [_safe_time_to_timedelta] ends as the constructor pd.Timedelta does on
    the hour folded modulo 24, which lies in 0..23, and on the minutes and
    seconds as parsed: it returns their Timedelta when minutes and seconds
    are not negative and the nanoseconds are below 2^63, a time within one
    day when minutes and seconds are in 0..59, and it raises when the
    nanoseconds do not fit 64 bits.  Two hour fields that agree modulo 24
    give the same outcome. *)
Theorem safe_time_folds_hours (int_of_str : string -> option Z)
    (pd_Timedelta : Z -> Z -> Z -> res timedelta)
    (h m s : string) (H M S : Z) :
  Timedelta_spec pd_Timedelta ->
  has_char ":" h = false -> has_char ":" m = false -> has_char ":" s = false ->
  int_of_str h = Some H -> int_of_str m = Some M -> int_of_str s = Some S ->
  let run := _safe_time_to_timedelta int_of_str pd_Timedelta in
  let value := Timedelta_value (H mod 24)%Z M S in
  run (Str (h ++ ":" ++ m ++ ":" ++ s)) = pd_Timedelta (H mod 24)%Z M S /\
  (0 <= H mod 24 < 24)%Z /\
  ((0 <= M)%Z -> (0 <= S)%Z -> (value < 9223372036854775808)%Z ->
   run (Str (h ++ ":" ++ m ++ ":" ++ s)) = Ok (Timedelta value)) /\
  ((0 <= M < 60)%Z -> (0 <= S < 60)%Z ->
   run (Str (h ++ ":" ++ m ++ ":" ++ s)) = Ok (Timedelta value) /\
   (0 <= value < 86400 * 1000000000)%Z) /\
  ((9223372036854775808 <= value)%Z \/ (value <= - 9223372036854775808)%Z ->
   exists e : exn, run (Str (h ++ ":" ++ m ++ ":" ++ s)) = Raise e) /\
  (forall (h' : string) (H' : Z),
     has_char ":" h' = false -> int_of_str h' = Some H' ->
     (H' mod 24 = H mod 24)%Z ->
     run (Str (h' ++ ":" ++ m ++ ":" ++ s)) = run (Str (h ++ ":" ++ m ++ ":" ++ s))).
Proof.
  intros Hspec Hh Hm Hs EH EM ES run value.
  assert (Hrange : (0 <= H mod 24 < 24)%Z) by (apply Z.mod_pos_bound; lia).
  assert (Hrun : forall h0 H0, has_char ":" h0 = false -> int_of_str h0 = Some H0 ->
                 run (Str (h0 ++ ":" ++ m ++ ":" ++ s)) = pd_Timedelta (H0 mod 24)%Z M S).
  { intros h0 H0 Hh0 EH0. unfold run, _safe_time_to_timedelta.
    rewrite (split_three h0 m s Hh0 Hm Hs), EH0, EM, ES. reflexivity. }
  destruct (Hspec (H mod 24)%Z M S) as [Hok Hraise]. fold value in Hok, Hraise.
  split; [now apply Hrun|]. split; [exact Hrange|].
  split; [|split; [|split]].
  - intros HM HS Hv. rewrite (Hrun h H Hh EH). apply Hok; lia.
  - intros HM HS.
    assert (Hv : (0 <= value < 86400 * 1000000000)%Z)
      by (unfold value, Timedelta_value; lia).
    split; [|exact Hv]. rewrite (Hrun h H Hh EH). apply Hok; lia.
  - intros Hout. rewrite (Hrun h H Hh EH). now apply Hraise.
  - intros h' H' Hh' EH' Hmod.
    rewrite (Hrun h' H' Hh' EH'), (Hrun h H Hh EH), Hmod. reflexivity.
Qed.

Lemma safe_time_folds_hours_witness :
  _safe_time_to_timedelta decimal_int checked_Timedelta (Str "25:10:07")
  = Ok (Timedelta 4207000000000) /\
  (exists e : exn,
     _safe_time_to_timedelta decimal_int checked_Timedelta (Str "00:00:9223372037")
     = Raise e).
Proof.
  split.
  - apply (safe_time_folds_hours decimal_int checked_Timedelta "25" "10" "07" 25 10 7
             checked_Timedelta_spec); try reflexivity; lia.
  - apply (safe_time_folds_hours decimal_int checked_Timedelta "00" "00" "9223372037"
             0 0 9223372037 checked_Timedelta_spec); try reflexivity.
    left. vm_compute. discriminate.
Defined.

(** X3: [_safe_time_to_timedelta] returns NaT, and does not raise, on a
    value that is not a string, on a text whose number of colons is not
    two, and on a text with a field that [int] refuses; the constructor is
    not reached. *)
Theorem safe_time_malformed (int_of_str : string -> option Z)
    (pd_Timedelta : Z -> Z -> Z -> res timedelta) :
  (forall x, _safe_time_to_timedelta int_of_str pd_Timedelta (Flt x) = Ok NaT) /\
  (forall text, count_char ":" text <> 2%nat ->
                _safe_time_to_timedelta int_of_str pd_Timedelta (Str text) = Ok NaT) /\
  (forall h m s,
     has_char ":" h = false -> has_char ":" m = false -> has_char ":" s = false ->
     int_of_str h = None \/ int_of_str m = None \/ int_of_str s = None ->
     _safe_time_to_timedelta int_of_str pd_Timedelta (Str (h ++ ":" ++ m ++ ":" ++ s))
     = Ok NaT).
Proof.
  split; [reflexivity|]. split.
  - intros text Hcount. unfold _safe_time_to_timedelta.
    pose proof (split_length ":" text) as Hlen.
    destruct (split ":" text) as [|a [|b [|c [|d l]]]]; try reflexivity.
    simpl in Hlen. lia.
  - intros h m s Hh Hm Hs Hbad. unfold _safe_time_to_timedelta.
    rewrite (split_three h m s Hh Hm Hs).
    destruct (int_of_str h), (int_of_str m), (int_of_str s); try reflexivity.
    destruct Hbad as [E|[E|E]]; discriminate E.
Qed.

Lemma safe_time_malformed_witness :
  _safe_time_to_timedelta decimal_int checked_Timedelta (Str "07:30") = Ok NaT /\
  _safe_time_to_timedelta decimal_int checked_Timedelta (Str "07:3x:00") = Ok NaT.
Proof.
  destruct (safe_time_malformed decimal_int checked_Timedelta) as (_ & Hcolons & Hfield).
  split.
  - apply Hcolons. vm_compute. discriminate.
  - apply (Hfield "07" "3x" "00"); try reflexivity. right. left. reflexivity.
Defined.

(** ** Cleaning *)

Lemma has_column_with_column (c name : string) (cols : list string) :
  has_column c cols = true -> has_column c (with_column name cols) = true.
Proof.
  intros H. unfold with_column. destruct (has_column name cols); [exact H|].
  rewrite has_column_app, H. reflexivity.
Qed.

Lemma has_with_column (name : string) (cols : list string) :
  has_column name (with_column name cols) = true.
Proof.
  unfold with_column. destruct (has_column name cols) eqn:E; [exact E|].
  rewrite has_column_app. simpl. rewrite String.eqb_refl. apply orb_true_r.
Qed.

Lemma required_present (cols : list string) :
  Forall (fun c => has_column c cols = true) required ->
  List.filter (fun c => negb (has_column c cols)) required = [].
Proof.
  intros H. induction H as [|c l Hc _ IH]; simpl; [reflexivity|].
  now rewrite Hc.
Qed.

Lemma required_missing (cols : list string) (c : string) :
  In c required -> has_column c cols = false ->
  List.filter (fun c => negb (has_column c cols)) required <> [].
Proof.
  intros Hin Hc Hnil.
  assert (Hf : In c (List.filter (fun c => negb (has_column c cols)) required)).
  { apply filter_In. split; [exact Hin | now rewrite Hc]. }
  rewrite Hnil in Hf. destruct Hf.
Qed.

Lemma cleaned_rows_from (rows : list RawEvent) :
  Forall2 cleaned_from (dropna_departures rows)
    (cleaned_rows (dropna_departures rows) (map delay_of (dropna_departures rows))).
Proof.
  induction rows as [|r rows IH]; simpl; [constructor|].
  destruct (scheduled_departure r) as [s|] eqn:Es; [|exact IH].
  destruct (actual_departure r) as [a|] eqn:Ea; [|exact IH].
  simpl. constructor; [|exact IH].
  split; [reflexivity|]. split; [reflexivity|].
  exists a, s. unfold delay_of. rewrite Ea, Es. eexists.
  split; [reflexivity|]. split; [reflexivity|]. split; [reflexivity|].
  set (x := inject_Z (a - s)).
  assert (Hx0 : (x < 0)%Q <-> (a < s)%Z).
  { unfold x. change 0%Q with (inject_Z 0). rewrite <- Zlt_Qlt. lia. }
  assert (Hx1 : (0 < x)%Q <-> (s < a)%Z).
  { unfold x. change 0%Q with (inject_Z 0). rewrite <- Zlt_Qlt. lia. }
  clearbody x. unfold Qdiv.
  change (/ 1000000000)%Q with (1 # 1000000000)%Q.
  change (/ 60)%Q with (1 # 60)%Q.
  split; [ring|]. split.
  - rewrite <- Hx0. split; intros; lra.
  - rewrite <- Hx1. split; intros; lra.
Qed.

Lemma clean_delays_ok (df : RawFrame) :
  Forall (fun c => has_column c (r_columns df) = true) required ->
  clean_delays df =
    Ok {| e_columns := with_column "hour"
                         (with_column "date"
                            (with_column "delay_minutes" (r_columns df)));
          e_rows := cleaned_rows (dropna_departures (r_rows df))
                      (map delay_of (dropna_departures (r_rows df))) |}.
Proof.
  intros Hreq. unfold clean_delays. rewrite (required_present _ Hreq).
  unfold _compute_delay_minutes. cbn [r_columns r_rows].
  assert (Ha : has_column "actual_departure" (r_columns df) = true).
  { rewrite List.Forall_forall in Hreq. apply Hreq. simpl. tauto. }
  assert (Hs : has_column "scheduled_departure" (r_columns df) = true).
  { rewrite List.Forall_forall in Hreq. apply Hreq. simpl. tauto. }
  rewrite Ha, Hs. reflexivity.
Qed.

(** X4: [clean_delays] returns a table when the five required columns
    are there, with the columns delay_minutes, date and hour added, and it
    ends in a KeyError as soon as one of the five is missing. *)
Theorem clean_delays_requires_columns (df : RawFrame) :
  (Forall (fun c => has_column c (r_columns df) = true) required ->
   exists f, clean_delays df = Ok f /\
             has_column "delay_minutes" (e_columns f) = true /\
             has_column "date" (e_columns f) = true /\
             has_column "hour" (e_columns f) = true /\
             forall c, has_column c (r_columns df) = true ->
                       has_column c (e_columns f) = true) /\
  (forall c, In c required -> has_column c (r_columns df) = false ->
             exists msg, clean_delays df = Raise (KeyError msg)).
Proof.
  split.
  - intros Hreq. eexists. split; [apply (clean_delays_ok df Hreq)|].
    cbn [e_columns]. split; [|split; [|split]].
    + do 2 apply has_column_with_column. apply has_with_column.
    + apply has_column_with_column. apply has_with_column.
    + apply has_with_column.
    + intros c Hc. now do 3 apply has_column_with_column.
  - intros c Hin Hc. unfold clean_delays.
    pose proof (required_missing _ c Hin Hc) as Hne.
    destruct (List.filter _ required); [congruence|]. eexists. reflexivity.
Qed.

Lemma clean_delays_requires_columns_witness :
  (exists f, clean_delays example_raw = Ok f /\
             has_column "delay_minutes" (e_columns f) = true /\
             has_column "date" (e_columns f) = true /\
             has_column "hour" (e_columns f) = true /\
             forall c, has_column c (r_columns example_raw) = true ->
                       has_column c (e_columns f) = true) /\
  (exists msg,
     clean_delays {| r_columns := ["timestamp"; "route_id"]; r_rows := [] |}
     = Raise (KeyError msg)).
Proof.
  split.
  - apply (proj1 (clean_delays_requires_columns example_raw)).
    repeat constructor.
  - apply (proj2 (clean_delays_requires_columns
                    {| r_columns := ["timestamp"; "route_id"]; r_rows := [] |})
             "trip_id").
    + simpl. tauto.
    + reflexivity.
Defined.

(** X5: the rows of the cleaned table are the raw rows that have both
    departure times, in their order, each with the delay
    (actual - scheduled) in minutes, which is defined, negative exactly
    for an early departure and never clamped, and with the hour of its
    timestamp. *)
Theorem clean_delays_rows (df : RawFrame) :
  Forall (fun c => has_column c (r_columns df) = true) required ->
  exists f,
    clean_delays df = Ok f /\
    Forall2 cleaned_from (dropna_departures (r_rows df)) (e_rows f) /\
    length (e_rows f) = length (dropna_departures (r_rows df)) /\
    Forall (fun e => notna (delay_minutes e) = true) (e_rows f).
Proof.
  intros Hreq. eexists. split; [apply (clean_delays_ok df Hreq)|].
  cbn [e_rows]. pose proof (cleaned_rows_from (r_rows df)) as Hall.
  split; [exact Hall|]. split.
  - symmetry. now apply (Forall2_length_eq cleaned_from).
  - induction Hall as [|r e rs es (_ & _ & a & s & d & _ & _ & Hd & _) _ IH];
      constructor; [|exact IH].
    now rewrite Hd.
Qed.

Lemma clean_delays_rows_witness :
  exists f,
    clean_delays example_raw = Ok f /\
    Forall2 cleaned_from (dropna_departures (r_rows example_raw)) (e_rows f) /\
    length (e_rows f) = length (dropna_departures (r_rows example_raw)) /\
    Forall (fun e => notna (delay_minutes e) = true) (e_rows f).
Proof.
  apply (clean_delays_rows example_raw). repeat constructor.
Defined.

(** ** Group keys *)

Lemma pyfloat_eqb_refl (x : pyfloat) : pyfloat_eqb x x = true.
Proof. destruct x as [|[]|q]; simpl; try reflexivity. apply Qeq_bool_refl. Qed.

Lemma pyfloat_eqb_comm (x y : pyfloat) : pyfloat_eqb x y = pyfloat_eqb y x.
Proof.
  destruct x as [|[]|p], y as [|[]|q]; simpl; try reflexivity. apply Qeq_bool_comm.
Qed.

Lemma pyfloat_eqb_trans (x y z : pyfloat) :
  pyfloat_eqb x y = true -> pyfloat_eqb y z = true -> pyfloat_eqb x z = true.
Proof.
  destruct x as [|[]|p], y as [|[]|q], z as [|[]|r]; simpl;
    try discriminate; try reflexivity. apply Qeq_bool_trans.
Qed.

Lemma scalar_eqb_refl (a : scalar) : scalar_eqb a a = true.
Proof. destruct a; simpl; [apply String.eqb_refl | apply pyfloat_eqb_refl]. Qed.

Lemma scalar_eqb_comm (a b : scalar) : scalar_eqb a b = scalar_eqb b a.
Proof.
  destruct a, b; simpl; try reflexivity;
    [apply String.eqb_sym | apply pyfloat_eqb_comm].
Qed.

Lemma scalar_eqb_trans (a b c : scalar) :
  scalar_eqb a b = true -> scalar_eqb b c = true -> scalar_eqb a c = true.
Proof.
  destruct a, b, c; simpl; try discriminate.
  - intros H1 H2. apply String.eqb_eq in H1, H2. subst. apply String.eqb_refl.
  - apply pyfloat_eqb_trans.
Qed.

Lemma key_eqb_refl (k : list scalar) : key_eqb k k = true.
Proof. induction k as [|a k IH]; simpl; [reflexivity|]. now rewrite scalar_eqb_refl. Qed.

Lemma key_eqb_comm (k1 k2 : list scalar) : key_eqb k1 k2 = key_eqb k2 k1.
Proof.
  revert k2. induction k1 as [|a k1 IH]; intros [|b k2]; simpl; try reflexivity.
  now rewrite scalar_eqb_comm, IH.
Qed.

Lemma key_eqb_trans (k1 k2 k3 : list scalar) :
  key_eqb k1 k2 = true -> key_eqb k2 k3 = true -> key_eqb k1 k3 = true.
Proof.
  revert k2 k3. induction k1 as [|a k1 IH]; intros [|b k2] [|c k3]; simpl;
    try discriminate; try reflexivity.
  intros H1 H2. apply andb_true_iff in H1, H2.
  destruct H1 as [Hab H1], H2 as [Hbc H2]. apply andb_true_iff. split.
  - now apply (scalar_eqb_trans a b c).
  - now apply (IH k2 k3).
Qed.

(** The number of keys of [ks] that are the key [x]. *)
Lemma filter_length_perm {A} (p : A -> bool) (l l' : list A) :
  Permutation l l' -> length (List.filter p l) = length (List.filter p l').
Proof.
  induction 1 as [|x l l' _ IH|x y l|l l' l'' _ IH1 _ IH2]; simpl.
  - reflexivity.
  - destruct (p x); simpl; congruence.
  - destruct (p x), (p y); reflexivity.
  - congruence.
Qed.

Lemma dedup_count (x : list scalar) (ks : list (list scalar)) :
  length (List.filter (key_eqb x) (dedup ks))
  = if existsb (key_eqb x) ks then 1%nat else 0%nat.
Proof.
  induction ks as [|k ks IH]; [reflexivity|].
  cbn [dedup existsb List.filter].
  set (D := dedup ks) in *.
  destruct (key_eqb x k) eqn:Exk; cbn [orb length].
  - f_equal. clear IH. induction D as [|y D IHD]; [reflexivity|].
    cbn [List.filter]. destruct (key_eqb y k) eqn:Eyk; cbn [negb]; [exact IHD|].
    cbn [List.filter]. destruct (key_eqb x y) eqn:Exy; [|exact IHD].
    exfalso. rewrite key_eqb_comm in Exy.
    rewrite (key_eqb_trans y x k Exy Exk) in Eyk. discriminate Eyk.
  - rewrite <- IH. clear IH. induction D as [|y D IHD]; [reflexivity|].
    cbn [List.filter]. destruct (key_eqb y k) eqn:Eyk; cbn [negb].
    + destruct (key_eqb x y) eqn:Exy; [|exact IHD].
      exfalso. rewrite (key_eqb_trans x y k Exy Eyk) in Exk. discriminate Exk.
    + cbn [List.filter]. destruct (key_eqb x y); cbn [length]; now rewrite IHD.
Qed.

Lemma dedup_In (k : list scalar) (ks : list (list scalar)) :
  In k (dedup ks) -> In k ks.
Proof.
  induction ks as [|k0 ks IH]; [intros []|].
  cbn [dedup]. intros [->|H]; [now left|].
  right. apply IH. apply filter_In in H. tauto.
Qed.

Lemma group_keys_In (keys : list string) (rows : list Event) (k : list scalar) :
  In k (group_keys keys rows) -> exists r, In r rows /\ key_of keys r = k.
Proof.
  intros H. unfold group_keys in H.
  apply (Permutation_in _ (isort_perm key_leb _)) in H.
  apply dedup_In, in_map_iff in H. destruct H as (r & Hr & Hin). now exists r.
Qed.

Lemma group_keys_count (keys : list string) (rows : list Event) (x : list scalar) :
  length (List.filter (key_eqb x) (group_keys keys rows))
  = if existsb (key_eqb x) (map (key_of keys) rows) then 1%nat else 0%nat.
Proof.
  unfold group_keys.
  rewrite (filter_length_perm _ _ _ (isort_perm key_leb _)). apply dedup_count.
Qed.

Lemma group_keys_count_row (keys : list string) (rows : list Event) (r : Event) :
  In r rows ->
  length (List.filter (key_eqb (key_of keys r)) (group_keys keys rows)) = 1%nat.
Proof.
  intros Hin. rewrite group_keys_count.
  replace (existsb _ _) with true; [reflexivity|].
  symmetry. apply existsb_exists. exists (key_of keys r).
  split; [now apply in_map | apply key_eqb_refl].
Qed.

(** ** Every event in one group *)

Lemma list_sum_map_add {A} (a b : A -> nat) (l : list A) :
  list_sum (map (fun x => a x + b x)%nat l)
  = (list_sum (map a l) + list_sum (map b l))%nat.
Proof. induction l as [|x l IH]; simpl; [reflexivity|]. rewrite IH. lia. Qed.

Lemma list_sum_map_if {A} (p : A -> bool) (w : nat) (l : list A) :
  list_sum (map (fun x => if p x then w else 0%nat) l)
  = (w * length (List.filter p l))%nat.
Proof.
  induction l as [|x l IH]; simpl; [lia|].
  rewrite IH. destruct (p x); simpl; lia.
Qed.

(** The number of non-null delays of some rows. *)
Lemma observed_cons (r : Event) (rows : list Event) :
  length (dropna (map delay_minutes (r :: rows)))
  = ((if notna (delay_minutes r) then 1 else 0)
     + length (dropna (map delay_minutes rows)))%nat.
Proof. simpl. destruct (delay_minutes r); reflexivity. Qed.

Lemma groups_partition (keys : list string) (ks : list (list scalar))
    (rows : list Event) :
  (forall r, In r rows ->
     length (List.filter (key_eqb (key_of keys r)) ks) = 1%nat) ->
  list_sum (map (fun k =>
              length (dropna (map delay_minutes
                (List.filter (fun r => key_eqb (key_of keys r) k) rows)))) ks)
  = length (dropna (map delay_minutes rows)).
Proof.
  induction rows as [|r rows IH]; intros Hone.
  - simpl. clear Hone. induction ks; simpl; auto.
  - set (w := (if notna (delay_minutes r) then 1 else 0)%nat).
    rewrite (List.map_ext _
               (fun k => ((if key_eqb (key_of keys r) k then w else 0)
                          + length (dropna (map delay_minutes
                              (List.filter (fun r => key_eqb (key_of keys r) k) rows))))%nat)).
    + rewrite list_sum_map_add, list_sum_map_if, (Hone r (or_introl eq_refl)).
      rewrite IH by (intros r' Hr'; apply Hone; now right).
      rewrite observed_cons. fold w. lia.
    + intros k. cbn [List.filter].
      destruct (key_eqb (key_of keys r) k); [|reflexivity].
      exact (observed_cons r _).
Qed.

Lemma _group_kpis_n_events (group : EventFrame) (thr : Q) (st : GroupKpis) :
  _group_kpis group thr = Ok st ->
  n_events st = Z.of_nat (length (dropna (map delay_minutes (e_rows group)))).
Proof.
  unfold _group_kpis. destruct (has_column _ _); [|discriminate]. cbn [negb].
  destruct (dropna (map delay_minutes (e_rows group))); intros [= <-]; reflexivity.
Qed.

Lemma kpi_table_total (keys : list string) (f : EventFrame) (thr : Q) (o : KpiFrame) :
  kpi_table_of keys f thr o ->
  total_events (k_rows o)
  = Z.of_nat (length (dropna (map delay_minutes (e_rows f)))).
Proof.
  intros (_ & _ & Hall).
  rewrite <- (groups_partition keys (group_keys keys (e_rows f)) (e_rows f))
    by (intros r Hr; now apply group_keys_count_row).
  unfold total_events.
  induction Hall as [|k r ks rs (_ & Hst & _) _ IH]; [reflexivity|].
  cbn [map fold_right list_sum]. rewrite IH, Nat2Z.inj_add.
  now rewrite (_group_kpis_n_events _ _ _ Hst).
Qed.

Lemma assign_labels_delays (rows : list Event) (labels : list string) :
  length labels = length rows ->
  map delay_minutes (assign_labels rows labels) = map delay_minutes rows.
Proof.
  revert labels. induction rows as [|r rows IH]; intros [|s labels] H;
    simpl in *; try reflexivity; try discriminate.
  f_equal. apply IH. congruence.
Qed.

Lemma map_res_length {A B} (f : A -> res B) (l : list A) (ys : list B) :
  map_res f l = Ok ys -> length ys = length l.
Proof.
  revert ys. induction l as [|x l IH]; simpl; intros ys H.
  - now injection H as <-.
  - destruct (f x); [|discriminate]. simpl in H.
    destruct (map_res f l) as [zs|]; [|discriminate]. simpl in H.
    injection H as <-. simpl. f_equal. now apply IH.
Qed.

(** X6: on an accepted table with at least one event, the n_events of
    the rows that each of the three operations returns add up to the
    number of events of the table with a non-null delay: every such event
    is counted in one group and in one only. *)
Theorem events_conserved (h : heap) (df : loc) (f : EventFrame) (thr : Q) :
  h !! df = Some (Events f) ->
  valid_events f ->
  e_rows f <> [] ->
  let n := length (dropna (map delay_minutes (e_rows f))) in
  returns_counting (compute_route_kpis df thr) h n /\
  returns_counting (compute_route_hour_kpis df thr) h n /\
  returns_counting (compute_route_period_kpis df thr) h n.
Proof.
  intros Hdf Hvalid Hne n. pose proof Hvalid as (Hroute & Hdelay & Hhour & Hfin).
  split; [|split].
  - destruct (compute_route_kpis_allocates h df f thr Hdf Hroute Hdelay Hne)
      as (o & Ho & _ & l' & h' & Hrun & _ & _ & Hl').
    exists l', h', o. split; [exact Hrun|]. split; [exact Hl'|].
    apply (kpi_table_total _ _ _ _ Ho).
  - destruct (compute_route_hour_kpis_allocates h df f thr Hdf Hroute Hdelay Hhour Hne)
      as (o & Ho & _ & l' & h' & Hrun & _ & _ & Hl').
    exists l', h', o. split; [exact Hrun|]. split; [exact Hl'|].
    apply (kpi_table_total _ _ _ _ Ho).
  - destruct (compute_route_period_kpis_allocates h df f thr Hdf Hvalid Hne)
      as (labels & o & Hlabels & Ho & _ & l' & h' & Hrun & _ & _ & Hl').
    exists l', h', o. split; [exact Hrun|]. split; [exact Hl'|].
    rewrite (kpi_table_total _ _ _ _ Ho). cbn [bucketed e_rows].
    rewrite assign_labels_delays; [reflexivity|].
    apply map_res_length in Hlabels. now rewrite length_map in Hlabels.
Qed.

Lemma events_conserved_witness :
  returns_counting (compute_route_kpis 1%positive 1) example_heap 2 /\
  returns_counting (compute_route_hour_kpis 1%positive 1) example_heap 2 /\
  returns_counting (compute_route_period_kpis 1%positive 1) example_heap 2.
Proof.
  apply (events_conserved example_heap 1%positive example_events 1).
  - reflexivity.
  - exact example_events_valid.
  - discriminate.
Defined.

Lemma kpi_table_keys (keys : list string) (f : EventFrame) (thr : Q) (o : KpiFrame) :
  kpi_table_of keys f thr o -> map key (k_rows o) = group_keys keys (e_rows f).
Proof.
  intros (_ & _ & Hall).
  induction Hall as [|k r ks rs (Hk & _) _ IH]; simpl; [reflexivity|].
  now rewrite Hk, IH.
Qed.

Lemma filter_map_length {A B} (g : A -> B) (p : B -> bool) (l : list A) :
  length (List.filter (fun x => p (g x)) l) = length (List.filter p (map g l)).
Proof. now rewrite filter_map_swap, length_map. Qed.

Lemma kpi_table_one_row_per_key (keys : list string) (f : EventFrame) (thr : Q)
    (o : KpiFrame) :
  kpi_table_of keys f thr o ->
  (forall r, In r (k_rows o) ->
     length (List.filter (fun r' => key_eqb (key r') (key r)) (k_rows o)) = 1%nat) /\
  (forall e, In e (e_rows f) ->
     exists r, In r (k_rows o) /\ key_eqb (key_of keys e) (key r) = true).
Proof.
  intros Ho. pose proof (kpi_table_keys _ _ _ _ Ho) as Hkeys. split.
  - intros r Hr.
    rewrite (List.filter_ext _ (fun r' => key_eqb (key r) (key r')))
      by (intros r'; apply key_eqb_comm).
    rewrite (filter_map_length key (key_eqb (key r))), Hkeys, group_keys_count.
    assert (Hin : In (key r) (group_keys keys (e_rows f))).
    { rewrite <- Hkeys. now apply in_map. }
    apply group_keys_In in Hin. destruct Hin as (e & He & Hke).
    replace (existsb _ _) with true; [reflexivity|].
    symmetry. apply existsb_exists. exists (key_of keys e).
    split; [now apply in_map|]. rewrite Hke. apply key_eqb_refl.
  - intros e He. pose proof (group_keys_count_row keys (e_rows f) e He) as Hone.
    destruct (List.filter (key_eqb (key_of keys e)) (group_keys keys (e_rows f)))
      as [|k ks] eqn:E; [discriminate Hone|].
    assert (Hk : In k (List.filter (key_eqb (key_of keys e)) (group_keys keys (e_rows f))))
      by (rewrite E; now left).
    apply filter_In in Hk. destruct Hk as [Hk Hmatch].
    rewrite <- Hkeys in Hk. apply in_map_iff in Hk. destruct Hk as (r & <- & Hr).
    now exists r.
Qed.

(** X7: in the table each of the three operations returns, every group
    key occurs in one row only, and every event of the grouped table has
    the row of its key: the route of the event, with its hour or its
    time-of-day label. *)
Theorem one_row_per_key (h : heap) (df : loc) (f : EventFrame) (thr : Q) :
  h !! df = Some (Events f) ->
  valid_events f ->
  e_rows f <> [] ->
  returns_one_row_per_key (compute_route_kpis df thr) h ["route_id"] f /\
  returns_one_row_per_key (compute_route_hour_kpis df thr) h ["route_id"; "hour"] f /\
  (exists labels,
     map_res _bucket (map hour (e_rows f)) = Ok labels /\
     returns_one_row_per_key (compute_route_period_kpis df thr) h
       ["route_id"; "time_of_day"] (bucketed f labels)).
Proof.
  intros Hdf Hvalid Hne. pose proof Hvalid as (Hroute & Hdelay & Hhour & Hfin).
  split; [|split].
  - destruct (compute_route_kpis_allocates h df f thr Hdf Hroute Hdelay Hne)
      as (o & Ho & _ & l' & h' & Hrun & _ & _ & Hl').
    exists l', h', o. split; [exact Hrun|]. split; [exact Hl'|].
    apply (kpi_table_one_row_per_key _ _ _ _ Ho).
  - destruct (compute_route_hour_kpis_allocates h df f thr Hdf Hroute Hdelay Hhour Hne)
      as (o & Ho & _ & l' & h' & Hrun & _ & _ & Hl').
    exists l', h', o. split; [exact Hrun|]. split; [exact Hl'|].
    apply (kpi_table_one_row_per_key _ _ _ _ Ho).
  - destruct (compute_route_period_kpis_allocates h df f thr Hdf Hvalid Hne)
      as (labels & o & Hlabels & Ho & _ & l' & h' & Hrun & _ & _ & Hl').
    exists labels. split; [exact Hlabels|].
    exists l', h', o. split; [exact Hrun|]. split; [exact Hl'|].
    apply (kpi_table_one_row_per_key _ _ _ _ Ho).
Qed.

Lemma one_row_per_key_witness :
  returns_one_row_per_key (compute_route_kpis 1%positive 1) example_heap
    ["route_id"] example_events.
Proof.
  apply (one_row_per_key example_heap 1%positive example_events 1).
  - reflexivity.
  - exact example_events_valid.
  - discriminate.
Defined.

(** ** Cleaning, then aggregating *)

Lemma hour_of_clock (t : option Z) : clock_hour (hour_of t).
Proof.
  destruct t as [ns|]; [|now left]. right.
  exists ((ns / 3600000000000) mod 24)%Z. split; [|reflexivity].
  pose proof (Z.mod_pos_bound (ns / 3600000000000) 24). lia.
Qed.

Lemma clock_hour_finite (x : pyfloat) :
  clock_hour x -> forall negative, x <> PInf negative.
Proof. intros [->|(z & _ & ->)] negative; discriminate. Qed.

Lemma cleaned_rows_hours (rows : list RawEvent) (delay : Series) :
  Forall (fun e => clock_hour (hour e)) (cleaned_rows rows delay).
Proof.
  revert delay. induction rows as [|r rows IH]; intros [|d delay]; simpl;
    constructor; [apply hour_of_clock | apply IH].
Qed.

Lemma cleaned_rows_defined (rows : list RawEvent) :
  Forall (fun e => notna (delay_minutes e) = true)
    (cleaned_rows (dropna_departures rows) (map delay_of (dropna_departures rows))).
Proof.
  pose proof (cleaned_rows_from rows) as Hall.
  induction Hall as [|r e rs es (_ & _ & a & s & d & _ & _ & Hd & _) _ IH];
    constructor; [now rewrite Hd | exact IH].
Qed.

Lemma clean_delays_valid (df : RawFrame) (f : EventFrame) :
  Forall (fun c => has_column c (r_columns df) = true) required ->
  clean_delays df = Ok f ->
  valid_events f /\ Forall (fun e => clock_hour (hour e)) (e_rows f) /\
  Forall (fun e => notna (delay_minutes e) = true) (e_rows f).
Proof.
  intros Hreq Hrun. rewrite (clean_delays_ok df Hreq) in Hrun. injection Hrun as <-.
  cbn [e_columns e_rows].
  pose proof (cleaned_rows_hours (dropna_departures (r_rows df))
                (map delay_of (dropna_departures (r_rows df)))) as Hhours.
  split; [|split; [exact Hhours|]].
  - split; [|split; [|split]].
    + do 3 apply has_column_with_column.
      rewrite List.Forall_forall in Hreq. apply Hreq. simpl. tauto.
    + do 2 apply has_column_with_column. apply has_with_column.
    + apply has_with_column.
    + eapply List.Forall_impl; [|exact Hhours]. intros e. apply clock_hour_finite.
  - apply cleaned_rows_defined.
Qed.

Lemma bucket_of_hour_known (z : Z) : bucket_of_hour z <> "Unknown".
Proof.
  unfold bucket_of_hour.
  destruct (_ && _)%bool; [discriminate|].
  destruct (_ && _)%bool; [discriminate|].
  destruct (_ && _)%bool; discriminate.
Qed.

(** X8: every hour of a cleaned table is null or an integer of 0..23,
    so the bucketer never raises on cleaned data: it labels every event,
    "Unknown" exactly for the events without a timestamp. *)
Theorem cleaned_hours_bucket (df : RawFrame) :
  Forall (fun c => has_column c (r_columns df) = true) required ->
  exists f,
    clean_delays df = Ok f /\
    Forall (fun e => clock_hour (hour e) /\
                     exists label, _bucket (hour e) = Ok label /\
                                   (label = "Unknown" <-> hour e = PNaN))
           (e_rows f) /\
    Forall2 (fun r e => hour e = PNaN <-> timestamp r = None)
            (dropna_departures (r_rows df)) (e_rows f).
Proof.
  intros Hreq. eexists. split; [apply (clean_delays_ok df Hreq)|].
  cbn [e_rows]. split.
  - eapply List.Forall_impl;
      [|apply (cleaned_rows_hours (dropna_departures (r_rows df)))].
    intros e Hclock. split; [exact Hclock|].
    destruct Hclock as [->|(z & _ & ->)].
    + exists "Unknown". split; [reflexivity|]. tauto.
    + eexists. split; [apply _bucket_finite|].
      split; [intros E; now apply bucket_of_hour_known in E | discriminate].
  - pose proof (cleaned_rows_from (r_rows df)) as Hall.
    induction Hall as [|r e rs es (_ & Hh & _) _ IH]; constructor; [|exact IH].
    rewrite Hh. destruct (timestamp r); simpl; split; intros; congruence.
Qed.

Lemma cleaned_hours_bucket_witness :
  exists f,
    clean_delays example_raw = Ok f /\
    Forall (fun e => clock_hour (hour e) /\
                     exists label, _bucket (hour e) = Ok label /\
                                   (label = "Unknown" <-> hour e = PNaN))
           (e_rows f) /\
    Forall2 (fun r e => hour e = PNaN <-> timestamp r = None)
            (dropna_departures (r_rows example_raw)) (e_rows f).
Proof.
  apply (cleaned_hours_bucket example_raw). repeat constructor.
Defined.

Lemma get_group_nonempty (keys : list string) (f : EventFrame) (k : list scalar) :
  In k (group_keys keys (e_rows f)) -> e_rows (get_group keys f k) <> [].
Proof.
  intros Hk Hnil. apply group_keys_In in Hk. destruct Hk as (r & Hr & <-).
  assert (Hin : In r (e_rows (get_group keys f (key_of keys r)))).
  { cbn [get_group e_rows]. apply filter_In. split; [exact Hr | apply key_eqb_refl]. }
  rewrite Hnil in Hin. destruct Hin.
Qed.

Lemma dropna_all_defined (rows : list Event) :
  Forall (fun e => notna (delay_minutes e) = true) rows ->
  rows <> [] -> dropna (map delay_minutes rows) <> [].
Proof.
  intros Hall Hne. destruct Hall as [|e rows He _]; [congruence|].
  simpl. destruct (delay_minutes e); [discriminate | discriminate He].
Qed.

Lemma group_row_defined (keys : list string) (f : EventFrame) (thr : Q)
    (k : list scalar) (r : KpiRow) :
  Forall (fun e => notna (delay_minutes e) = true) (e_rows f) ->
  In k (group_keys keys (e_rows f)) ->
  group_row keys f thr k r -> fully_defined r.
Proof.
  intros Hall Hk Hrow.
  pose proof (group_row_in_range keys f thr k r Hrow) as Hscore.
  destruct Hrow as (_ & Hst & _).
  assert (Hne : dropna (map delay_minutes (e_rows (get_group keys f k))) <> []).
  { apply dropna_all_defined; [|now apply get_group_nonempty].
    cbn [get_group e_rows]. rewrite List.Forall_forall in *.
    intros e He. apply filter_In in He. apply Hall. tauto. }
  assert (Hc : has_column "delay_minutes" (e_columns (get_group keys f k)) = true).
  { unfold _group_kpis in Hst. destruct (has_column _ _); [reflexivity | discriminate]. }
  pose proof (_group_kpis_nonempty (get_group keys f k) thr Hc) as Hrun.
  cbv zeta in Hrun.
  destruct (dropna (map delay_minutes (e_rows (get_group keys f k)))) as [|d l];
    [congruence|].
  rewrite (Hrun Hne) in Hst. injection Hst as Hst.
  unfold fully_defined. rewrite <- Hst.
  cbn [avg_delay_min p90_delay_min on_time_rate n_events length].
  split; [lia|].
  split; [reflexivity|]. split; [reflexivity|]. split; [reflexivity | exact Hscore].
Qed.

Lemma group_rows_defined (keys : list string) (f : EventFrame) (thr : Q)
    (ks : list (list scalar)) (rs : list KpiRow) :
  Forall (fun e => notna (delay_minutes e) = true) (e_rows f) ->
  (forall k, In k ks -> In k (group_keys keys (e_rows f))) ->
  Forall2 (group_row keys f thr) ks rs -> Forall fully_defined rs.
Proof.
  intros Hall Hks Hrows.
  induction Hrows as [|k r ks rs Hr _ IH]; constructor.
  - apply (group_row_defined keys f thr k r Hall); [apply Hks; now left | exact Hr].
  - apply IH. intros k' Hk'. apply Hks. now right.
Qed.

Lemma kpi_table_defined (keys : list string) (f : EventFrame) (thr : Q) (o : KpiFrame) :
  Forall (fun e => notna (delay_minutes e) = true) (e_rows f) ->
  kpi_table_of keys f thr o -> Forall fully_defined (k_rows o).
Proof.
  intros Hall (_ & _ & Hrows).
  now apply (group_rows_defined keys f thr (group_keys keys (e_rows f))).
Qed.

Lemma assign_labels_defined (rows : list Event) (labels : list string) :
  Forall (fun e => notna (delay_minutes e) = true) rows ->
  Forall (fun e => notna (delay_minutes e) = true) (assign_labels rows labels).
Proof.
  intros Hall. revert labels.
  induction Hall as [|r rows Hr _ IH]; intros [|s labels]; simpl; constructor;
    [exact Hr | apply IH].
Qed.

(** X9: a raw table with the required columns and at least one event
    that has both departure times is cleaned into a table on which each
    of the three operations returns its KPI table, and in these tables no
    statistic is undefined: every row counts at least one event and has
    its average, its 90th percentile, its on-time rate and a score in
    [0, 100]. *)
Theorem cleaned_table_kpis (df : RawFrame) (h : heap) (l : loc) (thr : Q) :
  Forall (fun c => has_column c (r_columns df) = true) required ->
  dropna_departures (r_rows df) <> [] ->
  exists f,
    clean_delays df = Ok f /\
    (h !! l = Some (Events f) ->
     returns_defined_table (compute_route_kpis l thr) h /\
     returns_defined_table (compute_route_hour_kpis l thr) h /\
     returns_defined_table (compute_route_period_kpis l thr) h).
Proof.
  intros Hreq Hrows.
  pose proof (clean_delays_ok df Hreq) as Hrun.
  set (f := {| e_columns := with_column "hour"
                             (with_column "date"
                                (with_column "delay_minutes" (r_columns df)));
               e_rows := cleaned_rows (dropna_departures (r_rows df))
                           (map delay_of (dropna_departures (r_rows df))) |}) in *.
  exists f. split; [exact Hrun|]. intros Hl.
  destruct (clean_delays_valid df f Hreq Hrun) as (Hvalid & _ & Hdef).
  pose proof Hvalid as (Hroute & Hdelay & Hhour & Hfin).
  assert (Hne : e_rows f <> []).
  { cbn [f e_rows]. intros Hnil.
    pose proof (Forall2_length_eq _ _ _ (cleaned_rows_from (r_rows df))) as Hlen.
    rewrite Hnil in Hlen. destruct (dropna_departures (r_rows df)); [congruence|].
    discriminate Hlen. }
  clearbody f.
  split; [|split].
  - destruct (compute_route_kpis_allocates h l f thr Hl Hroute Hdelay Hne)
      as (o & Ho & Hnonempty & l' & h' & Hrun' & _ & _ & Hl').
    exists l', h', o. split; [exact Hrun'|]. split; [exact Hl'|].
    split; [exact Hnonempty|]. now apply (kpi_table_defined _ _ _ _ Hdef Ho).
  - destruct (compute_route_hour_kpis_allocates h l f thr Hl Hroute Hdelay Hhour Hne)
      as (o & Ho & Hnonempty & l' & h' & Hrun' & _ & _ & Hl').
    exists l', h', o. split; [exact Hrun'|]. split; [exact Hl'|].
    split; [exact Hnonempty|]. now apply (kpi_table_defined _ _ _ _ Hdef Ho).
  - destruct (compute_route_period_kpis_allocates h l f thr Hl Hvalid Hne)
      as (labels & o & _ & Ho & Hnonempty & l' & h' & Hrun' & _ & _ & Hl').
    exists l', h', o. split; [exact Hrun'|]. split; [exact Hl'|].
    split; [exact Hnonempty|].
    apply (kpi_table_defined ["route_id"; "time_of_day"] (bucketed f labels) thr o);
      [|exact Ho].
    cbn [bucketed e_rows]. now apply assign_labels_defined.
Qed.

Lemma cleaned_table_kpis_witness :
  clean_delays example_raw = Ok example_cleaned /\
  returns_defined_table (compute_route_kpis 1%positive 1) heap_of_cleaned /\
  returns_defined_table (compute_route_hour_kpis 1%positive 1) heap_of_cleaned /\
  returns_defined_table (compute_route_period_kpis 1%positive 1) heap_of_cleaned.
Proof.
  destruct (cleaned_table_kpis example_raw heap_of_cleaned 1%positive 1)
    as (f & Hf & Hrun).
  - repeat constructor.
  - discriminate.
  - assert (E : f = example_cleaned).
    { unfold example_cleaned. now rewrite Hf. }
    subst f. split; [exact Hf|]. apply Hrun. reflexivity.
Defined.

(** ** More on the statistics of one group *)

Lemma count_at_most_all (t : Q) (l : list Q) :
  count_at_most t l = length l <-> Forall (fun d => (d <= t)%Q) l.
Proof.
  induction l as [|d l IH]; simpl.
  - split; [constructor | reflexivity].
  - pose proof (count_at_most_le_length t l) as Hle.
    destruct (Qlt_le_dec t d) as [H|H]; split.
    + intros E. lia.
    + intros Hall. inversion Hall; subst. lra.
    + intros E. constructor; [exact H|]. apply IH. lia.
    + intros Hall. inversion Hall; subst. f_equal. now apply IH.
Qed.

Lemma count_at_most_none (t : Q) (l : list Q) :
  count_at_most t l = 0%nat <-> Forall (fun d => (t < d)%Q) l.
Proof.
  induction l as [|d l IH]; simpl.
  - split; [constructor | reflexivity].
  - destruct (Qlt_le_dec t d) as [H|H]; split.
    + intros E. constructor; [exact H|]. now apply IH.
    + intros Hall. inversion Hall; subst. now apply IH.
    + discriminate.
    + intros Hall. inversion Hall; subst. lra.
Qed.

Lemma Qdiv_eq_1 (c n : Q) : (0 < n)%Q -> (c / n == 1)%Q <-> (c == n)%Q.
Proof.
  intros Hn. split; intros H.
  - assert (E : (c == c / n * n)%Q) by (field; lra). rewrite E, H. ring.
  - rewrite H. field. lra.
Qed.

Lemma Qdiv_eq_0 (c n : Q) : (0 < n)%Q -> (c / n == 0)%Q <-> (c == 0)%Q.
Proof.
  intros Hn. split; intros H.
  - assert (E : (c == c / n * n)%Q) by (field; lra). rewrite E, H. ring.
  - rewrite H. field. lra.
Qed.

(** X11: for a group with at least one non-null delay, on_time_rate is 1
    exactly when every delay is at most the threshold, and 0 exactly when
    every delay is above it. *)
Theorem on_time_rate_extremes (group : EventFrame) (thr : Q) :
  has_column "delay_minutes" (e_columns group) = true ->
  dropna (map delay_minutes (e_rows group)) <> [] ->
  let delay := dropna (map delay_minutes (e_rows group)) in
  exists (st : GroupKpis) (rate : Q),
    _group_kpis group thr = Ok st /\ on_time_rate st = Some rate /\
    ((rate == 1)%Q <-> Forall (fun d => (d <= thr)%Q) delay) /\
    ((rate == 0)%Q <-> Forall (fun d => (thr < d)%Q) delay).
Proof.
  intros Hc Hne delay.
  eexists. exists (fraction_at_most thr delay).
  split; [apply (_group_kpis_nonempty group thr Hc Hne)|].
  split; [now apply (mean_le_fraction thr delay)|].
  pose proof (Qlen_pos delay Hne) as Hn. unfold fraction_at_most.
  split.
  - rewrite (Qdiv_eq_1 _ _ Hn), <- count_at_most_all. split.
    + intros E. apply Nat2Z.inj. unfold Qeq in E. simpl in E. lia.
    + intros ->. reflexivity.
  - rewrite (Qdiv_eq_0 _ _ Hn), <- count_at_most_none. split.
    + intros E. apply Nat2Z.inj. unfold Qeq in E. simpl in E. lia.
    + intros ->. reflexivity.
Qed.

Lemma on_time_rate_extremes_witness :
  exists (st : GroupKpis) (rate : Q),
    _group_kpis example_events 2 = Ok st /\ on_time_rate st = Some rate /\
    ((rate == 1)%Q <-> Forall (fun d => (d <= 2)%Q) [0.5; 2]%Q) /\
    ((rate == 0)%Q <-> Forall (fun d => (2 < d)%Q) [0.5; 2]%Q).
Proof.
  apply (on_time_rate_extremes example_events 2).
  - reflexivity.
  - discriminate.
Defined.

(** X12: a group with exactly one non-null delay d has avg_delay_min = d
    and p90_delay_min = d, counts one event, and has on_time_rate 1 or 0
    as d is at most the threshold or above it. *)
Theorem single_observation_statistics (group : EventFrame) (thr d : Q) :
  has_column "delay_minutes" (e_columns group) = true ->
  dropna (map delay_minutes (e_rows group)) = [d] ->
  exists (st : GroupKpis) (a p t : Q),
    _group_kpis group thr = Ok st /\
    avg_delay_min st = Some a /\ (a == d)%Q /\
    p90_delay_min st = Some p /\ (p == d)%Q /\
    on_time_rate st = Some t /\
    ((d <= thr)%Q -> (t == 1)%Q) /\ ((thr < d)%Q -> (t == 0)%Q) /\
    n_events st = 1%Z.
Proof.
  intros Hc Hd.
  pose proof (_group_kpis_nonempty group thr Hc) as Hrun. cbv zeta in Hrun.
  rewrite Hd in Hrun. specialize (Hrun ltac:(discriminate)).
  do 4 eexists. split; [exact Hrun|].
  cbn [avg_delay_min p90_delay_min on_time_rate n_events].
  split; [reflexivity|]. split; [unfold Qsum, Qlen; simpl; field|].
  split; [reflexivity|].
  split; [unfold quantile; cbn [isort insert_sorted length Nat.sub];
          change (Qfloor (0.9 * inject_Z (Z.of_nat 0))) with 0%Z;
          change (Z.to_nat 0) with 0%nat; change ((0 + 1) `min` 0)%nat with 0%nat;
          cbn [nth]; ring|].
  split; [apply (mean_le_fraction thr [d]); discriminate|].
  unfold fraction_at_most. simpl.
  destruct (Qlt_le_dec thr d) as [H|H]; repeat split; intros; try lra; reflexivity.
Qed.

Lemma single_observation_statistics_witness :
  exists (st : GroupKpis) (a p t : Q),
    _group_kpis single_observation 1 = Ok st /\
    avg_delay_min st = Some a /\ (a == 4)%Q /\
    p90_delay_min st = Some p /\ (p == 4)%Q /\
    on_time_rate st = Some t /\
    ((4 <= 1)%Q -> (t == 1)%Q) /\ ((1 < 4)%Q -> (t == 0)%Q) /\
    n_events st = 1%Z.
Proof.
  apply (single_observation_statistics single_observation 1 4); reflexivity.
Defined.

(** ** More on the score *)

Lemma row_score_defined (a t : Q) :
  row_score (Some a) (Some t)
  = Some (100 * (0.6 * t + 0.4 * (1 - Qmin (Qmax a 0) 10 / 10)))%Q.
Proof. reflexivity. Qed.

Lemma clip_monotone (a1 a2 : Q) :
  (a1 <= a2)%Q -> (Qmin (Qmax a1 0) 10 <= Qmin (Qmax a2 0) 10)%Q.
Proof.
  intros H. apply Q.min_le_compat_r. now apply Q.max_le_compat_r.
Qed.

Lemma clip_saturates (a : Q) : (10 <= a)%Q -> (Qmin (Qmax a 0) 10 == 10)%Q.
Proof.
  intros H. apply Q.min_r. apply Qle_trans with a; [exact H | apply Q.le_max_l].
Qed.

Lemma clip_early (a : Q) : (a <= 0)%Q -> (Qmin (Qmax a 0) 10 == 0)%Q.
Proof.
  intros H. rewrite (Q.max_r a 0 H). now apply Q.min_l.
Qed.

Lemma score_row_compare (r1 r2 : KpiRow) (a1 a2 t1 t2 : Q) :
  avg_delay_min (stats r1) = Some a1 -> on_time_rate (stats r1) = Some t1 ->
  avg_delay_min (stats r2) = Some a2 -> on_time_rate (stats r2) = Some t2 ->
  scores_compare a1 a2 t1 t2 (score_row r1) (score_row r2).
Proof.
  intros Ha1 Ht1 Ha2 Ht2. unfold scores_compare, score_row.
  cbn [reliability_score with_score]. rewrite Ha1, Ht1, Ha2, Ht2.
  rewrite !row_score_defined. do 2 eexists.
  split; [reflexivity|]. split; [reflexivity|].
  unfold Qdiv. change (/ 10)%Q with (1 # 10)%Q.
  split; [|split].
  - intros Ha Ht. pose proof (clip_monotone a1 a2 Ha). lra.
  - intros H1 H2 Ht. pose proof (clip_saturates a1 H1). pose proof (clip_saturates a2 H2). lra.
  - intros H1 H2 Ht. pose proof (clip_early a1 H1). pose proof (clip_early a2 H2). lra.
Qed.

(** X13: in the table [_add_reliability_score] returns, of two rows with
    defined average delay and on-time rate, the one with the lower (or the
    same) average delay and the higher (or the same) on-time rate has the
    score at least as high; with equal on-time rates, two average delays of
    10 minutes or more give equal scores, and so do two average delays of
    zero or less. *)
Theorem score_monotone (h : heap) (l : loc) (k : KpiFrame) :
  h !! l = Some (Kpis k) ->
  has_column "avg_delay_min" (k_columns k) = true ->
  has_column "on_time_rate" (k_columns k) = true ->
  exists (l' : loc) (h' : heap) (k' : KpiFrame),
    _add_reliability_score l h = (Ok l', h') /\ h' !! l' = Some (Kpis k') /\
    length (k_rows k') = length (k_rows k) /\
    forall (i j : nat) (r1 r2 r1' r2' : KpiRow) (a1 a2 t1 t2 : Q),
      nth_error (k_rows k) i = Some r1 -> nth_error (k_rows k') i = Some r1' ->
      nth_error (k_rows k) j = Some r2 -> nth_error (k_rows k') j = Some r2' ->
      avg_delay_min (stats r1) = Some a1 -> on_time_rate (stats r1) = Some t1 ->
      avg_delay_min (stats r2) = Some a2 -> on_time_rate (stats r2) = Some t2 ->
      scores_compare a1 a2 t1 t2 r1' r2'.
Proof.
  intros Hl Havg Hrate.
  destruct (_add_reliability_score_allocates h l k Hl Havg Hrate)
    as (l' & h' & Hrun & _ & _ & Hl').
  exists l', h', (scored_frame k).
  split; [exact Hrun|]. split; [exact Hl'|]. cbn [scored_frame k_rows].
  split; [apply length_map|].
  intros i j r1 r2 r1' r2' a1 a2 t1 t2 Hi Hi' Hj Hj' Ha1 Ht1 Ha2 Ht2.
  rewrite nth_error_map, Hi in Hi'. rewrite nth_error_map, Hj in Hj'.
  cbn [option_map] in Hi', Hj'. injection Hi' as <-. injection Hj' as <-.
  now apply score_row_compare.
Qed.

Lemma score_monotone_witness :
  exists (l' : loc) (h' : heap) (k' : KpiFrame),
    _add_reliability_score 1%positive example_kpi_heap = (Ok l', h') /\
    h' !! l' = Some (Kpis k') /\
    length (k_rows k') = length (k_rows example_kpis) /\
    forall (i j : nat) (r1 r2 r1' r2' : KpiRow) (a1 a2 t1 t2 : Q),
      nth_error (k_rows example_kpis) i = Some r1 ->
      nth_error (k_rows k') i = Some r1' ->
      nth_error (k_rows example_kpis) j = Some r2 ->
      nth_error (k_rows k') j = Some r2' ->
      avg_delay_min (stats r1) = Some a1 -> on_time_rate (stats r1) = Some t1 ->
      avg_delay_min (stats r2) = Some a2 -> on_time_rate (stats r2) = Some t2 ->
      scores_compare a1 a2 t1 t2 r1' r2'.
Proof.
  apply (score_monotone example_kpi_heap 1%positive example_kpis); reflexivity.
Defined.

(** ** Infinite hours *)

Lemma _bucket_infinite (negative : bool) :
  exists msg, _bucket (PInf negative) = Raise (OverflowError msg).
Proof. eexists. reflexivity. Qed.

Lemma _bucket_outcome (x : pyfloat) :
  (exists label, _bucket x = Ok label) \/
  (exists msg, _bucket x = Raise (OverflowError msg)).
Proof.
  destruct x as [|negative|q].
  - left. eexists. reflexivity.
  - right. apply _bucket_infinite.
  - left. apply _bucket_total. discriminate.
Qed.

Lemma map_res_bucket_infinite (hours : list pyfloat) :
  Exists (fun x => exists negative, x = PInf negative) hours ->
  exists msg, map_res _bucket hours = Raise (OverflowError msg).
Proof.
  induction hours as [|x hours IH]; intros Hex; [inversion Hex|].
  cbn [map_res].
  destruct (_bucket_outcome x) as [[label Hx]|[msg Hx]]; rewrite Hx; cbn [res_bind].
  - inversion Hex as [? ? [negative ->]|? ? Htl]; subst.
    + destruct (_bucket_infinite negative) as [msg Hm]. congruence.
    + destruct (IH Htl) as [msg Hm]. rewrite Hm. now exists msg.
  - now exists msg.
Qed.

Lemma _add_time_of_day_bucket_infinite (h : heap) (df : loc) (f : EventFrame) :
  h !! df = Some (Events f) ->
  has_column "hour" (e_columns f) = true ->
  Exists infinite_hour (e_rows f) ->
  exists (msg : string) (h' : heap),
    _add_time_of_day_bucket df h = (Raise (OverflowError msg), h').
Proof.
  intros Hdf Hhour Hex.
  destruct (map_res_bucket_infinite (map hour (e_rows f))) as [msg Hm].
  { apply List.Exists_exists in Hex. destruct Hex as (r & Hr & Hinf).
    apply List.Exists_exists. exists (hour r). split; [now apply in_map | exact Hinf]. }
  destruct (copy_allocates h df _ Hdf) as (l' & h1 & Hc & Hsub & Hnone & Hl').
  exists msg, h1. unfold _add_time_of_day_bucket.
  step (columns_events _ _ _ Hdf). rewrite Hhour. cbn [negb].
  step Hc. step (load_events_ok _ _ _ Hl').
  rewrite Hm. reflexivity.
Qed.

(** X14: on a table with the three columns in which some event has an
    infinite hour, the route + time-of-day operation ends in an
    OverflowError, raised by the bucketer, while the route operation and the
    route + hour operation, which never convert the hour, return their
    scored tables. *)
Theorem infinite_hour_fails_bucketing (h : heap) (df : loc) (f : EventFrame) (thr : Q) :
  h !! df = Some (Events f) ->
  has_column "route_id" (e_columns f) = true ->
  has_column "delay_minutes" (e_columns f) = true ->
  has_column "hour" (e_columns f) = true ->
  Exists infinite_hour (e_rows f) ->
  fails_with (compute_route_period_kpis df thr) h is_OverflowError /\
  returns_scored_table (compute_route_kpis df thr) h /\
  returns_scored_table (compute_route_hour_kpis df thr) h.
Proof.
  intros Hdf Hroute Hdelay Hhour Hex.
  assert (Hne : e_rows f <> []).
  { intros Hnil. rewrite Hnil in Hex. inversion Hex. }
  split; [|split].
  - destruct (_add_time_of_day_bucket_infinite h df f Hdf Hhour Hex) as (msg & h' & Hrun).
    exists (OverflowError msg), h'. split; [|now exists msg].
    unfold compute_route_period_kpis. now apply bind_raise.
  - destruct (compute_route_kpis_allocates h df f thr Hdf Hroute Hdelay Hne)
      as (o & Ho & Hrows & l' & h' & Hrun & _ & _ & Hl').
    exists l', h', o. repeat split; try assumption.
    now apply (kpi_table_in_range _ _ _ _ Ho).
  - destruct (compute_route_hour_kpis_allocates h df f thr Hdf Hroute Hdelay Hhour Hne)
      as (o & Ho & Hrows & l' & h' & Hrun & _ & _ & Hl').
    exists l', h', o. repeat split; try assumption.
    now apply (kpi_table_in_range _ _ _ _ Ho).
Qed.

Lemma infinite_hour_fails_bucketing_witness :
  fails_with (compute_route_period_kpis 1%positive 1) heap_with_infinite_hour
    is_OverflowError /\
  returns_scored_table (compute_route_kpis 1%positive 1) heap_with_infinite_hour /\
  returns_scored_table (compute_route_hour_kpis 1%positive 1) heap_with_infinite_hour.
Proof.
  apply (infinite_hour_fails_bucketing heap_with_infinite_hour 1%positive
           events_with_infinite_hour 1); try reflexivity.
  apply Exists_cons_tl, Exists_cons_hd. exists false. reflexivity.
Defined.

(** ** Route KPIs, then the worst routes *)

Lemma worst_rows_in_range (rows sorted : list KpiRow) (n : nat) :
  Permutation sorted rows -> Forall score_in_range rows ->
  Forall score_in_range (firstn n sorted).
Proof.
  intros Hperm Hall.
  assert (Hs : Forall score_in_range sorted).
  { rewrite List.Forall_forall in *. intros r Hr. apply Hall.
    now apply (Permutation_in _ Hperm). }
  rewrite <- (firstn_skipn n sorted) in Hs. now apply List.Forall_app in Hs.
Qed.

(** X15: on a table with the route and delay columns and at least one
    event, computing the route KPIs and summarising their worst routes, as
    [main] chains them, never fails: for top_n >= 0 it returns a new table
    with min(top_n, number of routes) rows, the first rows of the route KPI
    table arranged by average delay from the worst down, each with its
    score in [0, 100], and the event table is as it was. *)
Theorem worst_routes_of_route_kpis (argsort : list Q -> list nat) (h : heap)
    (df : loc) (f : EventFrame) (thr : Q) (top_n : Z) :
  argsort_spec argsort ->
  h !! df = Some (Events f) ->
  has_column "route_id" (e_columns f) = true ->
  has_column "delay_minutes" (e_columns f) = true ->
  e_rows f <> [] ->
  (0 <= top_n)%Z ->
  exists (l' : loc) (h' : heap) (worst : KpiFrame),
    (do route_kpis <- compute_route_kpis df thr;
     summarize_worst_routes argsort route_kpis top_n) h = (Ok l', h') /\
    h' !! l' = Some (Kpis worst) /\
    h' !! df = Some (Events f) /\ h !! l' = None /\
    worst_routes_of f thr top_n worst.
Proof.
  intros Hspec Hdf Hroute Hdelay Hne Hpos.
  destruct (compute_route_kpis_allocates h df f thr Hdf Hroute Hdelay Hne)
    as (o & Ho & Hrows & l1 & h1 & Hrun1 & Hsub1 & Hnone1 & Hl1).
  assert (Havg : has_column "avg_delay_min" (k_columns o) = true).
  { destruct Ho as (_ & Hcols & _). rewrite Hcols. reflexivity. }
  pose proof (nargsort_desc_worst_first argsort (k_rows o) Hspec) as Hworst.
  destruct (sort_values_desc_allocates argsort h1 l1 o Hl1 Havg)
    as (l2 & h2 & Hrun2 & Hsub2 & Hnone2 & Hl2).
  destruct (head_allocates h2 l2 _ top_n Hl2) as (l3 & h3 & Hrun3 & Hsub3 & Hnone3 & Hl3).
  assert (Hsub : h ⊆ h2) by (transitivity h1; assumption).
  eexists l3, h3, _.
  split. { step Hrun1. unfold summarize_worst_routes. step Hrun2. exact Hrun3. }
  split; [exact Hl3|].
  split. { apply (lookup_weaken h2); [|exact Hsub3]. now apply (lookup_weaken h). }
  split. { now apply (lookup_weaken_None h h2). }
  eexists o, _. split; [exact Ho|]. split; [exact Hworst|].
  cbn [k_rows]. unfold slice_to. destruct (Z.leb_spec 0 top_n); [|lia].
  split; [reflexivity|]. split.
  - rewrite length_firstn. f_equal.
    destruct Hworst as [Hperm _]. rewrite (Permutation_length Hperm).
    destruct Ho as (_ & _ & Hall). symmetry. exact (Forall2_length_eq _ _ _ Hall).
  - destruct Hworst as [Hperm _].
    apply (worst_rows_in_range (k_rows o)); [exact Hperm|].
    now apply (kpi_table_in_range _ _ _ _ Ho).
Qed.

Lemma worst_routes_of_route_kpis_witness :
  exists (l' : loc) (h' : heap) (worst : KpiFrame),
    (do route_kpis <- compute_route_kpis 1%positive 1;
     summarize_worst_routes stable_argsort route_kpis 10) example_heap = (Ok l', h') /\
    h' !! l' = Some (Kpis worst) /\
    h' !! 1%positive = Some (Events example_events) /\ example_heap !! l' = None /\
    worst_routes_of example_events 1 10 worst.
Proof.
  apply (worst_routes_of_route_kpis stable_argsort example_heap 1%positive
           example_events 1 10).
  - exact stable_argsort_spec.
  - reflexivity.
  - reflexivity.
  - reflexivity.
  - discriminate.
  - lia.
Defined.

(** ** The worst routes and the caller's table *)

Lemma keeps_sort_values_desc (h0 : heap) (argsort : list Q -> list nat) (df : loc)
    (by_ : string) :
  keeps h0 (sort_values_desc argsort df by_) (new_in h0).
Proof.
  unfold sort_values_desc. eapply keeps_bind; [apply keeps_load|]. intros [f|k] _.
  - apply keeps_raise.
  - eapply keeps_bind; [apply keeps_lift|]. intros items _. apply keeps_alloc.
Qed.

Lemma keeps_head (h0 : heap) (df : loc) (n : Z) : keeps h0 (head df n) (new_in h0).
Proof.
  unfold head. eapply keeps_bind; [apply keeps_load|].
  intros [f|k] _; apply keeps_alloc.
Qed.

Lemma keeps_summarize_worst_routes (h0 : heap) (argsort : list Q -> list nat)
    (l : loc) (n : Z) :
  keeps h0 (summarize_worst_routes argsort l n) (new_in h0).
Proof.
  unfold summarize_worst_routes.
  eapply keeps_bind; [apply keeps_sort_values_desc|]. intros s _. apply keeps_head.
Qed.

(** X16: [summarize_worst_routes] on a table without the avg_delay_min
    column ends in KeyError 'avg_delay_min', raised by sort_values before
    anything is allocated: the heap is exactly as it was. *)
Theorem worst_routes_requires_avg (argsort : list Q -> list nat) (h : heap)
    (l : loc) (k : KpiFrame) (top_n : Z) :
  h !! l = Some (Kpis k) ->
  has_column "avg_delay_min" (k_columns k) = false ->
  summarize_worst_routes argsort l top_n h = (Raise (KeyError "avg_delay_min"), h).
Proof.
  intros Hl Havg. unfold summarize_worst_routes. apply bind_raise.
  unfold sort_values_desc. step (load_ok _ _ _ Hl).
  unfold kpi_column. rewrite Havg. reflexivity.
Qed.

Lemma worst_routes_requires_avg_witness :
  summarize_worst_routes stable_argsort 1%positive 10 heap_without_avg
  = (Raise (KeyError "avg_delay_min"), heap_without_avg).
Proof.
  apply (worst_routes_requires_avg stable_argsort heap_without_avg 1%positive
           kpis_without_avg 10); reflexivity.
Defined.

(** X17: whatever the sorting kernel, top_n and the outcome,
    [summarize_worst_routes] leaves the KPI table it is given, and every
    other table that existed before the call, exactly as it was; the table
    it returns is a new object, distinct from its input. *)
Theorem worst_routes_leaves_table (argsort : list Q -> list nat) (h : heap)
    (l : loc) (k : KpiFrame) (top_n : Z) :
  h !! l = Some (Kpis k) ->
  leaves_kpis_unchanged (summarize_worst_routes argsort l top_n) h l k.
Proof.
  intros Hl.
  destruct (keeps_summarize_worst_routes h argsort l top_n h (reflexivity h))
    as [Hsub Hnew].
  assert (Hobj : forall l0 o, h !! l0 = Some o ->
                              snd (summarize_worst_routes argsort l top_n h) !! l0 = Some o).
  { intros l0 o Hl0. exact (lookup_weaken _ _ _ _ Hl0 Hsub). }
  split; [now apply Hobj|]. split; [exact Hobj|].
  intros l' Hl'. pose proof (Hnew l' Hl') as Hnone. split; [exact Hnone|].
  intros ->. unfold new_in in Hnone. congruence.
Qed.

Lemma worst_routes_leaves_table_witness :
  leaves_kpis_unchanged (summarize_worst_routes stable_argsort 1%positive (-1))
    example_kpi_heap 1%positive example_kpis.
Proof.
  apply (worst_routes_leaves_table stable_argsort example_kpi_heap 1%positive
           example_kpis (-1)).
  reflexivity.
Defined.

(** ** The bucketed copy *)

(** X18: on a table with an hour column and no infinite hour,
    [_add_time_of_day_bucket] returns a new table with the rows of the
    input in their order, each with its route, hour and delay as they were
    and with the bucket of its hour as time_of_day; the columns of the
    input are kept, and a time_of_day column that was there is overwritten,
    not added a second time. *)
Theorem bucketed_copy (h : heap) (df : loc) (f : EventFrame) :
  h !! df = Some (Events f) ->
  has_column "hour" (e_columns f) = true ->
  Forall (fun r => forall negative, hour r <> PInf negative) (e_rows f) ->
  exists (l' : loc) (h' : heap) (f' : EventFrame),
    _add_time_of_day_bucket df h = (Ok l', h') /\
    h !! l' = None /\ h' !! l' = Some (Events f') /\ h' !! df = Some (Events f) /\
    Forall2 labelled_from (e_rows f) (e_rows f') /\
    has_column "time_of_day" (e_columns f') = true /\
    (forall c, has_column c (e_columns f) = true ->
               has_column c (e_columns f') = true) /\
    (has_column "time_of_day" (e_columns f) = true -> e_columns f' = e_columns f) /\
    (has_column "time_of_day" (e_columns f) = false ->
     e_columns f' = (e_columns f ++ ["time_of_day"])%list).
Proof.
  intros Hdf Hhour Hfin.
  destruct (_add_time_of_day_bucket_allocates h df f Hdf Hhour Hfin)
    as (labels & Hlabels & Hlen & l' & h' & Hrun & Hsub & Hnone & Hl').
  exists l', h', (bucketed f labels).
  split; [exact Hrun|]. split; [exact Hnone|]. split; [exact Hl'|].
  split; [exact (lookup_weaken _ _ _ _ Hdf Hsub)|].
  split; [now apply assign_labels_from|].
  split; [apply has_time_of_day_bucketed|].
  split; [intros c Hc; now apply has_column_bucketed|].
  split; intros Hc; cbn [bucketed e_columns]; now rewrite Hc.
Qed.

Lemma bucketed_copy_witness :
  exists (l' : loc) (h' : heap) (f' : EventFrame),
    _add_time_of_day_bucket 1%positive heap_with_labels = (Ok l', h') /\
    heap_with_labels !! l' = None /\ h' !! l' = Some (Events f') /\
    h' !! 1%positive = Some (Events events_with_labels) /\
    Forall2 labelled_from (e_rows events_with_labels) (e_rows f') /\
    has_column "time_of_day" (e_columns f') = true /\
    (forall c, has_column c (e_columns events_with_labels) = true ->
               has_column c (e_columns f') = true) /\
    (has_column "time_of_day" (e_columns events_with_labels) = true ->
     e_columns f' = e_columns events_with_labels) /\
    (has_column "time_of_day" (e_columns events_with_labels) = false ->
     e_columns f' = (e_columns events_with_labels ++ ["time_of_day"])%list).
Proof.
  apply (bucketed_copy heap_with_labels 1%positive events_with_labels).
  - reflexivity.
  - reflexivity.
  - repeat constructor; discriminate.
Defined.
